(** * The local evaluation service: inference over a batch of eval cases

    A shallow embedding of [evaluation/service/local] of trpc-agent-go: the
    per-case inference pipeline ([inferenceEvalCase]), option resolution
    ([resolveInferenceOptions]), the serial and the worker-pool executors
    ([inferEvalCasesSerial], [inferEvalCasesParallel]) and [Inference].

    Go pointers that may be nil are [option]s; a slice whose nil-ness the code
    or its callers observe is an [option (list _)]; an [error] is represented
    by the text its [Error()] method returns.  The external collaborators
    (eval-set manager, callbacks, agent runner, the ants pool) are functions of
    their arguments; what they are called with is recorded in a trace. *)

From Stdlib Require Import ZArith Lia.
From stdpp Require Import base option strings list gmap pretty.

Local Open Scope string_scope.
Local Open Scope list_scope.
Local Open Scope stdpp_scope.

(** ** Errors, time and contexts *)

(** A Go [error], by its message. *)
Definition error := string.

(** [fmt.Errorf(prefix + ": %w", err)]. *)
Definition wrap (prefix : string) (err : error) : error := prefix +:+ ": " +:+ err.

(** [errors.Join(err, afterErr)] with [afterErr] non-nil: nil operands are
    dropped and the remaining messages are joined by a newline. *)
Definition newline : string := String (Ascii.ascii_of_nat 10) "".

Definition errors_Join (err : option error) (afterErr : error) : error :=
  match err with
  | None => afterErr
  | Some e => e +:+ newline +:+ afterErr
  end.

(** [time.Time] values. *)
Definition Time := nat.

(** A [context.Context], by the values it carries. *)
Definition Context := gmap string string.

(** ** package model, package evalset, package status *)

Record Message := { msg_Role : string; msg_Content : string }.

Record Tool := {
  tool_ID : string;
  tool_Name : string;
  tool_Arguments : string;
  tool_Result : string
}.

Record Invocation := {
  inv_InvocationID : string;
  inv_ContextMessages : list (option Message);
  inv_UserContent : option Message;
  inv_FinalResponse : option Message;
  inv_Tools : list Tool
}.

Record SessionInput := {
  si_UserID : string;
  si_State : gmap string string
}.

(** Modelled from the spec: the declaration of [evalset.EvalMode] is not in
    the sources; the spec names two evaluation modes, live (the default,
    which calls the runner) and trace. *)
Inductive EvalMode := EvalModeDefault | EvalModeTrace.

Definition EvalMode_eqb (a b : EvalMode) : bool :=
  match a, b with
  | EvalModeDefault, EvalModeDefault | EvalModeTrace, EvalModeTrace => true
  | _, _ => false
  end.

Record EvalCase := {
  ec_EvalID : string;
  ec_EvalMode : EvalMode;
  ec_ContextMessages : list (option Message);
  ec_Conversation : list (option Invocation);
  ec_ActualConversation : list (option Invocation);
  ec_SessionInput : option SessionInput
}.

Record EvalSet := { es_EvalCases : list (option EvalCase) }.

(** Modelled from the spec: package [status] is not in the sources; a case
    result is passed, failed or not evaluated; [EvalStatusZero] is the zero
    value a freshly allocated result carries. *)
Inductive EvalStatus :=
  | EvalStatusZero
  | EvalStatusPassed
  | EvalStatusFailed
  | EvalStatusNotEvaluated.

(** ** package agent: run options *)

Record RunOptions := {
  ro_InjectedContextMessages : list Message;
  ro_RuntimeState : option (gmap string string)
}.

(** [agent.RunOption]: a function that updates a [RunOptions] in place. *)
Definition RunOption := RunOptions -> RunOptions.

Definition zeroRunOptions : RunOptions :=
  {| ro_InjectedContextMessages := []; ro_RuntimeState := None |}.

(** What a runner sees after [for _, opt := range runOpts { opt(&opts) }]. *)
Definition applyRunOptions (runOpts : list RunOption) : RunOptions :=
  fold_left (fun o f => f o) runOpts zeroRunOptions.

(** Modelled from the spec: [agent.WithInjectedContextMessages] is not in the
    sources.  Case messages are "appended after" the global ones, "additive,
    not overriding": the option appends to the messages already injected. *)
Definition WithInjectedContextMessages (messages : list Message) : RunOption :=
  fun o => {| ro_InjectedContextMessages := ro_InjectedContextMessages o ++ messages;
              ro_RuntimeState := ro_RuntimeState o |}.

(** Modelled from the spec: [agent.WithRuntimeState] is not in the sources;
    it sets the runtime state, so the option applied last takes precedence. *)
Definition WithRuntimeState (state : gmap string string) : RunOption :=
  fun o => {| ro_InjectedContextMessages := ro_InjectedContextMessages o;
              ro_RuntimeState := Some state |}.

(** ** package service *)

Record InferenceRequest := {
  req_AppName : string;
  req_EvalSetID : string;
  req_EvalCaseIDs : list string
}.

Record InferenceResult := {
  res_AppName : string;
  res_EvalSetID : string;
  res_EvalCaseID : string;
  res_EvalMode : EvalMode;
  res_Inferences : option (list (option Invocation));
  res_SessionID : string;
  res_UserID : string;
  res_Status : EvalStatus;
  res_ErrorMessage : string
}.

Record BeforeInferenceSetArgs := { bisa_Request : InferenceRequest }.
Record BeforeInferenceSetResult := { bisr_Context : option Context }.

Record AfterInferenceSetArgs := {
  aisa_Request : InferenceRequest;
  aisa_Results : option (list (option InferenceResult));
  aisa_Error : option error;
  aisa_StartTime : Time
}.

Record BeforeInferenceCaseArgs := {
  bica_Request : InferenceRequest;
  bica_EvalCaseID : string;
  bica_SessionID : string
}.
Record BeforeInferenceCaseResult := { bicr_Context : option Context }.

Record AfterInferenceCaseArgs := {
  aica_Request : InferenceRequest;
  aica_Result : InferenceResult;
  aica_Error : option error;
  aica_StartTime : Time
}.

(** Modelled from the spec: package [internal/callback] and the declaration of
    [service.Callbacks] are not in the sources.  A [*service.Callbacks] value
    (nil included) is represented by what running its chain returns at each
    phase: [callback.RunBeforeInferenceCase(ctx, callbacks, args)] is
    [cb_RunBeforeInferenceCase callbacks ctx args], and so on.  A before-set
    handler may rewrite the request it is handed, so that phase also returns
    the request as the handlers leave it. *)
Record Callbacks := {
  cb_RunBeforeInferenceSet :
    Context -> BeforeInferenceSetArgs ->
    option BeforeInferenceSetResult * option error * InferenceRequest;
  cb_RunAfterInferenceSet :
    Context -> AfterInferenceSetArgs -> option error;
  cb_RunBeforeInferenceCase :
    Context -> BeforeInferenceCaseArgs ->
    option BeforeInferenceCaseResult * option error;
  cb_RunAfterInferenceCase :
    Context -> AfterInferenceCaseArgs -> option error
}.

(** [evalset.Manager], by its [Get] method. *)
Record Manager := {
  mgr_Get : Context -> string -> string -> EvalSet + error
}.

Record Options := {
  opt_EvalSetManager : option Manager;
  opt_SessionIDSupplier : option (Context -> string);
  opt_Callbacks : Callbacks;
  opt_RunOptions : list RunOption;
  opt_EvalCaseParallelism : Z;
  opt_EvalCaseParallelInferenceEnabled : bool;
  opt_EvalCaseParallelEvaluationEnabled : bool
}.

(** [service.Option]: a function that updates an [Options] in place. *)
Definition Option := Options -> Options.

(** Modelled from the spec: [service.WithSessionIDSupplier] is not in the
    sources; it sets the session-ID supplier of the options it is applied
    to, so a call-scoped supplier takes precedence over the default. *)
Definition WithSessionIDSupplier (supplier : Context -> string) : Option :=
  fun o =>
    {| opt_EvalSetManager := opt_EvalSetManager o;
       opt_SessionIDSupplier := Some supplier;
       opt_Callbacks := opt_Callbacks o;
       opt_RunOptions := opt_RunOptions o;
       opt_EvalCaseParallelism := opt_EvalCaseParallelism o;
       opt_EvalCaseParallelInferenceEnabled := opt_EvalCaseParallelInferenceEnabled o;
       opt_EvalCaseParallelEvaluationEnabled :=
         opt_EvalCaseParallelEvaluationEnabled o |}.

(** ** The agent runner and its event stream *)

(** Modelled from the spec: package [event] is not in the sources.  The
    stream of a run carries tool-call events, tool-result events, a terminal
    final-response event and events that signal an error; what else it
    carries does not matter here. *)
Inductive Event :=
  | EventError (msg : string)
  | EventToolCall (id name arguments : string)
  | EventToolResult (id result : string)
  | EventFinalResponse (m : Message)
  | EventOther.

(** [runner.Runner], by its [Run] method; the event channel is the finite
    list of events it yields before it is closed. *)
Record Runner := {
  runner_Run :
    Context -> string -> string -> Message -> list RunOption -> list Event + error
}.

(** ** Observations

    Calls that leave the service, and the synchronisation steps of the
    parallel executor, in the order they happen. *)
Inductive Obs :=
  | ObsGet (ctx : Context) (appName evalSetID : string)
  | ObsBeforeInferenceSet (ctx : Context) (args : BeforeInferenceSetArgs)
  | ObsAfterInferenceSet (ctx : Context) (args : AfterInferenceSetArgs)
  | ObsBeforeInferenceCase (ctx : Context) (args : BeforeInferenceCaseArgs)
  | ObsAfterInferenceCase (ctx : Context) (args : AfterInferenceCaseArgs)
  | ObsRunnerRun (ctx : Context) (userID sessionID : string) (message : Message)
                 (runOpts : list RunOption)
  | ObsInvoke (idx : nat) (rejection : option error)
  | ObsWgAdd
  | ObsWgDone (idx : nat).

Definition isAfterInferenceCase (o : Obs) : bool :=
  match o with ObsAfterInferenceCase _ _ => true | _ => false end.

Definition isRunnerRun (o : Obs) : bool :=
  match o with ObsRunnerRun _ _ _ _ _ => true | _ => false end.

Definition isWgDone (idx : nat) (o : Obs) : bool :=
  match o with ObsWgDone i => bool_decide (i = idx) | _ => false end.

Definition count (p : Obs -> bool) (trace : list Obs) : nat :=
  length (List.filter p trace).

(** ** Outcomes and the effect monad of the per-case pipeline

    A computation reads the clock and either panics or returns a value
    together with the observations it made.  Nothing here recovers from a
    panic: it ends the run. *)
Inductive Outcome (A : Type) :=
  | Ok (a : A)
  | Panic (msg : string).
Arguments Ok {A} a.
Arguments Panic {A} msg.

Definition Eff (A : Type) : Type := Time -> Outcome (A * list Obs).

Definition eff_ret {A} (a : A) : Eff A := fun _ => Ok (a, []).

Definition eff_bind {A B} (k : A -> Eff B) (m : Eff A) : Eff B :=
  fun now =>
    match m now with
    | Ok (a, t1) =>
        match k a now with
        | Ok (b, t2) => Ok (b, t1 ++ t2)
        | Panic msg => Panic msg
        end
    | Panic msg => Panic msg
    end.

#[export] Instance Eff_ret : MRet Eff := @eff_ret.
#[export] Instance Eff_bind : MBind Eff := @eff_bind.

Definition observe (o : Obs) : Eff unit := fun _ => Ok (tt, [o]).
Definition time_Now : Eff Time := fun now => Ok (now, []).
Definition panic {A} (msg : string) : Eff A := fun _ => Panic msg.

(** The value and the trace of a computation run at time [now]. *)
Definition value {A} (m : Eff A) (now : Time) : option A :=
  match m now with Ok (a, _) => Some a | Panic _ => None end.

Definition traceOf {A} (m : Eff A) (now : Time) : list Obs :=
  match m now with Ok (_, t) => t | Panic _ => [] end.

(** ** The service *)

(** An [ants.PoolWithFunc] running the worker function of
    [createEvalCaseInferencePool]. *)
Record PoolWithFunc := { pool_size : Z }.

(** The [local] service; [sync.Once] is the flag saying whether it has fired. *)
Record local := {
  runner : Runner;
  evalSetManager : option Manager;
  sessionIDSupplier : option (Context -> string);
  callbacks : Callbacks;
  runOptions : list RunOption;
  evalCaseParallelism : Z;
  evalCaseParallelInferenceEnabled : bool;
  evalCaseParallelEvaluationEnabled : bool;
  evalCaseInferencePoolOnce : bool;
  evalCaseInferencePool : option PoolWithFunc;
  evalCaseInferencePoolErr : option error
}.

(** ** Building results *)

Definition newInferenceResult (appName evalSetID sessionID : string)
    (evalCase : EvalCase) : InferenceResult :=
  let userID :=
    match ec_SessionInput evalCase with
    | Some sessionInput => si_UserID sessionInput
    | None => ""
    end in
  {| res_AppName := appName;
     res_EvalSetID := evalSetID;
     res_EvalCaseID := ec_EvalID evalCase;
     res_EvalMode := ec_EvalMode evalCase;
     res_Inferences := None;
     res_SessionID := sessionID;
     res_UserID := userID;
     res_Status := EvalStatusZero;
     res_ErrorMessage := "" |}.

Definition newFailedInferenceResult (result : InferenceResult) (err : error)
    : InferenceResult :=
  {| res_AppName := res_AppName result;
     res_EvalSetID := res_EvalSetID result;
     res_EvalCaseID := res_EvalCaseID result;
     res_EvalMode := res_EvalMode result;
     res_Inferences := None;
     res_SessionID := res_SessionID result;
     res_UserID := res_UserID result;
     res_Status := EvalStatusFailed;
     res_ErrorMessage := err |}.

(** [result.Inferences = inferences; result.Status = status.EvalStatusPassed]. *)
Definition passedWith (result : InferenceResult)
    (inferences : list (option Invocation)) : InferenceResult :=
  {| res_AppName := res_AppName result;
     res_EvalSetID := res_EvalSetID result;
     res_EvalCaseID := res_EvalCaseID result;
     res_EvalMode := res_EvalMode result;
     res_Inferences := Some inferences;
     res_SessionID := res_SessionID result;
     res_UserID := res_UserID result;
     res_Status := EvalStatusPassed;
     res_ErrorMessage := res_ErrorMessage result |}.

(** The result literal of the two early returns of [inferenceEvalCase]. *)
Definition bareInferenceResult (req : InferenceRequest)
    (sessionID evalCaseID : string) : InferenceResult :=
  {| res_AppName := req_AppName req;
     res_EvalSetID := req_EvalSetID req;
     res_EvalCaseID := evalCaseID;
     res_EvalMode := EvalModeDefault;
     res_Inferences := None;
     res_SessionID := sessionID;
     res_UserID := "";
     res_Status := EvalStatusZero;
     res_ErrorMessage := "" |}.

(** [fmt.Errorf("inference eval case (evalCaseID=%s, sessionID=%s): " + rest)]. *)
Definition caseError (evalCaseID sessionID rest : string) : error :=
  "inference eval case (evalCaseID=" +:+ evalCaseID +:+ ", sessionID=" +:+
  sessionID +:+ "): " +:+ rest.

Fixpoint seedLoop (idx : nat) (messages : list (option Message))
    (seed : list Message) : list Message + error :=
  match messages with
  | [] => inl seed
  | None :: _ => inr ("context message is nil at index " +:+ pretty idx)
  | Some message :: rest => seedLoop (S idx) rest (seed ++ [message])
  end.

Definition seedMessagesFromPointers (messages : list (option Message))
    : list Message + error :=
  match messages with
  | [] => inl []
  | _ => seedLoop 0 messages []
  end.

(** ** Case callbacks *)

Definition runBeforeInferenceCaseCallbacks (ctx : Context) (cbs : Callbacks)
    (req : InferenceRequest) (evalCaseID sessionID : string)
    : Eff (Context * option error) :=
  let args := {| bica_Request := req;
                 bica_EvalCaseID := evalCaseID;
                 bica_SessionID := sessionID |} in
  observe (ObsBeforeInferenceCase ctx args);;
  let '(result, err) := cb_RunBeforeInferenceCase cbs ctx args in
  let ctx' :=
    match result with
    | Some r => match bicr_Context r with Some c => c | None => ctx end
    | None => ctx
    end in
  match err with
  | Some e =>
      mret (ctx', Some (wrap
        ("run before inference case callbacks (app=" +:+ req_AppName req +:+
         ", evalSetID=" +:+ req_EvalSetID req +:+ ", evalCaseID=" +:+ evalCaseID +:+
         ", sessionID=" +:+ sessionID +:+ ")") e))
  | None => mret (ctx', None)
  end.

Definition runAfterInferenceCaseCallbacks (ctx : Context) (cbs : Callbacks)
    (req : InferenceRequest) (evalCaseID : string) (result : InferenceResult)
    (err : option error) (startTime : Time) : Eff (option error) :=
  let args := {| aica_Request := req;
                 aica_Result := result;
                 aica_Error := err;
                 aica_StartTime := startTime |} in
  observe (ObsAfterInferenceCase ctx args);;
  match cb_RunAfterInferenceCase cbs ctx args with
  | Some afterErr =>
      mret (Some (wrap
        ("run after inference case callbacks (app=" +:+ req_AppName req +:+
         ", evalSetID=" +:+ req_EvalSetID req +:+ ", evalCaseID=" +:+ evalCaseID +:+
         ")") afterErr))
  | None => mret None
  end.

(** ** package internal/inference *)

Definition setToolResult (result : string) (t : Tool) : Tool :=
  {| tool_ID := tool_ID t; tool_Name := tool_Name t;
     tool_Arguments := tool_Arguments t; tool_Result := result |}.

(** Modelled from the spec: the consumption of the event stream of one turn,
    which is not in the sources.  Tool-call events are appended to the trace
    in order and indexed by call id; a tool-result event is merged into the
    entry of its call id and fails when the id is unknown; the final-response
    event gives the final response of the turn; an error event fails it. *)
Fixpoint consumeEvents (events : list Event) (tools : list Tool)
    (toolIDIdx : gmap string nat) (finalResponse : option Message)
    : list Tool * option Message + error :=
  match events with
  | [] => inl (tools, finalResponse)
  | EventError msg :: _ => inr ("event: " +:+ msg)
  | EventFinalResponse m :: rest => consumeEvents rest tools toolIDIdx (Some m)
  | EventToolCall id name arguments :: rest =>
      let t := {| tool_ID := id; tool_Name := name;
                  tool_Arguments := arguments; tool_Result := "" |} in
      consumeEvents rest (tools ++ [t]) (<[id := length tools]> toolIDIdx)
                    finalResponse
  | EventToolResult id result :: rest =>
      match toolIDIdx !! id with
      | None => inr ("convert tool result response: tool call id " +:+ id +:+
                     " not found")
      | Some i =>
          consumeEvents rest (alter (setToolResult result) i tools) toolIDIdx
                        finalResponse
      end
  | EventOther :: rest => consumeEvents rest tools toolIDIdx finalResponse
  end.

(** Modelled from the spec: one turn of a live conversation.  The runner is
    called with the user id, the session id, the turn's user message and the
    merged run options, the case's initial state being applied last so that
    it takes precedence; the turn fails if the runner call errors, if an
    event signals an error, or if the stream ends without a final response. *)
Definition inferenceInvocation (ctx : Context) (r : Runner) (sessionID : string)
    (initialSession : SessionInput) (invocation : Invocation)
    (runOptions : list RunOption) : Eff (Invocation + error) :=
  match inv_UserContent invocation with
  | None => mret (inr "invocation user content is nil")
  | Some userContent =>
      let runOpts := runOptions ++ [WithRuntimeState (si_State initialSession)] in
      observe (ObsRunnerRun ctx (si_UserID initialSession) sessionID userContent
                            runOpts);;
      match runner_Run r ctx (si_UserID initialSession) sessionID userContent
                       runOpts with
      | inr err => mret (inr (wrap "runner run" err))
      | inl events =>
          match consumeEvents events [] ∅ None with
          | inr err => mret (inr err)
          | inl (_, None) => mret (inr "final response is nil")
          | inl (tools, Some finalResponse) =>
              mret (inl {| inv_InvocationID := inv_InvocationID invocation;
                           inv_ContextMessages := [];
                           inv_UserContent := Some userContent;
                           inv_FinalResponse := Some finalResponse;
                           inv_Tools := tools |})
          end
      end
  end.

(** Modelled from the spec: the turns of a live conversation are run in
    order, and the first failure ends the case. *)
Fixpoint inferenceTurns (ctx : Context) (r : Runner) (sessionID : string)
    (initialSession : SessionInput) (invocations : list (option Invocation))
    (runOptions : list RunOption) : Eff (list (option Invocation) + error) :=
  match invocations with
  | [] => mret (inl [])
  | None :: _ => mret (inr "invocation is nil")
  | Some invocation :: rest =>
      turn ← inferenceInvocation ctx r sessionID initialSession invocation
                                 runOptions;
      match turn with
      | inr err => mret (inr err)
      | inl inference =>
          others ← inferenceTurns ctx r sessionID initialSession rest runOptions;
          match others with
          | inr err => mret (inr err)
          | inl inferences => mret (inl (Some inference :: inferences))
          end
      end
  end.

(** Modelled from the spec: [inference.Inference] is not in the sources.  A
    live case fails if the conversation is empty or the session input is
    missing; otherwise its turns are run in order, stopping at the first
    failure. *)
Definition inference_Inference (ctx : Context) (r : Runner)
    (invocations : list (option Invocation)) (initialSession : option SessionInput)
    (sessionID : string) (runOptions : list RunOption)
    : Eff (list (option Invocation) + error) :=
  match invocations, initialSession with
  | [], _ => mret (inr "invocations are empty")
  | _, None => mret (inr "session input is nil")
  | _, Some session =>
      inferenceTurns ctx r sessionID session invocations runOptions
  end.

(** Modelled from the spec: [attachContextMessages] is not in the sources; an
    invocation records the context messages used for its turn. *)
Definition attachContextMessages (inferences : list (option Invocation))
    (contextMessages : list (option Message)) : list (option Invocation) :=
  map (fun inference =>
         match inference with
         | None => None
         | Some i => Some {| inv_InvocationID := inv_InvocationID i;
                             inv_ContextMessages := contextMessages;
                             inv_UserContent := inv_UserContent i;
                             inv_FinalResponse := inv_FinalResponse i;
                             inv_Tools := inv_Tools i |}
         end) inferences.

(** ** The per-case pipeline *)

(** The loop over [evalCase.ActualConversation]: the message of the first
    turn that is nil or has nil user content. *)
Fixpoint checkActualConversation (i : nat) (actual : list (option Invocation))
    : option string :=
  match actual with
  | [] => None
  | None :: _ => Some ("actual invocation is nil at index " +:+ pretty i)
  | Some invocation :: rest =>
      match inv_UserContent invocation with
      | None => Some ("actual invocation user content is nil at index " +:+
                      pretty i)
      | Some _ => checkActualConversation (S i) rest
      end
  end.

(** [opts.SessionIDSupplier(ctx)]: calling a nil function panics. *)
Definition callSessionIDSupplier (opts : Options) (ctx : Context) : Eff string :=
  match opt_SessionIDSupplier opts with
  | Some supplier => mret (supplier ctx)
  | None => panic "invalid memory address or nil pointer dereference"
  end.

(** [inferenceEvalCase] from the line that follows the registration of the
    deferred after-case call: it returns the named result together with the
    [err] variable, as the deferred closure finds them. *)
Definition inferenceEvalCaseBody (s : local) (ctx : Context)
    (req : InferenceRequest) (evalCase : EvalCase) (opts : Options)
    (sessionID : string) : Eff (InferenceResult * option error) :=
  let result :=
    newInferenceResult (req_AppName req) (req_EvalSetID req) sessionID evalCase in
  let fail (rest : string) : Eff (InferenceResult * option error) :=
    let err := caseError (ec_EvalID evalCase) sessionID rest in
    mret (newFailedInferenceResult result err, Some err) in
  match ec_SessionInput evalCase with
  | None => fail "session input is nil"
  | Some _ =>
  if negb (length (ec_ActualConversation evalCase) =? 0)%nat
     && negb (EvalMode_eqb (ec_EvalMode evalCase) EvalModeTrace)
  then fail "actualConversation is only supported in trace mode"
  else if EvalMode_eqb (ec_EvalMode evalCase) EvalModeTrace then
    if negb (length (ec_ActualConversation evalCase) =? 0)%nat then
      if negb (length (ec_Conversation evalCase) =? 0)%nat
         && negb (length (ec_ActualConversation evalCase)
                  =? length (ec_Conversation evalCase))%nat
      then fail ("actual conversation length " +:+
                 pretty (length (ec_ActualConversation evalCase)) +:+
                 " does not match conversation length " +:+
                 pretty (length (ec_Conversation evalCase)))
      else
        match checkActualConversation 0 (ec_ActualConversation evalCase) with
        | Some rest => fail rest
        | None => mret (passedWith result (ec_ActualConversation evalCase), None)
        end
    else if (length (ec_Conversation evalCase) =? 0)%nat
    then fail "invocations are empty"
    else mret (passedWith result (ec_Conversation evalCase), None)
  else if (length (ec_Conversation evalCase) =? 0)%nat
  then fail "invocations are empty"
  else
    match seedMessagesFromPointers (ec_ContextMessages evalCase) with
    | inr err => fail err
    | inl seedMessages =>
        let mergedRunOptions :=
          opt_RunOptions opts ++
          (if (0 <? length seedMessages)%nat
           then [WithInjectedContextMessages seedMessages] else []) in
        inferred ← inference_Inference ctx (runner s) (ec_Conversation evalCase)
                     (ec_SessionInput evalCase) sessionID mergedRunOptions;
        match inferred with
        | inr err => fail err
        | inl inferences =>
            mret (passedWith result
                    (attachContextMessages inferences (ec_ContextMessages evalCase)),
                  None)
        end
    end
  end.

Definition inferenceEvalCase (s : local) (ctx : Context) (req : InferenceRequest)
    (evalCase : option EvalCase) (opts : Options) : Eff InferenceResult :=
  sessionID ← callSessionIDSupplier opts ctx;
  match evalCase with
  | None =>
      mret (newFailedInferenceResult (bareInferenceResult req sessionID "")
                                     "eval case is nil")
  | Some evalCase =>
      '(ctx, err) ← runBeforeInferenceCaseCallbacks ctx (opt_Callbacks opts) req
                      (ec_EvalID evalCase) sessionID;
      match err with
      | Some err =>
          mret (newFailedInferenceResult
                  (bareInferenceResult req sessionID (ec_EvalID evalCase)) err)
      | None =>
          caseStartTime ← time_Now;
          '(result, err) ← inferenceEvalCaseBody s ctx req evalCase opts sessionID;
          (* the deferred function *)
          afterErr ← runAfterInferenceCaseCallbacks ctx (opt_Callbacks opts) req
                       (ec_EvalID evalCase) result err caseStartTime;
          match afterErr with
          | Some afterErr =>
              mret (newFailedInferenceResult result (errors_Join err afterErr))
          | None => mret result
          end
      end
  end.

(** ** The world of the executor

    What [Inference] reads and updates besides its arguments: the clock, the
    trace, the service [s] points to, the package-level
    [evalCaseInferenceParamPool] and package [ants]. *)

(** A pointer to an object of which the model holds one: the service, the
    results array of the batch, its [sync.WaitGroup]. *)
Inductive ref_to (T : Type) : Type := the_ref.
Arguments the_ref {T}.

Definition WaitGroup := Z.

Record evalCaseInferenceParam := {
  p_idx : nat;
  p_ctx : option Context;
  p_req : option InferenceRequest;
  p_evalCase : option EvalCase;
  p_opts : option Options;
  p_svc : option (ref_to local);
  p_results : option (ref_to (list (option InferenceResult)));
  p_wg : option (ref_to WaitGroup)
}.

(** [new(evalCaseInferenceParam)], which is also what [reset] leaves. *)
Definition zeroParam : evalCaseInferenceParam :=
  {| p_idx := 0; p_ctx := None; p_req := None; p_evalCase := None;
     p_opts := None; p_svc := None; p_results := None; p_wg := None |}.

Definition reset (p : evalCaseInferenceParam) : evalCaseInferenceParam :=
  {| p_idx := 0; p_ctx := None; p_req := None; p_evalCase := None;
     p_opts := None; p_svc := None; p_results := None; p_wg := None |}.

(** [ants.NewPoolWithFunc(size, fn)] for the worker function of this package. *)
Record Ants := { ants_NewPoolWithFunc : Z -> PoolWithFunc + error }.

Record World := {
  w_now : Time;
  w_trace : list Obs;
  w_svc : local;
  w_paramPool : list evalCaseInferenceParam;
  w_ants : Ants
}.

Definition M (A : Type) : Type := World -> Outcome (A * World).

Definition m_ret {A} (a : A) : M A := fun w => Ok (a, w).

Definition m_bind {A B} (k : A -> M B) (m : M A) : M B :=
  fun w =>
    match m w with
    | Ok (a, w') => k a w'
    | Panic msg => Panic msg
    end.

#[export] Instance M_ret : MRet M := @m_ret.
#[export] Instance M_bind : MBind M := @m_bind.

Definition addTrace (t : list Obs) (w : World) : World :=
  {| w_now := w_now w; w_trace := w_trace w ++ t; w_svc := w_svc w;
     w_paramPool := w_paramPool w; w_ants := w_ants w |}.

Definition setSvc (s : local) (w : World) : World :=
  {| w_now := w_now w; w_trace := w_trace w; w_svc := s;
     w_paramPool := w_paramPool w; w_ants := w_ants w |}.

Definition setParamPool (pool : list evalCaseInferenceParam) (w : World) : World :=
  {| w_now := w_now w; w_trace := w_trace w; w_svc := w_svc w;
     w_paramPool := pool; w_ants := w_ants w |}.

(** Running a pipeline computation in the world: its observations are
    appended to the trace. *)
Definition lift {A} (m : Eff A) : M A :=
  fun w =>
    match m (w_now w) with
    | Ok (a, t) => Ok (a, addTrace t w)
    | Panic msg => Panic msg
    end.

Definition getSvc : M local := fun w => Ok (w_svc w, w).
Definition m_panic {A} (msg : string) : M A := fun _ => Panic msg.

(** ** The worker pool of the service (pool.go) *)

Definition createEvalCaseInferencePool (ants : Ants) (size : Z)
    : PoolWithFunc + error :=
  if bool_decide (size <= 0)%Z
  then inr "pool size must be greater than 0"
  else
    match ants_NewPoolWithFunc ants size with
    | inr err => inr (wrap "create eval case inference pool" err)
    | inl pool => inl pool
    end.

Definition setPoolOnce (s : local) : local :=
  {| runner := runner s; evalSetManager := evalSetManager s;
     sessionIDSupplier := sessionIDSupplier s; callbacks := callbacks s;
     runOptions := runOptions s; evalCaseParallelism := evalCaseParallelism s;
     evalCaseParallelInferenceEnabled := evalCaseParallelInferenceEnabled s;
     evalCaseParallelEvaluationEnabled := evalCaseParallelEvaluationEnabled s;
     evalCaseInferencePoolOnce := true;
     evalCaseInferencePool := evalCaseInferencePool s;
     evalCaseInferencePoolErr := evalCaseInferencePoolErr s |}.

Definition setPool (pool : option PoolWithFunc) (err : option error) (s : local)
    : local :=
  {| runner := runner s; evalSetManager := evalSetManager s;
     sessionIDSupplier := sessionIDSupplier s; callbacks := callbacks s;
     runOptions := runOptions s; evalCaseParallelism := evalCaseParallelism s;
     evalCaseParallelInferenceEnabled := evalCaseParallelInferenceEnabled s;
     evalCaseParallelEvaluationEnabled := evalCaseParallelEvaluationEnabled s;
     evalCaseInferencePoolOnce := evalCaseInferencePoolOnce s;
     evalCaseInferencePool := pool;
     evalCaseInferencePoolErr := err |}.

(** The function handed to [s.evalCaseInferencePoolOnce.Do]. *)
Definition initEvalCaseInferencePool (ants : Ants) (size : Z) (s : local) : local :=
  match evalCaseInferencePool s with
  | Some _ => s
  | None =>
      match createEvalCaseInferencePool ants size with
      | inr err => setPool (evalCaseInferencePool s) (Some err) s
      | inl pool => setPool (Some pool) (evalCaseInferencePoolErr s) s
      end
  end.

(** [ensureEvalCaseInferencePool], with the signature its callers use:
    [resolveInferenceOptions] and [inferEvalCasesParallel] pass the
    parallelism of the resolved options and take a pool and an error back.
    The declaration next to the pool is of another form: it takes no
    argument, builds the pool from [s.evalCaseParallelism] and returns the
    error only.  The two differ in the size the pool is built from; they
    agree when the size of the call is the parallelism of the service.  What
    they share is followed here: the [sync.Once] runs the initialisation at
    most once, a pool the service already holds is kept, and every call
    returns what that one run memoized. *)
Definition ensureEvalCaseInferencePool (size : Z)
    : M (option PoolWithFunc * option error) :=
  fun w =>
    let s := w_svc w in
    let s' :=
      if evalCaseInferencePoolOnce s then s
      else initEvalCaseInferencePool (w_ants w) size (setPoolOnce s) in
    Ok ((evalCaseInferencePool s', evalCaseInferencePoolErr s'), setSvc s' w).

(** ** Option resolution (options.go) *)

(** The [service.Options] literal [resolveInferenceOptions] starts from. *)
Definition serviceDefaults (s : local) : Options :=
  {| opt_EvalSetManager := evalSetManager s;
     opt_SessionIDSupplier := sessionIDSupplier s;
     opt_Callbacks := callbacks s;
     opt_RunOptions := [] ++ runOptions s;
     opt_EvalCaseParallelism := evalCaseParallelism s;
     opt_EvalCaseParallelInferenceEnabled := evalCaseParallelInferenceEnabled s;
     opt_EvalCaseParallelEvaluationEnabled := evalCaseParallelEvaluationEnabled s |}.

(** [for _, o := range opt { o(callOpts) }]. *)
Definition applyOptions (opt : list Option) (callOpts : Options) : Options :=
  fold_left (fun o f => f o) opt callOpts.

Definition resolveInferenceOptions (opt : list Option) : M (Options + error) :=
  s ← getSvc;
  let callOpts := applyOptions opt (serviceDefaults s) in
  match opt_EvalSetManager callOpts, opt_SessionIDSupplier callOpts with
  | None, _ => mret (inr "eval set manager is nil")
  | Some _, None => mret (inr "session id supplier is nil")
  | Some _, Some _ =>
      if opt_EvalCaseParallelInferenceEnabled callOpts then
        if bool_decide (opt_EvalCaseParallelism callOpts <= 0)%Z
        then mret (inr "eval case parallelism must be greater than 0")
        else
          '(_, err) ← ensureEvalCaseInferencePool (opt_EvalCaseParallelism callOpts);
          match err with
          | Some err => mret (inr err)
          | None => mret (inl callOpts)
          end
      else mret (inl callOpts)
  end.

(** ** Set callbacks, request validation and loading (inference.go) *)

Definition validateInferenceRequest (req : option InferenceRequest) : option error :=
  match req with
  | None => Some "inference request is nil"
  | Some req =>
      if bool_decide (req_AppName req = "") then Some "app name is empty"
      else if bool_decide (req_EvalSetID req = "") then Some "eval set id is empty"
      else None
  end.

Definition setContext (req : InferenceRequest) : string :=
  "(app=" +:+ req_AppName req +:+ ", evalSetID=" +:+ req_EvalSetID req +:+ ")".

(** The handlers may have rewritten the request through the pointer in their
    arguments: the request is returned as they leave it. *)
Definition runBeforeInferenceSetCallbacks (ctx : Context) (cbs : Callbacks)
    (req : InferenceRequest) : Eff (Context * option error * InferenceRequest) :=
  let args := {| bisa_Request := req |} in
  observe (ObsBeforeInferenceSet ctx args);;
  let '(result, err, req) := cb_RunBeforeInferenceSet cbs ctx args in
  let ctx' :=
    match result with
    | Some r => match bisr_Context r with Some c => c | None => ctx end
    | None => ctx
    end in
  match err with
  | Some e =>
      mret (ctx', Some (wrap ("run before inference set callbacks " +:+
                              setContext req) e), req)
  | None => mret (ctx', None, req)
  end.

Definition runAfterInferenceSetCallbacks (ctx : Context) (cbs : Callbacks)
    (req : InferenceRequest) (results : option (list (option InferenceResult)))
    (err : option error) (startTime : Time) : Eff (option error) :=
  let args := {| aisa_Request := req; aisa_Results := results;
                 aisa_Error := err; aisa_StartTime := startTime |} in
  observe (ObsAfterInferenceSet ctx args);;
  match cb_RunAfterInferenceSet cbs ctx args with
  | Some e =>
      mret (Some (wrap ("run after inference set callbacks " +:+ setContext req) e))
  | None => mret None
  end.

(** The two filtering loops of [loadInferenceEvalCases]: nil cases are
    skipped, the others are appended when [keep] holds. *)
Fixpoint filterEvalCases (keep : EvalCase -> bool)
    (evalCases : list (option EvalCase)) : list (option EvalCase) :=
  match evalCases with
  | [] => []
  | None :: rest => filterEvalCases keep rest
  | Some evalCase :: rest =>
      if keep evalCase then Some evalCase :: filterEvalCases keep rest
      else filterEvalCases keep rest
  end.

Definition loadInferenceEvalCases (ctx : Context) (req : InferenceRequest)
    (mgr : option Manager) : Eff (list (option EvalCase) + error) :=
  match mgr with
  | None => panic "invalid memory address or nil pointer dereference"
  | Some mgr =>
      observe (ObsGet ctx (req_AppName req) (req_EvalSetID req));;
      match mgr_Get mgr ctx (req_AppName req) (req_EvalSetID req) with
      | inr err => mret (inr (wrap "get eval set" err))
      | inl evalSet =>
          if (length (req_EvalCaseIDs req) =? 0)%nat
          then mret (inl (filterEvalCases (fun _ => true) (es_EvalCases evalSet)))
          else
            let wanted : gset string := list_to_set (req_EvalCaseIDs req) in
            mret (inl (filterEvalCases
                         (fun evalCase => bool_decide (ec_EvalID evalCase ∈ wanted))
                         (es_EvalCases evalSet)))
      end
  end.

(** ** The serial executor *)

Fixpoint inferEvalCasesSerialLoop (s : local) (ctx : Context)
    (req : InferenceRequest) (evalCases : list (option EvalCase)) (opts : Options)
    (results : list (option InferenceResult))
    : Eff (list (option InferenceResult)) :=
  match evalCases with
  | [] => mret results
  | evalCase :: rest =>
      result ← inferenceEvalCase s ctx req evalCase opts;
      inferEvalCasesSerialLoop s ctx req rest opts (results ++ [Some result])
  end.

Definition inferEvalCasesSerial (s : local) (ctx : Context) (req : InferenceRequest)
    (evalCases : list (option EvalCase)) (opts : Options)
    : Eff (option (list (option InferenceResult)) * option error) :=
  results ← inferEvalCasesSerialLoop s ctx req evalCases opts [];
  mret (Some results, None).

(** ** The parallel executor

    The main goroutine runs the submission loop; the pool runs each accepted
    task on some worker.  What varies from run to run is which submissions
    the pool rejects and when each accepted task runs: a schedule lists these
    choices.  A task runs as one step (the tasks of a batch write distinct
    slots, and the collaborators are functions of their arguments); the size
    of the pool only bounds how many tasks are in flight, so every
    interleaving the pool allows is the run of some schedule.

    [Submit rejection] is the next iteration of the loop, [rejection] being
    what [pool.Invoke] returns in it; [Work k] is a worker running the k-th of
    the tasks in flight. *)

Inductive Action :=
  | Submit (rejection : option error)
  | Work (k : nat).

(** The local variables of [inferEvalCasesParallel] (the results array, the
    WaitGroup counter, the iterations of the loop still to run) and the tasks
    the pool has accepted and not yet run. *)
Record Batch := {
  b_results : list (option InferenceResult);
  b_wg : WaitGroup;
  b_running : list evalCaseInferenceParam;
  b_rest : list (nat * option EvalCase)
}.

Definition paramPoolGet : M evalCaseInferenceParam :=
  fun w =>
    match w_paramPool w with
    | [] => Ok (zeroParam, w)
    | p :: pool => Ok (p, setParamPool pool w)
    end.

Definition paramPoolPut (p : evalCaseInferenceParam) : M unit :=
  fun w => Ok (tt, setParamPool (p :: w_paramPool w) w).

(** [wg.Done()] on behalf of the case at [idx]. *)
Definition wgDone (idx : nat) (wg : WaitGroup) : M WaitGroup :=
  lift (observe (ObsWgDone idx));;
  if bool_decide (wg - 1 < 0)%Z
  then m_panic "sync: negative WaitGroup counter"
  else mret (wg - 1)%Z.

(** The function [createEvalCaseInferencePool] gives to the pool. *)
Definition evalCaseInferenceWorker (param : evalCaseInferenceParam) (b : Batch)
    : M Batch :=
  match p_svc param, p_ctx param, p_req param, p_opts param,
        p_results param, p_wg param with
  | Some _, Some ctx, Some req, Some opts, Some _, Some _ =>
      s ← getSvc;
      result ← lift (inferenceEvalCase s ctx req (p_evalCase param) opts);
      if (p_idx param <? length (b_results b))%nat then
        (* the deferred function *)
        wg ← wgDone (p_idx param) (b_wg b);
        paramPoolPut (reset param);;
        mret {| b_results := <[p_idx param := Some result]> (b_results b);
                b_wg := wg;
                b_running := b_running b;
                b_rest := b_rest b |}
      else m_panic "index out of range"
  | _, _, _, _, _, _ => m_panic "invalid memory address or nil pointer dereference"
  end.

(** One iteration of the loop of [inferEvalCasesParallel].  Every field of
    the parameter fetched from the parameter pool is assigned before use, so
    what the pool handed out does not matter. *)
Definition submitStep (pool : option PoolWithFunc) (ctx : Context)
    (req : InferenceRequest) (opts : Options) (rejection : option error)
    (b : Batch) : M Batch :=
  match b_rest b with
  | [] => mret b
  | (idx, evalCase) :: rest =>
      lift (observe ObsWgAdd);;
      param ← paramPoolGet;
      let param := {| p_idx := idx; p_ctx := Some ctx; p_req := Some req;
                      p_evalCase := evalCase; p_opts := Some opts;
                      p_svc := Some the_ref; p_results := Some the_ref;
                      p_wg := Some the_ref |} in
      match pool with
      | None => m_panic "invalid memory address or nil pointer dereference"
      | Some _ =>
          lift (observe (ObsInvoke idx rejection));;
          match rejection with
          | None =>
              mret {| b_results := b_results b;
                      b_wg := (b_wg b + 1)%Z;
                      b_running := b_running b ++ [param];
                      b_rest := rest |}
          | Some err =>
              wg ← wgDone idx (b_wg b + 1)%Z;
              sessionID ← lift (callSessionIDSupplier opts ctx);
              match evalCase with
              | None => m_panic "invalid memory address or nil pointer dereference"
              | Some evalCase =>
                  if (idx <? length (b_results b))%nat then
                    paramPoolPut (reset param);;
                    mret {| b_results :=
                              <[idx := Some (newFailedInferenceResult
                                  (newInferenceResult (req_AppName req)
                                     (req_EvalSetID req) sessionID evalCase)
                                  (wrap ("submit inference task for eval case " +:+
                                         ec_EvalID evalCase) err))]> (b_results b);
                            b_wg := wg;
                            b_running := b_running b;
                            b_rest := rest |}
                  else m_panic "index out of range"
              end
          end
      end
  end.

(** A worker picks up the k-th task in flight and runs it. *)
Definition workStep (k : nat) (b : Batch) : M Batch :=
  match b_running b !! k with
  | None => mret b
  | Some param =>
      b' ← evalCaseInferenceWorker param b;
      mret {| b_results := b_results b'; b_wg := b_wg b';
              b_running := delete k (b_running b'); b_rest := b_rest b' |}
  end.

Definition step (pool : option PoolWithFunc) (ctx : Context)
    (req : InferenceRequest) (opts : Options) (a : Action) (b : Batch) : M Batch :=
  match a with
  | Submit rejection => submitStep pool ctx req opts rejection b
  | Work k => workStep k b
  end.

Fixpoint runSchedule (pool : option PoolWithFunc) (ctx : Context)
    (req : InferenceRequest) (opts : Options) (sched : list Action) (b : Batch)
    : M Batch :=
  match sched with
  | [] => mret b
  | a :: sched =>
      b' ← step pool ctx req opts a b;
      runSchedule pool ctx req opts sched b'
  end.

(** [wg.Wait()]: whatever the schedule left undone is completed, the tasks in
    flight first, then the rest of the loop, each submission being accepted
    and run. *)
Definition drainSchedule (b : Batch) : list Action :=
  replicate (length (b_running b)) (Work 0) ++
  concat (replicate (length (b_rest b)) [Submit None; Work 0]).

(** The state at the head of the loop: [results] has one nil slot per case
    and no task has been submitted. *)
Definition initBatch (evalCases : list (option EvalCase)) : Batch :=
  {| b_results := replicate (length evalCases) None;
     b_wg := 0%Z;
     b_running := [];
     b_rest := zip (seq 0 (length evalCases)) evalCases |}.

(** The loop under a schedule, then [wg.Wait()]. *)
Definition runBatch (pool : option PoolWithFunc) (ctx : Context)
    (req : InferenceRequest) (opts : Options) (sched : list Action) (b : Batch)
    : M Batch :=
  b ← runSchedule pool ctx req opts sched b;
  runSchedule pool ctx req opts (drainSchedule b) b.

Definition inferEvalCasesParallel (sched : list Action) (ctx : Context)
    (req : InferenceRequest) (evalCases : list (option EvalCase)) (opts : Options)
    : M (option (list (option InferenceResult)) * option error) :=
  '(pool, err) ← ensureEvalCaseInferencePool (opt_EvalCaseParallelism opts);
  match err with
  | Some err => mret (None, Some err)
  | None =>
      b ← runBatch pool ctx req opts sched (initBatch evalCases);
      mret (Some (b_results b), None)
  end.

Definition inferEvalCases (sched : list Action) (ctx : Context)
    (req : InferenceRequest) (evalCases : list (option EvalCase)) (opts : Options)
    : M (option (list (option InferenceResult)) * option error) :=
  if opt_EvalCaseParallelInferenceEnabled opts
  then inferEvalCasesParallel sched ctx req evalCases opts
  else s ← getSvc; lift (inferEvalCasesSerial s ctx req evalCases opts).

(** ** Inference *)

(** [Inference] from the line that follows the registration of the deferred
    after-set call: the named results as the deferred closure finds them. *)
Definition InferenceBody (sched : list Action) (ctx : Context)
    (req : InferenceRequest) (callOpts : Options)
    : M (option (list (option InferenceResult)) * option error) :=
  loaded ← lift (loadInferenceEvalCases ctx req (opt_EvalSetManager callOpts));
  match loaded with
  | inr err => mret (None, Some (wrap "load inference eval cases" err))
  | inl evalCases =>
      if (length evalCases =? 0)%nat then mret (Some [], None)
      else
        '(results, err) ← inferEvalCases sched ctx req evalCases callOpts;
        match err with
        | Some err => mret (None, Some (wrap "infer eval cases" err))
        | None => mret (results, None)
        end
  end.

Definition Inference (sched : list Action) (ctx : Context)
    (req : option InferenceRequest) (opt : list Option)
    : M (option (list (option InferenceResult)) * option error) :=
  match validateInferenceRequest req, req with
  | Some err, _ => mret (None, Some (wrap "validate inference request" err))
  | None, None => m_panic "invalid memory address or nil pointer dereference"
  | None, Some req =>
      resolved ← resolveInferenceOptions opt;
      match resolved with
      | inr err => mret (None, Some err)
      | inl callOpts =>
          '(ctx, err, req) ←
            lift (runBeforeInferenceSetCallbacks ctx (opt_Callbacks callOpts) req);
          match err with
          | Some err =>
              mret (None, Some (wrap ("run before inference set callbacks " +:+
                                      setContext req) err))
          | None =>
              startTime ← lift time_Now;
              '(results, err) ← InferenceBody sched ctx req callOpts;
              (* the deferred function *)
              afterErr ← lift (runAfterInferenceSetCallbacks ctx
                                 (opt_Callbacks callOpts) req results err startTime);
              match afterErr with
              | Some afterErr => mret (None, Some afterErr)
              | None => mret (results, err)
              end
          end
      end
  end.

(** ** Notions used in the statements *)

(** [strings.Contains(s, sub)]. *)
Definition contains (sub s : string) : Prop :=
  exists pre post : string, s = pre +:+ sub +:+ post.

Fixpoint containsb (sub s : string) : bool :=
  String.prefix sub s ||
  match s with
  | EmptyString => false
  | String _ s' => containsb sub s'
  end.

(** A turn of a recorded conversation that is nil or has nil user content. *)
Definition badTurn (turn : option Invocation) : bool :=
  match turn with
  | None => true
  | Some invocation =>
      match inv_UserContent invocation with None => true | Some _ => false end
  end.

(** What [pool.Invoke] answered to each submission of a schedule, in the
    order of the submissions. *)
Fixpoint rejections (sched : list Action) : list (option error) :=
  match sched with
  | [] => []
  | Submit rejection :: sched => rejection :: rejections sched
  | Work _ :: sched => rejections sched
  end.

Definition decisionAt (decisions : list (option error)) (idx : nat) : option error :=
  match decisions !! idx with
  | Some (Some err) => Some err
  | _ => None
  end.

(** The answer to the submission of the case at [idx]; submissions the
    schedule does not list are those [wg.Wait()] found accepted. *)
Definition rejectionOf (sched : list Action) (idx : nat) : option error :=
  decisionAt (rejections sched) idx.

(** The result the executor writes for a case whose submission is rejected. *)
Definition rejectedResult (req : InferenceRequest) (sessionID : string)
    (evalCase : EvalCase) (err : error) : InferenceResult :=
  newFailedInferenceResult
    (newInferenceResult (req_AppName req) (req_EvalSetID req) sessionID evalCase)
    (wrap ("submit inference task for eval case " +:+ ec_EvalID evalCase) err).

(** The task parameter the loop fills for the case at [idx]. *)
Definition taskParam (ctx : Context) (req : InferenceRequest) (opts : Options)
    (idx : nat) (evalCase : option EvalCase) : evalCaseInferenceParam :=
  {| p_idx := idx; p_ctx := Some ctx; p_req := Some req; p_evalCase := evalCase;
     p_opts := Some opts; p_svc := Some the_ref; p_results := Some the_ref;
     p_wg := Some the_ref |}.

(** The case at an index of the batch. *)
Definition caseAt (evalCases : list (option EvalCase)) (idx : nat)
    : option EvalCase :=
  default None (evalCases !! idx).

(** What the slot of a case holds once the case is complete: the failure the
    loop wrote if its submission was rejected, what the pipeline returns for
    it otherwise. *)
Definition slotOf (s : local) (ctx : Context) (req : InferenceRequest)
    (opts : Options) (now : Time) (rejection : option error)
    (evalCase : option EvalCase) : option InferenceResult :=
  match rejection with
  | Some err =>
      match evalCase, opt_SessionIDSupplier opts with
      | Some evalCase, Some supplier =>
          Some (rejectedResult req (supplier ctx) evalCase err)
      | _, _ => None
      end
  | None => value (inferenceEvalCase s ctx req evalCase opts) now
  end.

(** The invariant of a batch in which the submissions made so far were
    answered by [decisions]: the loop is at the next case; the tasks in
    flight are those of accepted submissions, each once, and the WaitGroup
    counts them; the slot of every other submitted case holds its result, and
    in the trace since the start of the batch the WaitGroup has been signalled
    once for each of these cases and for no other. *)
Definition batchInv (s : local) (ctx : Context) (req : InferenceRequest)
    (opts : Options) (now : Time) (evalCases : list (option EvalCase))
    (trace0 : list Obs)
    (decisions : list (option error)) (b : Batch) (w : World) : Prop :=
  w_now w = now /\
  runner (w_svc w) = runner s /\
  length (b_results b) = length evalCases /\
  length decisions <= length evalCases /\
  b_rest b = drop (length decisions) (zip (seq 0 (length evalCases)) evalCases) /\
  b_wg b = Z.of_nat (length (b_running b)) /\
  exists running : list nat,
    b_running b =
      map (fun idx => taskParam ctx req opts idx (caseAt evalCases idx)) running /\
    NoDup running /\
    (forall idx, idx ∈ running ->
       idx < length decisions /\ decisions !! idx = Some None) /\
    (forall idx, idx < length decisions -> idx ∉ running ->
       b_results b !! idx =
         Some (slotOf s ctx req opts now (decisionAt decisions idx)
                 (caseAt evalCases idx))) /\
    exists t,
      w_trace w = trace0 ++ t /\
      forall idx,
        count (isWgDone idx) t =
          if decide (idx < length decisions /\ idx ∉ running) then 1 else 0.

(** What a step leaves of the world: the clock, the service and package ants
    are untouched. *)
Definition sameEnvironment (w w' : World) : Prop :=
  w_now w' = w_now w /\ w_svc w' = w_svc w /\ w_ants w' = w_ants w.

(** No submission of a nil case is rejected: the loop would dereference it. *)
Definition rejectedNonNil (evalCases : list (option EvalCase))
    (decisions : list (option error)) : Prop :=
  forall idx err,
    decisions !! idx = Some (Some err) -> idx < length evalCases ->
    is_Some (caseAt evalCases idx).

(** Once the options are resolved, the manager and the supplier are there,
    and so is the pool when parallel inference is enabled. *)
Definition resolved (callOpts : Options) (w : World) : Prop :=
  is_Some (opt_EvalSetManager callOpts) /\
  is_Some (opt_SessionIDSupplier callOpts) /\
  (opt_EvalCaseParallelInferenceEnabled callOpts = true ->
   exists pool, forall size,
     ensureEvalCaseInferencePool size w = Ok (Some pool, None, w)).

(** The memoized pool of a service is consistent when, once [sync.Once] has
    fired, either the pool or the error of its construction is set. *)
Definition poolMemoConsistent (s : local) : Prop :=
  evalCaseInferencePoolOnce s = true ->
  is_Some (evalCaseInferencePool s) \/ is_Some (evalCaseInferencePoolErr s).

(** *** Notions about the per-case pipeline *)

(** Every observation is a call of the runner with these run options. *)
Definition runnerCalls (ctx : Context) (userID sessionID : string)
    (runOpts : list RunOption) (t : list Obs) : Prop :=
  Forall (fun o => exists m, o = ObsRunnerRun ctx userID sessionID m runOpts) t.

(** A call of the runner whose injected context messages are the global ones
    followed by the context messages of the case. *)
Definition injectsInOrder (opts : Options) (evalCase : EvalCase) (o : Obs) : Prop :=
  exists ctx userID sessionID message runOpts seed,
    o = ObsRunnerRun ctx userID sessionID message runOpts /\
    ec_ContextMessages evalCase = map Some seed /\
    ro_InjectedContextMessages (applyRunOptions runOpts) =
      ro_InjectedContextMessages (applyRunOptions (opt_RunOptions opts)) ++ seed.

(** What the body leaves to the deferred call: a failed result with the
    error it carries, or a passed result with no error. *)
Definition bodyPost (req : InferenceRequest) (sessionID : string)
    (evalCase : EvalCase) (result : InferenceResult) (err : option error) : Prop :=
  let fresh := newInferenceResult (req_AppName req) (req_EvalSetID req)
                                  sessionID evalCase in
  match err with
  | Some e =>
      result = newFailedInferenceResult fresh e /\
      exists rest, e = caseError (ec_EvalID evalCase) sessionID rest
  | None => exists inferences, result = passedWith fresh inferences
  end.

Definition beforeCaseArgs (req : InferenceRequest) (evalCase : EvalCase)
    (sessionID : string) : BeforeInferenceCaseArgs :=
  {| bica_Request := req; bica_EvalCaseID := ec_EvalID evalCase;
     bica_SessionID := sessionID |}.

(** The context the before-case callbacks leave for the rest of the case. *)
Definition caseContext (ctx : Context) (result : option BeforeInferenceCaseResult)
    : Context :=
  match result with
  | Some r => match bicr_Context r with Some c => c | None => ctx end
  | None => ctx
  end.

Definition afterCaseArgs (req : InferenceRequest) (result : InferenceResult)
    (err : option error) (startTime : Time) : AfterInferenceCaseArgs :=
  {| aica_Request := req; aica_Result := result; aica_Error := err;
     aica_StartTime := startTime |}.

Definition afterCaseError (req : InferenceRequest) (evalCase : EvalCase)
    (afterErr : error) : error :=
  wrap ("run after inference case callbacks (app=" +:+ req_AppName req +:+
        ", evalSetID=" +:+ req_EvalSetID req +:+ ", evalCaseID=" +:+
        ec_EvalID evalCase +:+ ")") afterErr.

Definition beforeCaseError (req : InferenceRequest) (evalCase : EvalCase)
    (sessionID : string) (e : error) : error :=
  wrap ("run before inference case callbacks (app=" +:+ req_AppName req +:+
        ", evalSetID=" +:+ req_EvalSetID req +:+ ", evalCaseID=" +:+
        ec_EvalID evalCase +:+ ", sessionID=" +:+ sessionID +:+ ")") e.

(** The result and error of the body for a failure with message [rest]. *)
Definition failedBody (req : InferenceRequest) (sessionID : string)
    (evalCase : EvalCase) (rest : string) : InferenceResult * option error :=
  let err := caseError (ec_EvalID evalCase) sessionID rest in
  (newFailedInferenceResult
     (newInferenceResult (req_AppName req) (req_EvalSetID req) sessionID evalCase)
     err, Some err).

(** ** Fixtures, after inference_test.go *)

Definition noCallbacks : Callbacks :=
  {| cb_RunBeforeInferenceSet := fun _ args => (None, None, bisa_Request args);
     cb_RunAfterInferenceSet := fun _ _ => None;
     cb_RunBeforeInferenceCase := fun _ _ => (None, None);
     cb_RunAfterInferenceCase := fun _ _ => None |}.

Definition failingBeforeCase : Callbacks :=
  {| cb_RunBeforeInferenceSet := fun _ args => (None, None, bisa_Request args);
     cb_RunAfterInferenceSet := fun _ _ => None;
     cb_RunBeforeInferenceCase :=
       fun _ _ => (None, Some "before inference case failed");
     cb_RunAfterInferenceCase := fun _ _ => None |}.

Definition failingAfterCase : Callbacks :=
  {| cb_RunBeforeInferenceSet := fun _ args => (None, None, bisa_Request args);
     cb_RunAfterInferenceSet := fun _ _ => None;
     cb_RunBeforeInferenceCase := fun _ _ => (None, None);
     cb_RunAfterInferenceCase := fun _ _ => Some "after inference case failed" |}.

Definition filterToCase2 : Callbacks :=
  {| cb_RunBeforeInferenceSet :=
       fun _ args =>
         (None, None,
          {| req_AppName := req_AppName (bisa_Request args);
             req_EvalSetID := req_EvalSetID (bisa_Request args);
             req_EvalCaseIDs := ["case-2"] |});
     cb_RunAfterInferenceSet := fun _ _ => None;
     cb_RunBeforeInferenceCase := fun _ _ => (None, None);
     cb_RunAfterInferenceCase := fun _ _ => None |}.

Definition fakeRunner : Runner :=
  {| runner_Run := fun _ _ _ _ _ =>
       inl [EventFinalResponse {| msg_Role := "assistant"; msg_Content := "ok" |}] |}.

Definition userMessage (content : string) : Message :=
  {| msg_Role := "user"; msg_Content := content |}.

Definition makeInvocation (prompt : string) : Invocation :=
  {| inv_InvocationID := "invocation-1";
     inv_ContextMessages := [];
     inv_UserContent := Some (userMessage prompt);
     inv_FinalResponse := None;
     inv_Tools := [] |}.

Definition makeEvalCase (evalCaseID prompt : string) : EvalCase :=
  {| ec_EvalID := evalCaseID;
     ec_EvalMode := EvalModeDefault;
     ec_ContextMessages := [];
     ec_Conversation := [Some (makeInvocation prompt)];
     ec_ActualConversation := [];
     ec_SessionInput := Some {| si_UserID := "user"; si_State := ∅ |} |}.

(** The case with its evaluation mode, recorded conversation, session input
    or context messages replaced. *)
Definition withCase (mode : EvalMode) (actual : list (option Invocation))
    (sessionInput : option SessionInput) (contextMessages : list (option Message))
    (evalCase : EvalCase) : EvalCase :=
  {| ec_EvalID := ec_EvalID evalCase;
     ec_EvalMode := mode;
     ec_ContextMessages := contextMessages;
     ec_Conversation := ec_Conversation evalCase;
     ec_ActualConversation := actual;
     ec_SessionInput := sessionInput |}.

Definition testSession : option SessionInput :=
  Some {| si_UserID := "user"; si_State := ∅ |}.

Definition traceCase (evalCaseID prompt : string) : EvalCase :=
  withCase EvalModeTrace [] testSession [] (makeEvalCase evalCaseID prompt).

Definition testRequest : InferenceRequest :=
  {| req_AppName := "app"; req_EvalSetID := "set"; req_EvalCaseIDs := [] |}.

Definition testManager (evalCases : list (option EvalCase)) : Manager :=
  {| mgr_Get := fun _ _ _ => inl {| es_EvalCases := evalCases |} |}.

Definition failingManager : Manager :=
  {| mgr_Get := fun _ _ _ => inr "eval set not found" |}.

Definition testService (mgr : Manager) (cbs : Callbacks) (parallel : bool) : local :=
  {| runner := fakeRunner;
     evalSetManager := Some mgr;
     sessionIDSupplier := Some (fun _ => "session");
     callbacks := cbs;
     runOptions := [];
     evalCaseParallelism := 2;
     evalCaseParallelInferenceEnabled := parallel;
     evalCaseParallelEvaluationEnabled := false;
     evalCaseInferencePoolOnce := false;
     evalCaseInferencePool := None;
     evalCaseInferencePoolErr := None |}.

Definition testAnts : Ants :=
  {| ants_NewPoolWithFunc := fun size => inl {| pool_size := size |} |}.

Definition testOptions (cbs : Callbacks) (runOpts : list RunOption) : Options :=
  {| opt_EvalSetManager := None;
     opt_SessionIDSupplier := Some (fun _ => "session");
     opt_Callbacks := cbs;
     opt_RunOptions := runOpts;
     opt_EvalCaseParallelism := 2;
     opt_EvalCaseParallelInferenceEnabled := false;
     opt_EvalCaseParallelEvaluationEnabled := false |}.

Definition testWorld (s : local) : World :=
  {| w_now := 123; w_trace := []; w_svc := s; w_paramPool := []; w_ants := testAnts |}.

Definition globalInjected : Message :=
  {| msg_Role := "system"; msg_Content := "global injected" |}.

Definition caseContextMessages : list Message :=
  [ {| msg_Role := "system"; msg_Content := "case system" |};
    {| msg_Role := "user"; msg_Content := "case user" |} ].

(** ** Further notions: what a trace holds *)

(** The submissions to the pool a trace records, in order: the index of the
    case and what [pool.Invoke] answered. *)
Definition submissionOf (o : Obs) : option (nat * option error) :=
  match o with ObsInvoke idx rejection => Some (idx, rejection) | _ => None end.

Definition submissions (t : list Obs) : list (nat * option error) :=
  omap submissionOf t.

Definition isWgAdd (o : Obs) : bool :=
  match o with ObsWgAdd => true | _ => false end.

Definition isGet (o : Obs) : bool :=
  match o with ObsGet _ _ _ => true | _ => false end.

Definition isAfterInferenceSet (o : Obs) : bool :=
  match o with ObsAfterInferenceSet _ _ => true | _ => false end.

(** The observations the per-case pipeline makes: its two callback phases and
    the calls of the runner. *)
Definition isPipelineObs (o : Obs) : bool :=
  match o with
  | ObsBeforeInferenceCase _ _ | ObsAfterInferenceCase _ _
  | ObsRunnerRun _ _ _ _ _ => true
  | _ => false
  end.

(** The observations made on behalf of the whole set: the call of the
    manager and the two set callback phases. *)
Definition isSetObs (o : Obs) : bool :=
  match o with
  | ObsGet _ _ _ | ObsBeforeInferenceSet _ _ | ObsAfterInferenceSet _ _ => true
  | _ => false
  end.

(** The context the before-set callbacks leave for the rest of the call. *)
Definition setCallbackContext (ctx : Context)
    (result : option BeforeInferenceSetResult) : Context :=
  match result with
  | Some r => match bisr_Context r with Some c => c | None => ctx end
  | None => ctx
  end.

Definition afterSetArgs (req : InferenceRequest)
    (results : option (list (option InferenceResult))) (err : option error)
    (startTime : Time) : AfterInferenceSetArgs :=
  {| aisa_Request := req; aisa_Results := results; aisa_Error := err;
     aisa_StartTime := startTime |}.

(** The configuration of a service, apart from the memoized pool. *)
Definition sameConfiguration (s s' : local) : Prop :=
  runner s' = runner s /\
  evalSetManager s' = evalSetManager s /\
  sessionIDSupplier s' = sessionIDSupplier s /\
  callbacks s' = callbacks s /\
  runOptions s' = runOptions s /\
  evalCaseParallelism s' = evalCaseParallelism s /\
  evalCaseParallelInferenceEnabled s' = evalCaseParallelInferenceEnabled s /\
  evalCaseParallelEvaluationEnabled s' = evalCaseParallelEvaluationEnabled s.

(** What a case result says of where it comes from. *)
Definition identifies (req : InferenceRequest) (sessionID evalCaseID : string)
    (r : InferenceResult) : Prop :=
  res_AppName r = req_AppName req /\
  res_EvalSetID r = req_EvalSetID req /\
  res_SessionID r = sessionID /\
  res_EvalCaseID r = evalCaseID.

(** What the trace of a batch holds once the submissions made so far were
    answered by [decisions]: one submission per case, in the order of the
    cases, each after one [wg.Add(1)], and nothing on behalf of the set. *)
Definition executorLog (decisions : list (option error)) (t : list Obs) : Prop :=
  submissions t = zip (seq 0 (length decisions)) decisions /\
  count isWgAdd t = length decisions /\
  Forall (fun o => isSetObs o = false) t.

(** Every parameter the package-level pool holds has been reset. *)
Definition paramPoolClean (w : World) : Prop :=
  Forall (fun p => p = zeroParam) (w_paramPool w).

Definition logInv (trace0 : list Obs) (decisions : list (option error))
    (w : World) : Prop :=
  exists t, w_trace w = trace0 ++ t /\ executorLog decisions t.

(** The world with package ants answering differently. *)
Definition setAnts (ants : Ants) (w : World) : World :=
  {| w_now := w_now w; w_trace := w_trace w; w_svc := w_svc w;
     w_paramPool := w_paramPool w; w_ants := ants |}.

(** An ants package that cannot create a pool. *)
Definition failingAnts : Ants :=
  {| ants_NewPoolWithFunc := fun _ => inr "ants: invalid size" |}.

Definition failingAfterSet : Callbacks :=
  {| cb_RunBeforeInferenceSet := fun _ args => (None, None, bisa_Request args);
     cb_RunAfterInferenceSet := fun _ _ => Some "after inference set failed";
     cb_RunBeforeInferenceCase := fun _ _ => (None, None);
     cb_RunAfterInferenceCase := fun _ _ => None |}.

Definition failingBeforeSet : Callbacks :=
  {| cb_RunBeforeInferenceSet :=
       fun _ args => (None, Some "before inference set failed", bisa_Request args);
     cb_RunAfterInferenceSet := fun _ _ => None;
     cb_RunBeforeInferenceCase := fun _ _ => (None, None);
     cb_RunAfterInferenceCase := fun _ _ => None |}.

(** Before-set callbacks that put a session ID into the context, and a
    supplier that reads it from there. *)
Definition contextSettingBeforeSet : Callbacks :=
  {| cb_RunBeforeInferenceSet :=
       fun ctx args =>
         (Some {| bisr_Context := Some (<["session" := "from-context"]> ctx) |},
          None, bisa_Request args);
     cb_RunAfterInferenceSet := fun _ _ => None;
     cb_RunBeforeInferenceCase := fun _ _ => (None, None);
     cb_RunAfterInferenceCase := fun _ _ => None |}.

Definition contextSessionID (ctx : Context) : string :=
  default "default-session" (ctx !! "session").

(** The cases of an eval set a request selects: the non-nil cases, all of
    them when the request lists no case ID, those it lists otherwise. *)
Definition selectedCases (req : InferenceRequest) (evalSet : EvalSet)
    : list EvalCase :=
  filter (fun evalCase =>
            req_EvalCaseIDs req = [] \/ ec_EvalID evalCase ∈ req_EvalCaseIDs req)
         (omap id (es_EvalCases evalSet)).

(** A case result whose status agrees with what it holds: passed with
    inferences and no error message, or failed with an error message and no
    inferences. *)
Definition consistentResult (r : InferenceResult) : Prop :=
  (res_Status r = EvalStatusPassed /\ is_Some (res_Inferences r) /\
   res_ErrorMessage r = "") \/
  (res_Status r = EvalStatusFailed /\ res_Inferences r = None /\
   res_ErrorMessage r <> "").

Definition isBeforeInferenceCase (o : Obs) : bool :=
  match o with ObsBeforeInferenceCase _ _ => true | _ => false end.

(** ** Further notions: where a failure of [Inference] ends up *)

(** A case result that records a failure whose message holds [msg]: failed
    status, nil inferences, and [msg] in the error message. *)
Definition failedWith (msg : string) (r : InferenceResult) : Prop :=
  res_Status r = EvalStatusFailed /\
  res_Inferences r = None /\
  contains msg (res_ErrorMessage r).

(** What can be wrong with a case before any collaborator is called. *)
Inductive CaseFault :=
  | MissingSessionInput
  | RecordedOutsideTrace
  | LengthMismatch
  | BadRecordedTurn
  | EmptyConversation
  | NilContextMessage.

(** The words by which the message of a failed case names the fault. *)
Definition faultText (f : CaseFault) : string :=
  match f with
  | MissingSessionInput => "session input is nil"
  | RecordedOutsideTrace => "actualConversation is only supported in trace mode"
  | LengthMismatch => "does not match conversation length"
  | BadRecordedTurn => "is nil at index"
  | EmptyConversation => "invocations are empty"
  | NilContextMessage => "context message is nil at index"
  end.

Definition isNilMessage (m : option Message) : bool :=
  match m with None => true | Some _ => false end.

(** The fault of a case, read off the case alone: no session input; a
    recorded conversation outside trace mode; in trace mode a recorded
    conversation whose length differs from that of a non-empty expected
    conversation, or one of whose turns is nil or has no user content; no
    conversation to run or to replay; in default mode a nil context message.
    When several apply, the first in this order is the one reported. *)
Definition caseFault (evalCase : EvalCase) : option CaseFault :=
  match ec_SessionInput evalCase with
  | None => Some MissingSessionInput
  | Some _ =>
      match ec_ActualConversation evalCase, ec_EvalMode evalCase with
      | _ :: _, EvalModeDefault => Some RecordedOutsideTrace
      | (_ :: _) as actual, EvalModeTrace =>
          match ec_Conversation evalCase with
          | (_ :: _) as conversation =>
              if decide (length actual = length conversation)
              then if existsb badTurn actual then Some BadRecordedTurn else None
              else Some LengthMismatch
          | [] => if existsb badTurn actual then Some BadRecordedTurn else None
          end
      | [], mode =>
          match ec_Conversation evalCase, mode with
          | [], _ => Some EmptyConversation
          | _ :: _, EvalModeTrace => None
          | _ :: _, EvalModeDefault =>
              if existsb isNilMessage (ec_ContextMessages evalCase)
              then Some NilContextMessage else None
          end
      end
  end.

(** What the slot of a case holds at the end of a batch, failure by failure.
    [rejection] is what the pool answered to the submission of the case, if
    it was submitted to a pool and rejected.  The result carries the ID of
    its case and is consistent; and
    - a rejected submission leaves a failed result whose message is the
      rejection error behind the words of the executor;
    - an error of the before-case callbacks leaves a failed result that names
      the phase and holds the error;
    - otherwise a fault of the case leaves a failed result that names the
      fault; an error of the runtime, for a default-mode case without fault,
      leaves a failed result that holds the error; and an error of the
      after-case callbacks, which are given the request and the start time,
      leaves a failed result that holds it, whatever the outcome they were
      shown, which is the result of the case when they return no error. *)
Definition caseOutcome (run : Runner) (ctx : Context) (req : InferenceRequest)
    (opts : Options) (sessionID : string) (now : Time)
    (rejection : option error) (evalCase : EvalCase) (r : InferenceResult) : Prop :=
  let before :=
    cb_RunBeforeInferenceCase (opt_Callbacks opts) ctx
      {| bica_Request := req; bica_EvalCaseID := ec_EvalID evalCase;
         bica_SessionID := sessionID |} in
  let cctx := caseContext ctx before.1 in
  res_EvalCaseID r = ec_EvalID evalCase /\
  consistentResult r /\
  match rejection, before.2 with
  | Some e, _ =>
      res_Status r = EvalStatusFailed /\
      res_Inferences r = None /\
      res_ErrorMessage r =
        "submit inference task for eval case " +:+ ec_EvalID evalCase +:+ ": " +:+ e
  | None, Some e =>
      failedWith "run before inference case callbacks" r /\ failedWith e r
  | None, None =>
      (forall f, caseFault evalCase = Some f -> failedWith (faultText f) r) /\
      (forall seed e t,
         caseFault evalCase = None ->
         ec_EvalMode evalCase = EvalModeDefault ->
         ec_ContextMessages evalCase = map Some seed ->
         inference_Inference cctx run (ec_Conversation evalCase)
           (ec_SessionInput evalCase) sessionID
           (opt_RunOptions opts ++
            match seed with
            | [] => []
            | _ :: _ => [WithInjectedContextMessages seed]
            end) now = Ok (inr e, t) ->
         failedWith e r) /\
      exists a,
        aica_Request a = req /\ aica_StartTime a = now /\
        consistentResult (aica_Result a) /\
        (aica_Error a = None <-> res_Status (aica_Result a) = EvalStatusPassed) /\
        match cb_RunAfterInferenceCase (opt_Callbacks opts) cctx a with
        | Some e =>
            failedWith "run after inference case callbacks" r /\ failedWith e r
        | None => r = aica_Result a
        end
  end.

(** What the part of [Inference] between the two set callback phases leaves:
    an error of the eval-set manager is the error of the batch and there are
    no results; otherwise there is no error and one result per selected
    case, in order, each with the outcome of its case.  A case is submitted
    to the pool only when parallel inference is enabled. *)
Definition batchOutcome (run : Runner) (now : Time) (sched : list Action)
    (ctx : Context) (req : InferenceRequest) (callOpts : Options)
    (results : option (list (option InferenceResult))) (err : option error)
    : Prop :=
  match opt_EvalSetManager callOpts, opt_SessionIDSupplier callOpts with
  | Some mgr, Some supplier =>
      match mgr_Get mgr ctx (req_AppName req) (req_EvalSetID req) with
      | inr e =>
          results = None /\
          err = Some ("load inference eval cases: get eval set: " +:+ e)
      | inl evalSet =>
          err = None /\
          exists rs,
            results = Some rs /\
            length rs = length (selectedCases req evalSet) /\
            forall idx evalCase,
              selectedCases req evalSet !! idx = Some evalCase ->
              exists r,
                rs !! idx = Some (Some r) /\
                caseOutcome run ctx req callOpts (supplier ctx) now
                  (if opt_EvalCaseParallelInferenceEnabled callOpts
                   then rejectionOf sched idx else None)
                  evalCase r
      end
  | _, _ => False
  end.

(** What [Inference] returns, origin by origin: the error of the validation
    of the request; the error of the resolution of the options; the error of
    the before-set callbacks; then what the batch leaves, unless the
    after-set callbacks, which are shown it, return an error, which replaces
    it.  The first four leave no results and call nothing further. *)
Definition inferenceOutcome (sched : list Action) (ctx : Context)
    (req : option InferenceRequest) (opt : list Option) (w : World)
    (results : option (list (option InferenceResult))) (err : option error)
    : Prop :=
  match req with
  | None =>
      results = None /\
      err = Some "validate inference request: inference request is nil"
  | Some req =>
      if decide (req_AppName req = "") then
        results = None /\ err = Some "validate inference request: app name is empty"
      else if decide (req_EvalSetID req = "") then
        results = None /\
        err = Some "validate inference request: eval set id is empty"
      else
        match resolveInferenceOptions opt w with
        | Panic _ => False
        | Ok (inr e, _) => results = None /\ err = Some e
        | Ok (inl callOpts, _) =>
            match cb_RunBeforeInferenceSet (opt_Callbacks callOpts) ctx
                    {| bisa_Request := req |} with
            | (_, Some e, req') =>
                results = None /\
                err = Some ("run before inference set callbacks (app=" +:+
                            req_AppName req' +:+ ", evalSetID=" +:+
                            req_EvalSetID req' +:+
                            "): run before inference set callbacks (app=" +:+
                            req_AppName req' +:+ ", evalSetID=" +:+
                            req_EvalSetID req' +:+ "): " +:+ e)
            | (res, None, req') =>
                let ctx' := setCallbackContext ctx res in
                exists batchResults batchErr,
                  batchOutcome (runner (w_svc w)) (w_now w) sched ctx' req'
                    callOpts batchResults batchErr /\
                  match cb_RunAfterInferenceSet (opt_Callbacks callOpts) ctx'
                          (afterSetArgs req' batchResults batchErr (w_now w)) with
                  | Some e =>
                      results = None /\
                      err = Some ("run after inference set callbacks (app=" +:+
                                  req_AppName req' +:+ ", evalSetID=" +:+
                                  req_EvalSetID req' +:+ "): " +:+ e)
                  | None => results = batchResults /\ err = batchErr
                  end
            end
        end
  end.

(** * Proofs *)

(** ** The effect monad *)

Ltac eff_unfold :=
  unfold mbind, mret, Eff_bind, Eff_ret, eff_bind, eff_ret, observe, time_Now,
    panic in *.

Lemma eff_bind_ok {A B} (m : Eff A) (k : A -> Eff B) now a t1 b t2 :
  m now = Ok (a, t1) -> k a now = Ok (b, t2) ->
  (m ≫= k) now = Ok (b, t1 ++ t2).
Proof. intros Hm Hk. eff_unfold. by rewrite Hm, Hk. Qed.

Lemma eff_bind_inv {A B} (m : Eff A) (k : A -> Eff B) now b t :
  (m ≫= k) now = Ok (b, t) ->
  exists a t1 t2, m now = Ok (a, t1) /\ k a now = Ok (b, t2) /\ t = t1 ++ t2.
Proof.
  eff_unfold. destruct (m now) as [[a t1]|]; [|done].
  destruct (k a now) as [[b' t2]|] eqn:Hk; [|done].
  intros [= <- <-]. eauto 10.
Qed.

(** ** Strings *)

Lemma append_cons (x : Ascii.ascii) (a b : string) :
  String x a +:+ b = String x (a +:+ b).
Proof. reflexivity. Qed.

Lemma append_nil_l (a : string) : "" +:+ a = a.
Proof. reflexivity. Qed.

Lemma append_nil_r (a : string) : a +:+ "" = a.
Proof. induction a as [|x a IH]; [done|]. by rewrite append_cons, IH. Qed.

Lemma append_assoc (a b c : string) : (a +:+ b) +:+ c = a +:+ (b +:+ c).
Proof. induction a as [|x a IH]; [done|]. by rewrite !append_cons, IH. Qed.

Lemma contains_suffix (pre sub : string) : contains sub (pre +:+ sub).
Proof. exists pre, "". by rewrite append_nil_r. Qed.

Lemma contains_refl (s : string) : contains s s.
Proof. exists "", "". by rewrite append_nil_r. Qed.

Lemma contains_append_l (sub s post : string) :
  contains sub s -> contains sub (s +:+ post).
Proof.
  intros (pre & post' & ->). exists pre, (post' +:+ post).
  by rewrite !append_assoc.
Qed.

Lemma contains_append_r (sub pre s : string) :
  contains sub s -> contains sub (pre +:+ s).
Proof.
  intros (pre' & post & ->). exists (pre +:+ pre'), post.
  by rewrite !append_assoc.
Qed.

Lemma prefix_append (sub post : string) : String.prefix sub (sub +:+ post) = true.
Proof.
  induction sub as [|x sub IH]; [by destruct post|].
  rewrite append_cons. simpl. destruct (Ascii.ascii_dec x x); [done|congruence].
Qed.

Lemma containsb_prefix (sub s : string) :
  String.prefix sub s = true -> containsb sub s = true.
Proof. intros H. destruct s; cbn [containsb]; by rewrite H. Qed.

Lemma contains_containsb (sub s : string) : contains sub s -> containsb sub s = true.
Proof.
  intros (pre & post & ->). induction pre as [|x pre IH].
  - rewrite append_nil_l. apply containsb_prefix, prefix_append.
  - rewrite append_cons. cbn [containsb]. rewrite IH. apply orb_true_r.
Qed.

(** ** The runner calls of a live case *)

Lemma inferenceInvocation_spec ctx r sessionID session invocation runOptions now :
  exists res t,
    inferenceInvocation ctx r sessionID session invocation runOptions now = Ok (res, t)
    /\ runnerCalls ctx (si_UserID session) sessionID
         (runOptions ++ [WithRuntimeState (si_State session)]) t.
Proof.
  unfold inferenceInvocation, runnerCalls.
  destruct (inv_UserContent invocation) as [content|]; eff_unfold;
    [|eexists _, _; split; [reflexivity|constructor]].
  destruct (runner_Run _ _ _ _ _ _) as [events|err];
    [destruct (consumeEvents _ _ _ _) as [[tools [final|]]|err]|];
    (eexists _, _; split; [reflexivity|]; repeat constructor; eauto).
Qed.

Lemma inferenceTurns_spec ctx r sessionID session invocations runOptions now :
  exists res t,
    inferenceTurns ctx r sessionID session invocations runOptions now = Ok (res, t)
    /\ runnerCalls ctx (si_UserID session) sessionID
         (runOptions ++ [WithRuntimeState (si_State session)]) t.
Proof.
  induction invocations as [|[invocation|] rest IH]; simpl.
  - eff_unfold. eexists _, _. split; [done|]. constructor.
  - destruct (inferenceInvocation_spec ctx r sessionID session invocation runOptions now)
      as (res & t & Hrun & Ht).
    destruct IH as (res' & t' & Hrun' & Ht').
    destruct res as [inference|err].
    + destruct res' as [inferences|err].
      * eexists _, _. split.
        { eapply eff_bind_ok; [exact Hrun|]. simpl.
          eapply eff_bind_ok; [exact Hrun'|]. reflexivity. }
        rewrite app_nil_r. by apply Forall_app.
      * eexists _, _. split.
        { eapply eff_bind_ok; [exact Hrun|]. simpl.
          eapply eff_bind_ok; [exact Hrun'|]. reflexivity. }
        rewrite app_nil_r. by apply Forall_app.
    + eexists _, _. split.
      { eapply eff_bind_ok; [exact Hrun|]. reflexivity. }
      by rewrite app_nil_r.
  - eff_unfold. eexists _, _. split; [done|]. constructor.
Qed.

Lemma inference_Inference_spec ctx r invocations session sessionID runOptions now :
  exists res t,
    inference_Inference ctx r invocations (Some session) sessionID runOptions now
      = Ok (res, t)
    /\ runnerCalls ctx (si_UserID session) sessionID
         (runOptions ++ [WithRuntimeState (si_State session)]) t.
Proof.
  unfold inference_Inference. destruct invocations as [|turn rest].
  - eexists _, _. split; [reflexivity|]. constructor.
  - apply inferenceTurns_spec.
Qed.

(** ** Seed messages and run options *)

Lemma seedLoop_inl idx messages acc seed :
  seedLoop idx messages acc = inl seed ->
  exists seed', seed = acc ++ seed' /\ messages = map Some seed'.
Proof.
  revert idx acc. induction messages as [|[message|] rest IH]; intros idx acc; simpl.
  - intros [= <-]. exists []. by rewrite app_nil_r.
  - intros H. destruct (IH _ _ H) as (seed' & -> & ->).
    exists (message :: seed'). by rewrite <- app_assoc.
  - done.
Qed.

Lemma seedMessagesFromPointers_inl messages seed :
  seedMessagesFromPointers messages = inl seed -> messages = map Some seed.
Proof.
  destruct messages as [|m rest]; [by intros [= <-]|].
  unfold seedMessagesFromPointers. intros H.
  by destruct (seedLoop_inl _ _ _ _ H) as (seed' & -> & ->).
Qed.

Lemma applyRunOptions_snoc runOpts f :
  applyRunOptions (runOpts ++ [f]) = f (applyRunOptions runOpts).
Proof. unfold applyRunOptions. by rewrite fold_left_app. Qed.

Lemma runnerCalls_injectsInOrder opts evalCase ctx userID sessionID state seed t :
  seedMessagesFromPointers (ec_ContextMessages evalCase) = inl seed ->
  runnerCalls ctx userID sessionID
    ((opt_RunOptions opts ++
      (if (0 <? length seed)%nat then [WithInjectedContextMessages seed] else []))
     ++ [WithRuntimeState state]) t ->
  Forall (injectsInOrder opts evalCase) t.
Proof.
  intros Hseed Ht. eapply Forall_impl; [exact Ht|]. intros o [m ->].
  eexists ctx, userID, sessionID, m, _, seed. split; [reflexivity|].
  split; [by apply seedMessagesFromPointers_inl|].
  rewrite applyRunOptions_snoc. simpl.
  destruct seed as [|x seed]; simpl.
  - by rewrite !app_nil_r.
  - by rewrite applyRunOptions_snoc.
Qed.

(** ** The body of the pipeline *)

Ltac body_fail :=
  eexists _, _, _; split; [reflexivity|];
  split; [split; [reflexivity|eexists; reflexivity]|];
  split; [constructor|]; done.

Ltac body_pass :=
  eexists _, _, _; split; [reflexivity|];
  split; [eexists; reflexivity|]; split; [constructor|done].

Lemma inferenceEvalCaseBody_spec s ctx req evalCase opts sessionID now :
  exists result err t,
    inferenceEvalCaseBody s ctx req evalCase opts sessionID now = Ok (result, err, t)
    /\ bodyPost req sessionID evalCase result err
    /\ Forall (injectsInOrder opts evalCase) t
    /\ (ec_EvalMode evalCase = EvalModeTrace \/ ec_ActualConversation evalCase <> []
        -> t = []).
Proof.
  unfold inferenceEvalCaseBody, bodyPost.
  destruct (ec_SessionInput evalCase) as [session|] eqn:Hsession; [|body_fail].
  destruct (checkActualConversation 0 (ec_ActualConversation evalCase))
    as [bad|] eqn:Hcheck;
  destruct (ec_ActualConversation evalCase) as [|a actual] eqn:Hactual;
    try discriminate Hcheck;
    destruct (ec_EvalMode evalCase) eqn:Hmode;
    destruct (ec_Conversation evalCase) as [|c conv] eqn:Hconv; simpl;
    try destruct (Nat.eqb _ _); simpl;
    try body_fail; try body_pass.
  (* what is left is the live case *)
  destruct (seedMessagesFromPointers _) as [seed|err] eqn:Hseed; [|body_fail].
  destruct (inference_Inference_spec ctx (runner s) (c :: conv) session sessionID
              (opt_RunOptions opts ++
               (if (0 <? length seed)%nat
                then [WithInjectedContextMessages seed] else [])) now)
    as (res & t & Hrun & Ht).
  apply (runnerCalls_injectsInOrder opts evalCase) in Ht; [|done].
  destruct res as [inferences|err].
  - eexists _, _, _. split.
    { eapply eff_bind_ok; [exact Hrun|]. reflexivity. }
    rewrite app_nil_r. split; [eexists; reflexivity|].
    split; [done|]. intros [?|?]; done.
  - eexists _, _, _. split.
    { eapply eff_bind_ok; [exact Hrun|]. reflexivity. }
    rewrite app_nil_r. split; [split; [reflexivity|eexists; reflexivity]|].
    split; [done|]. intros [?|?]; done.
Qed.

(** ** The pipeline around its body *)

Lemma inferenceEvalCase_nil s ctx req opts now supplier :
  opt_SessionIDSupplier opts = Some supplier ->
  inferenceEvalCase s ctx req None opts now =
    Ok (newFailedInferenceResult (bareInferenceResult req (supplier ctx) "")
                                 "eval case is nil", []).
Proof.
  intros Hsup. unfold inferenceEvalCase, callSessionIDSupplier.
  rewrite Hsup. reflexivity.
Qed.

Lemma inferenceEvalCase_before_error s ctx req evalCase opts now supplier res e :
  opt_SessionIDSupplier opts = Some supplier ->
  cb_RunBeforeInferenceCase (opt_Callbacks opts) ctx
    (beforeCaseArgs req evalCase (supplier ctx)) = (res, Some e) ->
  inferenceEvalCase s ctx req (Some evalCase) opts now =
    Ok (newFailedInferenceResult
          (bareInferenceResult req (supplier ctx) (ec_EvalID evalCase))
          (beforeCaseError req evalCase (supplier ctx) e),
        [ObsBeforeInferenceCase ctx (beforeCaseArgs req evalCase (supplier ctx))]).
Proof.
  intros Hsup Hbefore.
  unfold inferenceEvalCase, callSessionIDSupplier, runBeforeInferenceCaseCallbacks.
  unfold beforeCaseArgs in Hbefore. rewrite Hsup. eff_unfold. simpl.
  rewrite Hbefore. reflexivity.
Qed.

Lemma inferenceEvalCase_run s ctx req evalCase opts now supplier res result err t :
  opt_SessionIDSupplier opts = Some supplier ->
  cb_RunBeforeInferenceCase (opt_Callbacks opts) ctx
    (beforeCaseArgs req evalCase (supplier ctx)) = (res, None) ->
  inferenceEvalCaseBody s (caseContext ctx res) req evalCase opts (supplier ctx) now
    = Ok (result, err, t) ->
  inferenceEvalCase s ctx req (Some evalCase) opts now =
    Ok (match cb_RunAfterInferenceCase (opt_Callbacks opts) (caseContext ctx res)
                (afterCaseArgs req result err now) with
        | Some afterErr =>
            newFailedInferenceResult result
              (errors_Join err (afterCaseError req evalCase afterErr))
        | None => result
        end,
        ObsBeforeInferenceCase ctx (beforeCaseArgs req evalCase (supplier ctx))
        :: t ++
        [ObsAfterInferenceCase (caseContext ctx res)
           (afterCaseArgs req result err now)]).
Proof.
  intros Hsup Hbefore Hbody.
  unfold inferenceEvalCase, callSessionIDSupplier, runBeforeInferenceCaseCallbacks,
    runAfterInferenceCaseCallbacks.
  unfold beforeCaseArgs in Hbefore. unfold caseContext in Hbody.
  rewrite Hsup. eff_unfold. simpl. rewrite Hbefore. simpl. rewrite Hbody.
  unfold afterCaseArgs, caseContext.
  destruct (cb_RunAfterInferenceCase _ _ _); reflexivity.
Qed.

(** ** Counting observations *)

Lemma filter_none (p : Obs -> bool) (P : Obs -> Prop) t :
  Forall P t -> (forall o, P o -> p o = false) -> List.filter p t = [].
Proof.
  intros Ht Hp. induction Ht as [|o t Ho _ IH]; [done|].
  simpl. by rewrite (Hp o Ho).
Qed.

Lemma injectsInOrder_not_after opts evalCase o :
  injectsInOrder opts evalCase o -> isAfterInferenceCase o = false.
Proof. by intros (? & ? & ? & ? & ? & ? & -> & _). Qed.

(** ** The after-case callbacks *)

(** C4, as the code has it: for a case whose before-case callbacks return no
    error, the after-case callbacks run exactly once, whether the case
    passed or failed in between, and they receive the result and the error
    the pipeline had reached and the start time of the case; for a case
    whose before-case callbacks return an error they do not run. *)
Theorem after_case_callbacks_run_once s ctx req evalCase opts now supplier :
  opt_SessionIDSupplier opts = Some supplier ->
  let before :=
    cb_RunBeforeInferenceCase (opt_Callbacks opts) ctx
      (beforeCaseArgs req evalCase (supplier ctx)) in
  exists r t,
    inferenceEvalCase s ctx req (Some evalCase) opts now = Ok (r, t) /\
    match before.2 with
    | Some _ => count isAfterInferenceCase t = 0
    | None =>
        exists result err t0,
          inferenceEvalCaseBody s (caseContext ctx before.1) req evalCase opts
            (supplier ctx) now = Ok (result, err, t0) /\
          bodyPost req (supplier ctx) evalCase result err /\
          List.filter isAfterInferenceCase t =
            [ObsAfterInferenceCase (caseContext ctx before.1)
               (afterCaseArgs req result err now)]
    end.
Proof.
  intros Hsup before.
  destruct before as [res [e|]] eqn:Hbefore; subst before; simpl.
  - eexists _, _. split; [by eapply inferenceEvalCase_before_error|]. done.
  - destruct (inferenceEvalCaseBody_spec s (caseContext ctx res) req evalCase opts
                (supplier ctx) now) as (result & err & t0 & Hbody & Hpost & Ht0 & _).
    eexists _, _. split; [by eapply inferenceEvalCase_run|].
    exists result, err, t0. split; [done|]. split; [done|].
    simpl. rewrite List.filter_app.
    rewrite (filter_none _ _ _ Ht0 (injectsInOrder_not_after opts evalCase)).
    done.
Qed.

Lemma after_case_callbacks_run_once_witness :
  exists r t,
    inferenceEvalCase (testService failingManager noCallbacks false) ∅ testRequest
      (Some (makeEvalCase "case-1" "prompt")) (testOptions noCallbacks []) 123
      = Ok (r, t) /\
    count isAfterInferenceCase t = 1.
Proof.
  destruct (after_case_callbacks_run_once
              (testService failingManager noCallbacks false) ∅ testRequest
              (makeEvalCase "case-1" "prompt") (testOptions noCallbacks []) 123
              (fun _ => "session") eq_refl) as (r & t & Hrun & Hafter).
  exists r, t. split; [exact Hrun|].
  simpl in Hafter. destruct Hafter as (result & err & t0 & _ & _ & Hfilter).
  unfold count. rewrite Hfilter. reflexivity.
Defined.

(** C4, as the claim has it, fails: the after-case callbacks do not run for a
    case whose before-case callbacks returned an error. *)
Lemma after_case_callbacks_skipped_counterexample :
  exists r t,
    inferenceEvalCase (testService failingManager failingBeforeCase false) ∅
      testRequest (Some (makeEvalCase "case-1" "prompt"))
      (testOptions failingBeforeCase []) 123 = Ok (r, t) /\
    res_Status r = EvalStatusFailed /\
    count isAfterInferenceCase t <> 1.
Proof. eexists _, _. split; [reflexivity|]. split; [reflexivity|]. by vm_compute. Qed.

(** C7: when the after-case callbacks return an error, the result of the case
    is overwritten: its status is failed, its message joins the error the
    pipeline had reached, if any, with the error of the callbacks, and its
    inferences are nil, also for a case that had passed.  The join is spelled
    out: when the pipeline had reached an error, which is the message of the
    failed result the callbacks were handed, the new message is that error,
    a newline, and the error of the callbacks prefixed with their context, so
    that it holds both; when the case had passed, it is the error of the
    callbacks with its prefix alone. *)
Theorem after_case_error_overwrites_result
    s ctx req evalCase opts now supplier res result err t afterErr :
  opt_SessionIDSupplier opts = Some supplier ->
  cb_RunBeforeInferenceCase (opt_Callbacks opts) ctx
    (beforeCaseArgs req evalCase (supplier ctx)) = (res, None) ->
  inferenceEvalCaseBody s (caseContext ctx res) req evalCase opts (supplier ctx) now
    = Ok (result, err, t) ->
  cb_RunAfterInferenceCase (opt_Callbacks opts) (caseContext ctx res)
    (afterCaseArgs req result err now) = Some afterErr ->
  exists r t',
    inferenceEvalCase s ctx req (Some evalCase) opts now = Ok (r, t') /\
    res_Status r = EvalStatusFailed /\
    res_ErrorMessage r = errors_Join err (afterCaseError req evalCase afterErr) /\
    contains afterErr (res_ErrorMessage r) /\
    res_Inferences r = None /\
    res_EvalCaseID r = ec_EvalID evalCase /\
    let hookError :=
      "run after inference case callbacks (app=" +:+ req_AppName req +:+
      ", evalSetID=" +:+ req_EvalSetID req +:+ ", evalCaseID=" +:+
      ec_EvalID evalCase +:+ "): " +:+ afterErr in
    match err with
    | Some e =>
        res_Status result = EvalStatusFailed /\
        res_ErrorMessage result = e /\
        res_ErrorMessage r = e +:+ newline +:+ hookError /\
        contains e (res_ErrorMessage r)
    | None =>
        res_Status result = EvalStatusPassed /\
        res_ErrorMessage r = hookError
    end.
Proof.
  intros Hsup Hbefore Hbody Hafter.
  destruct (inferenceEvalCaseBody_spec s (caseContext ctx res) req evalCase opts
              (supplier ctx) now) as (result' & err' & t0 & Hbody' & Hpost & _).
  rewrite Hbody in Hbody'. injection Hbody' as <- <- <-.
  eexists _, _. split; [by eapply inferenceEvalCase_run|].
  rewrite Hafter. simpl. split; [done|]. split; [done|]. split; [|split; [done|split]].
  - unfold errors_Join, afterCaseError, wrap.
    destruct err; repeat apply contains_append_r; apply contains_refl.
  - unfold bodyPost in Hpost. destruct err as [e|].
    + by destruct Hpost as [-> _].
    + by destruct Hpost as [inferences ->].
  - unfold bodyPost in Hpost. destruct err as [e|].
    + destruct Hpost as [-> _]. simpl. unfold afterCaseError, wrap.
      rewrite !append_assoc. repeat split.
      apply contains_append_l, contains_refl.
    + destruct Hpost as [inferences ->]. simpl. unfold afterCaseError, wrap.
      by rewrite !append_assoc.
Qed.

Lemma after_case_error_overwrites_result_witness :
  let evalCase :=
    withCase EvalModeTrace [] None [] (makeEvalCase "case-1" "prompt") in
  let processingError :=
    "inference eval case (evalCaseID=case-1, sessionID=session): " +:+
    "session input is nil" in
  exists r t,
    inferenceEvalCase (testService failingManager failingAfterCase false) ∅
      testRequest (Some evalCase) (testOptions failingAfterCase []) 123
      = Ok (r, t) /\
    res_Status r = EvalStatusFailed /\
    res_Inferences r = None /\
    contains processingError (res_ErrorMessage r) /\
    contains "after inference case failed" (res_ErrorMessage r) /\
    res_ErrorMessage r =
      processingError +:+ newline +:+
      "run after inference case callbacks (app=app, evalSetID=set, " +:+
      "evalCaseID=case-1): after inference case failed".
Proof.
  intros evalCase processingError.
  destruct (after_case_error_overwrites_result
              (testService failingManager failingAfterCase false) ∅ testRequest
              evalCase (testOptions failingAfterCase []) 123 (fun _ => "session")
              None _ (Some processingError) [] "after inference case failed"
              eq_refl eq_refl eq_refl eq_refl)
    as (r & t & Hrun & Hstatus & _ & Hcontains & Hinferences & _ & Hjoin).
  destruct Hjoin as (_ & _ & Hmessage & Horiginal).
  exists r, t. split; [exact Hrun|]. split; [exact Hstatus|].
  split; [exact Hinferences|]. split; [exact Horiginal|].
  split; [exact Hcontains|]. exact Hmessage.
Defined.

(** ** Recorded conversations *)

Lemma checkActualConversation_None i actual :
  checkActualConversation i actual = None <-> Forall (fun t => badTurn t = false) actual.
Proof.
  revert i. induction actual as [|[invocation|] rest IH]; intros i; simpl.
  - split; [constructor|done].
  - unfold badTurn at 1. destruct (inv_UserContent invocation) eqn:Hcontent.
    + rewrite IH. split.
      * intros H. constructor; [|done]. simpl. by rewrite Hcontent.
      * by inversion 1.
    + split; [done|]. inversion 1 as [|? ? Hbad]. simpl in Hbad.
      by rewrite Hcontent in Hbad.
  - split; [done|]. by inversion 1.
Qed.

Lemma body_actual_outside_trace s ctx req evalCase opts sessionID now :
  ec_EvalMode evalCase <> EvalModeTrace ->
  ec_ActualConversation evalCase <> [] ->
  inferenceEvalCaseBody s ctx req evalCase opts sessionID now =
    Ok (failedBody req sessionID evalCase
          (match ec_SessionInput evalCase with
           | None => "session input is nil"
           | Some _ => "actualConversation is only supported in trace mode"
           end), []).
Proof.
  intros Hmode Hactual. unfold inferenceEvalCaseBody, failedBody.
  destruct (ec_SessionInput evalCase); [|reflexivity].
  destruct (ec_ActualConversation evalCase); [done|].
  destruct (ec_EvalMode evalCase); [|done]. reflexivity.
Qed.

Lemma body_trace_actual s ctx req evalCase opts sessionID now :
  ec_EvalMode evalCase = EvalModeTrace ->
  ec_ActualConversation evalCase <> [] ->
  inferenceEvalCaseBody s ctx req evalCase opts sessionID now =
    Ok (match ec_SessionInput evalCase with
        | None => failedBody req sessionID evalCase "session input is nil"
        | Some _ =>
            if negb (length (ec_Conversation evalCase) =? 0)%nat
               && negb (length (ec_ActualConversation evalCase)
                        =? length (ec_Conversation evalCase))%nat
            then failedBody req sessionID evalCase
                   ("actual conversation length " +:+
                    pretty (length (ec_ActualConversation evalCase)) +:+
                    " does not match conversation length " +:+
                    pretty (length (ec_Conversation evalCase)))
            else
              match checkActualConversation 0 (ec_ActualConversation evalCase) with
              | Some rest => failedBody req sessionID evalCase rest
              | None =>
                  (passedWith
                     (newInferenceResult (req_AppName req) (req_EvalSetID req)
                        sessionID evalCase)
                     (ec_ActualConversation evalCase), None)
              end
        end, []).
Proof.
  intros Hmode Hactual. unfold inferenceEvalCaseBody, failedBody.
  destruct (ec_SessionInput evalCase); [|reflexivity].
  rewrite Hmode.
  destruct (checkActualConversation 0 (ec_ActualConversation evalCase)) eqn:Hcheck;
    destruct (ec_ActualConversation evalCase) as [|a actual] eqn:Ha; try done;
    cbn [length Nat.eqb negb andb EvalMode_eqb];
    destruct (_ && _); reflexivity.
Qed.

Lemma caseError_contains evalCaseID sessionID rest :
  contains rest (caseError evalCaseID sessionID rest).
Proof. unfold caseError. repeat apply contains_append_r. apply contains_refl. Qed.

Lemma count_runner_around ctx ctx' bargs aargs :
  count isRunnerRun
    (ObsBeforeInferenceCase ctx bargs :: [] ++ [ObsAfterInferenceCase ctx' aargs]) = 0.
Proof. reflexivity. Qed.

(** ** A recorded conversation outside trace mode *)

(** C10, as the code has it: a case that is not in trace mode and has a
    recorded actual conversation is marked failed with nil inferences, and
    the runner is not called for it; when the case has a session input and
    its before-case callbacks returned no error, the message says that
    actualConversation is only supported in trace mode. *)
Theorem actual_conversation_outside_trace_fails
    s ctx req evalCase opts now supplier :
  opt_SessionIDSupplier opts = Some supplier ->
  ec_EvalMode evalCase <> EvalModeTrace ->
  ec_ActualConversation evalCase <> [] ->
  exists r t,
    inferenceEvalCase s ctx req (Some evalCase) opts now = Ok (r, t) /\
    res_Status r = EvalStatusFailed /\
    res_Inferences r = None /\
    count isRunnerRun t = 0 /\
    (ec_SessionInput evalCase <> None ->
     (cb_RunBeforeInferenceCase (opt_Callbacks opts) ctx
        (beforeCaseArgs req evalCase (supplier ctx))).2 = None ->
     contains "actualConversation is only supported in trace mode"
              (res_ErrorMessage r)).
Proof.
  intros Hsup Hmode Hactual.
  destruct (cb_RunBeforeInferenceCase (opt_Callbacks opts) ctx
              (beforeCaseArgs req evalCase (supplier ctx))) as [res [e|]] eqn:Hbefore.
  - eexists _, _. split; [by eapply inferenceEvalCase_before_error|].
    repeat split; done.
  - eexists _, _. split.
    { eapply inferenceEvalCase_run; [done..|].
      by apply body_actual_outside_trace. }
    unfold failedBody.
    destruct (cb_RunAfterInferenceCase _ _ _) as [afterErr|];
      (split; [reflexivity|]); (split; [reflexivity|]);
      (split; [apply count_runner_around|]);
      intros Hsession _; destruct (ec_SessionInput evalCase); try done; simpl.
    + apply contains_append_l, caseError_contains.
    + apply caseError_contains.
Qed.

Lemma actual_conversation_outside_trace_fails_witness :
  exists r t,
    inferenceEvalCase (testService failingManager noCallbacks false) ∅ testRequest
      (Some (withCase EvalModeDefault [Some (makeInvocation "recorded")]
               testSession [] (makeEvalCase "case-1" "prompt")))
      (testOptions noCallbacks []) 123 = Ok (r, t) /\
    res_Status r = EvalStatusFailed /\
    contains "actualConversation is only supported in trace mode"
             (res_ErrorMessage r).
Proof.
  destruct (actual_conversation_outside_trace_fails
              (testService failingManager noCallbacks false) ∅ testRequest
              (withCase EvalModeDefault [Some (makeInvocation "recorded")]
                 testSession [] (makeEvalCase "case-1" "prompt"))
              (testOptions noCallbacks []) 123 (fun _ => "session") eq_refl)
    as (r & t & Hrun & Hstatus & _ & _ & Hmessage); [done..|].
  exists r, t. split; [exact Hrun|]. split; [exact Hstatus|].
  apply Hmessage; done.
Defined.

(** C10, as the claim has it, fails: a case of that kind without a session
    input is failed for the missing session input, and its message does not
    mention actualConversation. *)
Lemma actual_conversation_outside_trace_counterexample :
  let evalCase := withCase EvalModeDefault [Some (makeInvocation "recorded")]
                    None [] (makeEvalCase "case-1" "prompt") in
  ec_EvalMode evalCase <> EvalModeTrace /\
  ec_ActualConversation evalCase <> [] /\
  exists r t,
    inferenceEvalCase (testService failingManager noCallbacks false) ∅ testRequest
      (Some evalCase) (testOptions noCallbacks []) 123 = Ok (r, t) /\
    ~ contains "actualConversation is only supported in trace mode"
               (res_ErrorMessage r).
Proof.
  split; [done|]. split; [done|].
  eexists _, _. split; [reflexivity|].
  intros H. apply contains_containsb in H. by vm_compute in H.
Qed.

(** ** Trace mode with a recorded conversation *)

Lemma bad_turn_check actual :
  Exists (fun turn => badTurn turn = true) actual ->
  checkActualConversation 0 actual <> None.
Proof.
  intros Hbad Hcheck. apply checkActualConversation_None in Hcheck.
  induction Hbad as [turn rest Hturn|turn rest _ IH].
  - inversion Hcheck as [|? ? Hok]. by rewrite Hturn in Hok.
  - inversion Hcheck. by apply IH.
Qed.

Lemma length_mismatch (conv actual : list (option Invocation)) :
  negb (length conv =? 0)%nat && negb (length actual =? length conv)%nat = true
  <-> conv <> [] /\ length actual <> length conv.
Proof.
  rewrite andb_true_iff, !negb_true_iff, !Nat.eqb_neq.
  destruct conv; simpl; split; intros [H1 H2]; split; done.
Qed.

(** C6, as the code has it: for a trace-mode case with a recorded actual
    conversation the runner is never called; the case fails if a recorded
    turn is nil or has nil user content, and it fails if the expected
    conversation is non-empty and of another length; otherwise, when the case
    has a session input and its before-case and after-case callbacks return
    no error, the inferences are the recorded conversation, unchanged, and the
    case is passed. *)
Theorem trace_actual_conversation s ctx req evalCase opts now supplier :
  opt_SessionIDSupplier opts = Some supplier ->
  ec_EvalMode evalCase = EvalModeTrace ->
  ec_ActualConversation evalCase <> [] ->
  exists r t,
    inferenceEvalCase s ctx req (Some evalCase) opts now = Ok (r, t) /\
    count isRunnerRun t = 0 /\
    (Exists (fun turn => badTurn turn = true) (ec_ActualConversation evalCase) ->
     res_Status r = EvalStatusFailed /\ res_Inferences r = None) /\
    (ec_Conversation evalCase <> [] ->
     length (ec_ActualConversation evalCase) <> length (ec_Conversation evalCase) ->
     res_Status r = EvalStatusFailed /\ res_Inferences r = None) /\
    (Forall (fun turn => badTurn turn = false) (ec_ActualConversation evalCase) ->
     ec_Conversation evalCase = [] \/
       length (ec_ActualConversation evalCase) = length (ec_Conversation evalCase) ->
     ec_SessionInput evalCase <> None ->
     (cb_RunBeforeInferenceCase (opt_Callbacks opts) ctx
        (beforeCaseArgs req evalCase (supplier ctx))).2 = None ->
     (forall c a, In (ObsAfterInferenceCase c a) t ->
                  cb_RunAfterInferenceCase (opt_Callbacks opts) c a = None) ->
     res_Status r = EvalStatusPassed /\
     res_Inferences r = Some (ec_ActualConversation evalCase)).
Proof.
  intros Hsup Hmode Hactual.
  destruct (cb_RunBeforeInferenceCase (opt_Callbacks opts) ctx
              (beforeCaseArgs req evalCase (supplier ctx))) as [res [e|]] eqn:Hbefore.
  { eexists _, _. split; [by eapply inferenceEvalCase_before_error|].
    repeat split; done. }
  destruct (inferenceEvalCaseBody_spec s (caseContext ctx res) req evalCase opts
              (supplier ctx) now) as (result & err & t0 & Hbody & _).
  pose proof Hbody as Hshape. rewrite body_trace_actual in Hshape by done.
  injection Hshape as Hshape <-. unfold failedBody in Hshape.
  eexists _, _. split; [by eapply inferenceEvalCase_run|].
  split; [apply count_runner_around|].
  destruct (cb_RunAfterInferenceCase _ _ _) as [afterErr|] eqn:Hafter.
  { split; [done|]. split; [done|].
    intros _ _ _ _ Hok. rewrite Hok in Hafter; [done|].
    simpl. auto. }
  destruct (negb _ && negb _) eqn:Hlen.
  { apply length_mismatch in Hlen as [Hconv Hne].
    destruct (ec_SessionInput evalCase); injection Hshape as <- <-.
    all: split; [done|]; split; [done|]; intros _ [?|?]; done. }
  assert (~ (ec_Conversation evalCase <> [] /\
             length (ec_ActualConversation evalCase)
             <> length (ec_Conversation evalCase))) as Hmatch.
  { rewrite <- length_mismatch. by rewrite Hlen. }
  destruct (ec_SessionInput evalCase) as [session|];
    [|injection Hshape as <- <-; repeat split; done].
  destruct (checkActualConversation 0 (ec_ActualConversation evalCase)) eqn:Hcheck;
    injection Hshape as <- <-.
  - split; [done|]. split; [done|].
    intros Hok. apply (checkActualConversation_None 0) in Hok. congruence.
  - split; [|split].
    + intros Hbad. by apply bad_turn_check in Hbad.
    + intros Hconv Hne. destruct Hmatch. done.
    + done.
Qed.

Lemma trace_actual_conversation_witness :
  let evalCase := withCase EvalModeTrace [Some (makeInvocation "recorded")]
                    testSession [] (makeEvalCase "case-1" "prompt") in
  exists r t,
    inferenceEvalCase (testService failingManager noCallbacks false) ∅ testRequest
      (Some evalCase) (testOptions noCallbacks []) 123 = Ok (r, t) /\
    res_Status r = EvalStatusPassed /\
    res_Inferences r = Some [Some (makeInvocation "recorded")].
Proof.
  intros evalCase.
  destruct (trace_actual_conversation
              (testService failingManager noCallbacks false) ∅ testRequest
              evalCase (testOptions noCallbacks []) 123 (fun _ => "session") eq_refl)
    as (r & t & Hrun & _ & _ & _ & Hpass); [done..|].
  exists r, t. split; [exact Hrun|].
  apply Hpass; [by repeat constructor|by right|done..].
Defined.

(** C6, as the claim has it, fails: a trace-mode case whose recorded turns
    all have user content and whose lengths match is still failed when it has
    no session input. *)
Lemma trace_actual_conversation_counterexample :
  let evalCase := withCase EvalModeTrace [Some (makeInvocation "recorded")]
                    None [] (makeEvalCase "case-1" "prompt") in
  ec_EvalMode evalCase = EvalModeTrace /\
  Forall (fun turn => badTurn turn = false) (ec_ActualConversation evalCase) /\
  length (ec_ActualConversation evalCase) = length (ec_Conversation evalCase) /\
  exists r t,
    inferenceEvalCase (testService failingManager noCallbacks false) ∅ testRequest
      (Some evalCase) (testOptions noCallbacks []) 123 = Ok (r, t) /\
    res_Status r = EvalStatusFailed /\
    res_Inferences r <> Some (ec_ActualConversation evalCase).
Proof.
  split; [done|]. split; [by repeat constructor|]. split; [done|].
  eexists _, _. split; [reflexivity|]. done.
Qed.

(** ** The order of the injected context messages *)

(** C9: in every call of the runner made for a case, the injected context
    messages are those of the run options of the service followed by the
    context messages of the case; such a call is only made for a live case. *)
Theorem injected_context_messages_order
    s ctx req evalCase opts now ctx' userID sessionID message runOpts :
  In (ObsRunnerRun ctx' userID sessionID message runOpts)
     (traceOf (inferenceEvalCase s ctx req (Some evalCase) opts) now) ->
  exists seed,
    ec_ContextMessages evalCase = map Some seed /\
    ro_InjectedContextMessages (applyRunOptions runOpts) =
      ro_InjectedContextMessages (applyRunOptions (opt_RunOptions opts)) ++ seed /\
    ec_EvalMode evalCase = EvalModeDefault.
Proof.
  unfold traceOf.
  destruct (opt_SessionIDSupplier opts) as [supplier|] eqn:Hsup.
  2: { unfold inferenceEvalCase, callSessionIDSupplier. by rewrite Hsup. }
  destruct (cb_RunBeforeInferenceCase (opt_Callbacks opts) ctx
              (beforeCaseArgs req evalCase (supplier ctx))) as [res [e|]] eqn:Hbefore.
  { erewrite inferenceEvalCase_before_error by done. by intros [?|[]]. }
  destruct (inferenceEvalCaseBody_spec s (caseContext ctx res) req evalCase opts
              (supplier ctx) now) as (result & err & t0 & Hbody & _ & Ht0 & Hlive).
  erewrite inferenceEvalCase_run by done.
  intros [?|Hin]; [done|]. apply in_app_or in Hin as [Hin|[?|[]]]; [|done].
  rewrite Forall_forall in Ht0. apply list_elem_of_In, Ht0 in Hin as Hcall.
  destruct Hcall as (? & ? & ? & ? & ? & seed & [= <- <- <- <- <-] & Hseed & Hinj).
  exists seed. split; [done|]. split; [done|].
  destruct (ec_EvalMode evalCase); [done|].
  rewrite Hlive in Hin by auto. by apply elem_of_nil in Hin.
Qed.

Lemma injected_context_messages_order_witness :
  let evalCase := withCase EvalModeDefault [] testSession
                    (map Some caseContextMessages) (makeEvalCase "case-1" "prompt") in
  let opts := testOptions noCallbacks
                [WithInjectedContextMessages [globalInjected];
                 WithRuntimeState {[ "from_run_option" := "yes" ]}] in
  exists runOpts,
    In (ObsRunnerRun ∅ "user" "session" (userMessage "prompt") runOpts)
       (traceOf (inferenceEvalCase (testService failingManager noCallbacks false) ∅
                   testRequest (Some evalCase) opts) 123) /\
    ro_InjectedContextMessages (applyRunOptions runOpts) =
      globalInjected :: caseContextMessages.
Proof.
  intros evalCase opts. eexists. split.
  - right. left. reflexivity.
  - edestruct (injected_context_messages_order
                 (testService failingManager noCallbacks false) ∅ testRequest
                 evalCase opts 123) as (seed & Hseed & Hinj & _).
    { right. left. reflexivity. }
    rewrite Hinj. f_equal.
    apply (inj (fmap Some)). symmetry. exact Hseed.
Defined.

(** ** Option resolution *)

Ltac m_unfold :=
  unfold mbind, mret, M_bind, M_ret, m_bind, m_ret, getSvc, m_panic in *.

(** C8: resolving the options of a call fails exactly when the effective
    options, the defaults of the service with the mutators of the call applied
    in order, have no eval-set manager, no session-ID supplier, or enable
    parallel inference with a parallelism that is not positive or with a
    worker pool whose initialization failed; otherwise the effective options
    are returned.  When it fails, [Inference] returns that error and no
    results, and nothing is called: no case is processed. *)
Theorem resolveInferenceOptions_fails_iff_invalid opt w :
  let callOpts := applyOptions opt (serviceDefaults (w_svc w)) in
  let poolErr :=
    match ensureEvalCaseInferencePool (opt_EvalCaseParallelism callOpts) w with
    | Ok (_, err, _) => err
    | Panic _ => None
    end in
  let invalid :=
    opt_EvalSetManager callOpts = None \/
    opt_SessionIDSupplier callOpts = None \/
    (opt_EvalCaseParallelInferenceEnabled callOpts = true /\
     ((opt_EvalCaseParallelism callOpts <= 0)%Z \/ poolErr <> None)) in
  exists res w',
    resolveInferenceOptions opt w = Ok (res, w') /\
    ((exists err, res = inr err) <-> invalid) /\
    (~ invalid -> res = inl callOpts) /\
    (forall err, res = inr err ->
       forall sched ctx req,
         validateInferenceRequest (Some req) = None ->
         Inference sched ctx (Some req) opt w = Ok (None, Some err, w') /\
         w_trace w' = w_trace w).
Proof.
  intros callOpts poolErr invalid.
  assert (forall res w',
            resolveInferenceOptions opt w = Ok (res, w') ->
            w_trace w' = w_trace w ->
            forall err, res = inr err ->
              forall sched ctx req,
                validateInferenceRequest (Some req) = None ->
                Inference sched ctx (Some req) opt w = Ok (None, Some err, w') /\
                w_trace w' = w_trace w) as Hinference.
  { intros res w' Hres Htrace err -> sched ctx req Hvalid. split; [|done].
    unfold Inference. rewrite Hvalid. m_unfold. by rewrite Hres. }
  unfold resolveInferenceOptions. m_unfold. fold callOpts.
  subst invalid poolErr.
  destruct (opt_EvalSetManager callOpts) as [mgr|] eqn:Hmgr.
  2: { eexists _, _. split; [reflexivity|].
       split; [split; eauto|]. split; [tauto|].
       eapply Hinference; [|done].
       unfold resolveInferenceOptions. m_unfold. fold callOpts. by rewrite Hmgr. }
  destruct (opt_SessionIDSupplier callOpts) as [supplier|] eqn:Hsup.
  2: { eexists _, _. split; [reflexivity|].
       split; [split; eauto|]. split; [tauto|].
       eapply Hinference; [|done].
       unfold resolveInferenceOptions. m_unfold. fold callOpts.
       by rewrite Hmgr, Hsup. }
  destruct (opt_EvalCaseParallelInferenceEnabled callOpts) eqn:Hparallel.
  2: { eexists _, _. split; [reflexivity|].
       split; [split; [by intros [? ?]|intros [?|[?|[? _]]]; done]|].
       split; [done|]. done. }
  destruct (bool_decide (opt_EvalCaseParallelism callOpts <= 0)%Z) eqn:Hsize.
  { apply bool_decide_eq_true in Hsize.
    eexists _, _. split; [reflexivity|].
    split; [split; eauto 10|]. split; [tauto|].
    eapply Hinference; [|done].
    unfold resolveInferenceOptions. m_unfold. fold callOpts.
    rewrite Hmgr, Hsup, Hparallel. by rewrite bool_decide_eq_true_2. }
  apply bool_decide_eq_false in Hsize.
  unfold ensureEvalCaseInferencePool.
  set (s' := if evalCaseInferencePoolOnce (w_svc w) then _ else _).
  destruct (evalCaseInferencePoolErr s') as [err|] eqn:Herr.
  - eexists _, _. split; [reflexivity|].
    split; [split; [intros _; right; right; split; [done|right; done]|eauto]|].
    split; [intros Hvalid; destruct Hvalid; right; right; split; [done|by right]|].
    eapply Hinference; [|done].
    unfold resolveInferenceOptions. m_unfold. fold callOpts.
    rewrite Hmgr, Hsup, Hparallel. rewrite bool_decide_eq_false_2 by done.
    unfold ensureEvalCaseInferencePool. fold s'. by rewrite Herr.
  - eexists _, _. split; [reflexivity|].
    split; [split; [by intros [? ?]|intros [?|[?|[_ [?|?]]]]; done]|].
    split; [done|]. done.
Qed.

(** ** The pipeline returns *)

Lemma inferenceEvalCase_total s ctx req evalCase opts now supplier :
  opt_SessionIDSupplier opts = Some supplier ->
  exists r t, inferenceEvalCase s ctx req evalCase opts now = Ok (r, t).
Proof.
  intros Hsup. destruct evalCase as [evalCase|].
  2: { eexists _, _. by eapply inferenceEvalCase_nil. }
  destruct (cb_RunBeforeInferenceCase (opt_Callbacks opts) ctx
              (beforeCaseArgs req evalCase (supplier ctx))) as [res [e|]] eqn:Hbefore.
  - eexists _, _. by eapply inferenceEvalCase_before_error.
  - destruct (inferenceEvalCaseBody_spec s (caseContext ctx res) req evalCase opts
                (supplier ctx) now) as (result & err & t0 & Hbody & _).
    eexists _, _. by eapply inferenceEvalCase_run.
Qed.

Lemma inferenceEvalCase_value s ctx req evalCase opts now supplier :
  opt_SessionIDSupplier opts = Some supplier ->
  exists r t,
    inferenceEvalCase s ctx req evalCase opts now = Ok (r, t) /\
    value (inferenceEvalCase s ctx req evalCase opts) now = Some r.
Proof.
  intros Hsup.
  destruct (inferenceEvalCase_total s ctx req evalCase opts now supplier Hsup)
    as (r & t & Hrun).
  exists r, t. split; [done|]. unfold value. by rewrite Hrun.
Qed.

(** The pipeline uses the service only through its runner. *)
Lemma inferenceEvalCase_runner s s' ctx req evalCase opts :
  runner s = runner s' ->
  inferenceEvalCase s ctx req evalCase opts = inferenceEvalCase s' ctx req evalCase opts.
Proof.
  intros Hrunner. unfold inferenceEvalCase, inferenceEvalCaseBody.
  by rewrite Hrunner.
Qed.

(** ** The tasks of a batch *)

Lemma lookup_tasks (evalCases : list (option EvalCase)) (idx : nat) :
  zip (seq 0 (length evalCases)) evalCases !! idx
  = (fun evalCase => (idx, evalCase)) <$> evalCases !! idx.
Proof.
  rewrite lookup_zip_with.
  destruct (evalCases !! idx) as [evalCase|] eqn:Hcase; simpl.
  - apply lookup_lt_Some in Hcase as Hlt.
    by rewrite lookup_seq_lt by done.
  - by destruct (seq 0 (length evalCases) !! idx).
Qed.

Lemma drop_tasks (evalCases : list (option EvalCase)) (idx : nat) :
  idx < length evalCases ->
  drop idx (zip (seq 0 (length evalCases)) evalCases)
  = (idx, caseAt evalCases idx)
    :: drop (S idx) (zip (seq 0 (length evalCases)) evalCases).
Proof.
  intros Hlt. apply drop_S. rewrite lookup_tasks. unfold caseAt.
  destruct (lookup_lt_is_Some_2 evalCases idx Hlt) as [evalCase ->]. done.
Qed.

Lemma drop_tasks_all (evalCases : list (option EvalCase)) (n : nat) :
  length evalCases <= n ->
  drop n (zip (seq 0 (length evalCases)) evalCases) = [].
Proof.
  intros Hle. apply drop_ge. rewrite length_zip_with, length_seq. lia.
Qed.

(** ** The steps of the parallel executor *)

Ltac step_unfold :=
  unfold submitStep, workStep, evalCaseInferenceWorker, wgDone, lift, observe,
    paramPoolGet, paramPoolPut, callSessionIDSupplier, reset;
  m_unfold; eff_unfold.

Lemma submitStep_done pool ctx req opts rejection b w :
  b_rest b = [] -> submitStep pool ctx req opts rejection b w = Ok (b, w).
Proof. intros Hrest. unfold submitStep. by rewrite Hrest. Qed.

Lemma submitStep_accept pool ctx req opts b w idx evalCase rest :
  b_rest b = (idx, evalCase) :: rest ->
  exists w',
    submitStep (Some pool) ctx req opts None b w =
      Ok ({| b_results := b_results b;
             b_wg := (b_wg b + 1)%Z;
             b_running := b_running b ++ [taskParam ctx req opts idx evalCase];
             b_rest := rest |}, w') /\
    w_trace w' = w_trace w ++ [ObsWgAdd; ObsInvoke idx None] /\
    w_paramPool w' = tail (w_paramPool w) /\
    sameEnvironment w w'.
Proof.
  intros Hrest. step_unfold. rewrite Hrest. simpl.
  destruct (w_paramPool w) eqn:Hpool; simpl;
    (eexists; split; [reflexivity|]);
    repeat split; simpl; rewrite ?Hpool, ?app_nil_r, <- ?app_assoc; done.
Qed.

Lemma submitStep_reject pool ctx req opts b w idx evalCase rest err supplier :
  b_rest b = (idx, Some evalCase) :: rest ->
  idx < length (b_results b) ->
  opt_SessionIDSupplier opts = Some supplier ->
  (0 <= b_wg b)%Z ->
  exists w',
    submitStep (Some pool) ctx req opts (Some err) b w =
      Ok ({| b_results :=
               <[idx := Some (rejectedResult req (supplier ctx) evalCase err)]>
                 (b_results b);
             b_wg := (b_wg b + 1 - 1)%Z;
             b_running := b_running b;
             b_rest := rest |}, w') /\
    w_trace w' = w_trace w ++ [ObsWgAdd; ObsInvoke idx (Some err); ObsWgDone idx] /\
    w_paramPool w' = zeroParam :: tail (w_paramPool w) /\
    sameEnvironment w w'.
Proof.
  intros Hrest Hidx Hsup Hwg. step_unfold. rewrite Hrest, Hsup. simpl.
  rewrite bool_decide_eq_false_2 by lia.
  apply Nat.ltb_lt in Hidx. rewrite Hidx.
  destruct (w_paramPool w) eqn:Hpool; simpl;
    (eexists; split; [reflexivity|]);
    repeat split; simpl; rewrite ?Hpool, ?app_nil_r, <- ?app_assoc; done.
Qed.

Lemma workStep_idle k b w :
  b_running b !! k = None -> workStep k b w = Ok (b, w).
Proof. intros Hk. unfold workStep. by rewrite Hk. Qed.

Lemma workStep_run ctx req opts k b w idx evalCase r t :
  b_running b !! k = Some (taskParam ctx req opts idx evalCase) ->
  idx < length (b_results b) ->
  (1 <= b_wg b)%Z ->
  inferenceEvalCase (w_svc w) ctx req evalCase opts (w_now w) = Ok (r, t) ->
  exists w',
    workStep k b w =
      Ok ({| b_results := <[idx := Some r]> (b_results b);
             b_wg := (b_wg b - 1)%Z;
             b_running := delete k (b_running b);
             b_rest := b_rest b |}, w') /\
    w_trace w' = w_trace w ++ t ++ [ObsWgDone idx] /\
    w_paramPool w' = zeroParam :: w_paramPool w /\
    sameEnvironment w w'.
Proof.
  intros Hk Hidx Hwg Hrun. step_unfold. rewrite Hk. simpl. rewrite Hrun. simpl.
  apply Nat.ltb_lt in Hidx. rewrite Hidx.
  rewrite bool_decide_eq_false_2 by lia.
  eexists; split; [reflexivity|].
  repeat split; simpl; rewrite ?app_nil_r, <- ?app_assoc; done.
Qed.

(** ** Signals of the WaitGroup *)

Lemma count_app p t1 t2 : count p (t1 ++ t2) = count p t1 + count p t2.
Proof. unfold count. by rewrite List.filter_app, length_app. Qed.

Lemma injectsInOrder_not_done opts evalCase idx o :
  injectsInOrder opts evalCase o -> isWgDone idx o = false.
Proof. by intros (? & ? & ? & ? & ? & ? & -> & _). Qed.

(** The pipeline does not touch the WaitGroup. *)
Lemma inferenceEvalCase_no_signal s ctx req evalCase opts now r t idx :
  inferenceEvalCase s ctx req evalCase opts now = Ok (r, t) ->
  count (isWgDone idx) t = 0.
Proof.
  intros Hrun.
  destruct (opt_SessionIDSupplier opts) as [supplier|] eqn:Hsup.
  2: { unfold inferenceEvalCase, callSessionIDSupplier in Hrun.
       by rewrite Hsup in Hrun. }
  destruct evalCase as [evalCase|].
  2: { erewrite inferenceEvalCase_nil in Hrun by done. by injection Hrun as _ <-. }
  destruct (cb_RunBeforeInferenceCase (opt_Callbacks opts) ctx
              (beforeCaseArgs req evalCase (supplier ctx))) as [res [e|]] eqn:Hbefore.
  { erewrite inferenceEvalCase_before_error in Hrun by done.
    by injection Hrun as _ <-. }
  destruct (inferenceEvalCaseBody_spec s (caseContext ctx res) req evalCase opts
              (supplier ctx) now) as (result & err & t0 & Hbody & _ & Ht0 & _).
  erewrite inferenceEvalCase_run in Hrun by done. injection Hrun as _ <-.
  unfold count. simpl. rewrite List.filter_app.
  by rewrite (filter_none _ _ _ Ht0 (injectsInOrder_not_done opts evalCase idx)).
Qed.

Lemma count_done_self idx : count (isWgDone idx) [ObsWgDone idx] = 1.
Proof. unfold count. simpl. by rewrite bool_decide_eq_true_2. Qed.

Lemma count_done_other idx idx' :
  idx <> idx' -> count (isWgDone idx) [ObsWgDone idx'] = 0.
Proof. intros Hne. unfold count. simpl. by rewrite bool_decide_eq_false_2. Qed.

(** ** The invariant of a batch *)

Section Invariant.
Variables (pool : PoolWithFunc) (s : local) (ctx : Context)
  (req : InferenceRequest) (opts : Options) (now : Time)
  (evalCases : list (option EvalCase)) (trace0 : list Obs)
  (supplier : Context -> string).
Hypothesis Hsup : opt_SessionIDSupplier opts = Some supplier.

Local Abbreviation Inv := (batchInv s ctx req opts now evalCases trace0).
Local Abbreviation N := (length evalCases).

Lemma batchInv_init w :
  w_now w = now -> runner (w_svc w) = runner s -> w_trace w = trace0 ->
  Inv [] (initBatch evalCases) w.
Proof.
  intros Hnow Hrunner Htrace. unfold batchInv, initBatch. simpl.
  split; [done|]. split; [done|]. split; [by rewrite length_replicate|].
  split; [lia|]. split; [done|]. split; [done|].
  exists []. split; [done|]. split; [apply NoDup_nil_2|].
  split; [by intros idx ?%elem_of_nil|]. split; [intros idx Hidx; lia|].
  exists []. split; [by rewrite app_nil_r|]. by intros idx.
Qed.

Lemma decisionAt_app_l ds ds' idx :
  idx < length ds -> decisionAt (ds ++ ds') idx = decisionAt ds idx.
Proof. intros Hidx. unfold decisionAt. by rewrite lookup_app_l. Qed.

Lemma submitStep_inv ds b w rejection :
  Inv ds b w ->
  rejectedNonNil evalCases (ds ++ [rejection]) ->
  exists b' w',
    submitStep (Some pool) ctx req opts rejection b w = Ok (b', w') /\
    Inv (take N (ds ++ [rejection])) b' w' /\
    length (b_running b') =
      (if decide (length ds < N /\ rejection = None)
       then S (length (b_running b)) else length (b_running b)).
Proof.
  intros (Hnow & Hrunner & Hlen & Hds & Hrest & Hwg & run & Hrun & Hnodup
          & Hin & Hout & t & Htrace & Hsignals) Hnonnil.
  destruct (decide (length ds < N)) as [Hlt|Hge].
  2: { assert (length ds = N) as Heq by lia.
       exists b, w. split.
       { apply submitStep_done. rewrite Hrest. apply drop_tasks_all. lia. }
       rewrite <- Heq, take_app_length.
       split; [unfold batchInv; do 6 (split; [done|]); exists run; eauto 10|].
       rewrite decide_False by (intros [? _]; lia). done. }
  rewrite take_ge by (rewrite length_app; simpl; lia).
  rewrite drop_tasks in Hrest by done.
  assert (length ds ∉ run) as Hfresh.
  { intros Hidx. destruct (Hin _ Hidx). lia. }
  destruct rejection as [err|].
  - (* the pool rejects the submission *)
    destruct (Hnonnil (length ds) err) as [evalCase Hcase];
      [by rewrite list_lookup_middle|done|].
    rewrite Hcase in Hrest.
    destruct (submitStep_reject pool ctx req opts b w _ _ _ err supplier Hrest)
      as (w' & Hstep & Htrace' & _ & Hnow' & Hsvc' & _); [lia|done|lia|].
    eexists _, w'. split; [exact Hstep|].
    split; [|by rewrite decide_False by (intros [_ ?]; done)].
    unfold batchInv. simpl. rewrite Hnow', Hsvc', length_insert, length_app. simpl.
    repeat split; [done|done|done|lia|by rewrite Nat.add_1_r|lia|].
    exists run. split; [done|]. split; [done|]. split; [|split].
    + intros idx Hidx. destruct (Hin idx Hidx) as [Hidx' Hdec].
      split; [lia|]. by rewrite lookup_app_l.
    + intros idx Hidx Hnotin.
      destruct (decide (idx = length ds)) as [->|Hne].
      * rewrite list_lookup_insert_eq by lia.
        unfold decisionAt. rewrite list_lookup_middle by done.
        unfold slotOf. by rewrite Hcase, Hsup.
      * rewrite list_lookup_insert_ne by done.
        rewrite decisionAt_app_l by lia. apply Hout; [lia|done].
    + exists (t ++ [ObsWgAdd; ObsInvoke (length ds) (Some err);
                    ObsWgDone (length ds)]).
      split; [by rewrite Htrace', Htrace, <- app_assoc|].
      intros idx. rewrite count_app, Hsignals.
      destruct (decide (idx = length ds)) as [->|Hne].
      * rewrite decide_False by (intros [? _]; lia).
        rewrite decide_True by (split; [lia|done]).
        unfold count. simpl. by rewrite bool_decide_eq_true_2.
      * unfold count. simpl. rewrite bool_decide_eq_false_2 by done. simpl.
        rewrite Nat.add_0_r. repeat case_decide; try done; exfalso.
        all: match goal with H : ~ _ |- _ => apply H end.
        all: match goal with H : _ /\ _ |- _ => destruct H end; split; [lia|done].
  - (* the pool accepts the submission *)
    destruct (submitStep_accept pool ctx req opts b w _ _ _ Hrest)
      as (w' & Hstep & Htrace' & _ & Hnow' & Hsvc' & _).
    eexists _, w'. split; [exact Hstep|].
    split; [|simpl; rewrite decide_True by done; rewrite length_app; simpl; lia].
    unfold batchInv. simpl. rewrite Hnow', Hsvc', !length_app. simpl.
    repeat split; [done|done|done|lia|by rewrite Nat.add_1_r|lia|].
    exists (run ++ [length ds]). split; [by rewrite map_app, Hrun|].
    split; [|split; [|split]].
    + apply NoDup_app. split; [done|]. split; [|apply NoDup_singleton].
      intros idx Hidx Heq%list_elem_of_singleton. by subst idx.
    + intros idx [Hidx|Heq%list_elem_of_singleton]%elem_of_app; [|subst idx].
      * destruct (Hin idx Hidx). split; [lia|]. by rewrite lookup_app_l.
      * split; [lia|]. by rewrite list_lookup_middle.
    + intros idx Hidx Hnotin. apply not_elem_of_app in Hnotin as [Hnotin Hne].
      apply not_elem_of_cons in Hne as [Hne _].
      rewrite decisionAt_app_l by lia. apply Hout; [lia|done].
    + exists (t ++ [ObsWgAdd; ObsInvoke (length ds) None]).
      split; [by rewrite Htrace', Htrace, <- app_assoc|].
      intros idx. rewrite count_app, Hsignals.
      unfold count. simpl. rewrite Nat.add_0_r.
      repeat case_decide; try done; exfalso.
      * match goal with H : ~ _ |- _ => apply H end.
        destruct H as [Hidx Hnotin]. split; [lia|].
        intros [?|Heq%list_elem_of_singleton]%elem_of_app; [done|]. lia.
      * match goal with H : ~ _ |- _ => apply H end.
        destruct H0 as [Hidx Hnotin].
        apply not_elem_of_app in Hnotin as [Hnotin Hne].
        apply not_elem_of_cons in Hne as [Hne _]. split; [lia|done].
Qed.

Lemma workStep_inv ds b w k :
  Inv ds b w ->
  exists b' w',
    workStep k b w = Ok (b', w') /\
    Inv ds b' w' /\
    length (b_running b') =
      (if decide (k < length (b_running b))
       then length (b_running b) - 1 else length (b_running b)).
Proof.
  intros (Hnow & Hrunner & Hlen & Hds & Hrest & Hwg & run & Hrun & Hnodup
          & Hin & Hout & t & Htrace & Hsignals).
  destruct (b_running b !! k) as [param|] eqn:Hk.
  2: { exists b, w. split; [by apply workStep_idle|].
       split; [unfold batchInv; do 6 (split; [done|]); exists run; eauto 10|].
       apply lookup_ge_None in Hk. by rewrite decide_False by lia. }
  apply lookup_lt_Some in Hk as Hklt.
  rewrite Hrun in Hk. rewrite list_lookup_fmap in Hk.
  destruct (run !! k) as [idx|] eqn:Hidx; [|done].
  injection Hk as <-.
  assert (idx ∈ run) as Hidxin by (by eapply list_elem_of_lookup_2).
  destruct (Hin idx Hidxin) as [Hidxlt Hdec].
  destruct (inferenceEvalCase_value (w_svc w) ctx req (caseAt evalCases idx) opts
              (w_now w) supplier Hsup) as (r & tp & Hpipeline & Hvalue).
  destruct (workStep_run ctx req opts k b w idx (caseAt evalCases idx) r tp)
    as (w' & Hstep & Htrace' & _ & Hnow' & Hsvc' & _); [|lia|lia|done|].
  { by rewrite Hrun, list_lookup_fmap, Hidx. }
  eexists _, w'. split; [exact Hstep|].
  pose proof (delete_Permutation run k idx Hidx) as Hperm.
  assert (NoDup (idx :: delete k run)) as Hnodup' by (by rewrite <- Hperm).
  apply NoDup_cons in Hnodup' as [Hfresh Hnodup'].
  assert (forall idx', idx' <> idx -> idx' ∈ delete k run <-> idx' ∈ run) as Hothers.
  { intros idx' Hne. split; [by apply list_elem_of_delete_inv|]. intros Hidx'.
    assert (idx' ∈ idx :: delete k run) as Hcons by (by rewrite <- Hperm).
    by apply elem_of_cons in Hcons as [?|?]. }
  split.
  - unfold batchInv. simpl. rewrite Hnow', Hsvc', length_insert, length_delete.
    2: { rewrite Hrun, list_lookup_fmap, Hidx. done. }
    split; [done|]. split; [done|]. split; [done|]. split; [done|].
    split; [done|]. split; [lia|].
    exists (delete k run). split; [by rewrite Hrun, list_fmap_delete|].
    split; [done|]. split; [|split].
    + intros idx' Hidx'. apply Hin. by eapply list_elem_of_delete_inv.
    + intros idx' Hidx' Hnotin.
      destruct (decide (idx' = idx)) as [->|Hne].
      * rewrite list_lookup_insert_eq by lia.
        unfold decisionAt. rewrite Hdec. unfold slotOf.
        rewrite <- Hvalue, Hnow.
        by rewrite (inferenceEvalCase_runner _ _ _ _ _ _ Hrunner).
      * rewrite list_lookup_insert_ne by done. apply Hout; [done|].
        by rewrite <- Hothers.
    + exists (t ++ tp ++ [ObsWgDone idx]).
      split; [by rewrite Htrace', Htrace, <- app_assoc|].
      intros idx'. rewrite !count_app, Hsignals.
      rewrite (inferenceEvalCase_no_signal _ _ _ _ _ _ _ _ idx' Hpipeline).
      destruct (decide (idx' = idx)) as [->|Hne].
      * rewrite count_done_self.
        rewrite decide_False by (intros [_ ?]; done).
        by rewrite decide_True.
      * rewrite count_done_other by done. rewrite !Nat.add_0_r.
        repeat case_decide; try done; exfalso.
        all: match goal with H : ~ _ |- _ => apply H end.
        all: match goal with H : _ /\ _ |- _ => destruct H end; split; [done|].
        all: by rewrite ?Hothers in * by done.
  - simpl. rewrite decide_True by done. rewrite length_delete; [done|].
    rewrite Hrun, list_lookup_fmap, Hidx. done.
Qed.

Lemma rejectedNonNil_prefix ds ds' :
  rejectedNonNil evalCases (ds ++ ds') -> rejectedNonNil evalCases ds.
Proof.
  intros H idx err Hidx Hlt. apply (H idx err); [|done].
  rewrite lookup_app_l; [done|]. by eapply lookup_lt_Some.
Qed.

(** A schedule keeps the invariant; its submissions extend the decisions. *)
Lemma runSchedule_inv sched ds b w :
  Inv ds b w ->
  rejectedNonNil evalCases (ds ++ rejections sched) ->
  exists b' w',
    runSchedule (Some pool) ctx req opts sched b w = Ok (b', w') /\
    Inv (take N (ds ++ rejections sched)) b' w'.
Proof.
  revert ds b w. induction sched as [|[rejection|k] sched IH]; intros ds b w Hinv Hnonnil.
  - exists b, w. split; [done|]. simpl. rewrite app_nil_r.
    rewrite take_ge; [done|]. by destruct Hinv as (_ & _ & _ & ? & _).
  - simpl in *.
    destruct (submitStep_inv ds b w rejection Hinv) as (b1 & w1 & Hstep & Hinv1 & _).
    { eapply rejectedNonNil_prefix. rewrite <- app_assoc. exact Hnonnil. }
    destruct (decide (length ds < N)) as [Hlt|Hge].
    + rewrite take_ge in Hinv1 by (rewrite length_app; simpl; lia).
      destruct (IH _ b1 w1 Hinv1) as (b' & w' & Hrun & Hinv').
      { by rewrite <- app_assoc. }
      exists b', w'. split; [|by rewrite <- app_assoc in Hinv'].
      unfold step. m_unfold. by rewrite Hstep.
    + assert (length ds = N) as Heq
        by (destruct Hinv as (_ & _ & _ & ? & _); lia).
      rewrite <- Heq, take_app_length in Hinv1.
      destruct (IH _ b1 w1 Hinv1) as (b' & w' & Hrun & Hinv').
      { intros idx err Hidx Hlt. apply (Hnonnil idx err); [|done].
        apply lookup_app_Some in Hidx as [Hidx|[Hge' _]]; [|lia].
        by apply lookup_app_l_Some. }
      exists b', w'. split; [unfold step; m_unfold; by rewrite Hstep|].
      rewrite <- Heq in *. by rewrite take_app_length in *.
  - simpl in *.
    destruct (workStep_inv ds b w k Hinv) as (b1 & w1 & Hstep & Hinv1 & _).
    destruct (IH _ b1 w1 Hinv1 Hnonnil) as (b' & w' & Hrun & Hinv').
    exists b', w'. split; [|done]. unfold step. m_unfold. by rewrite Hstep.
Qed.

Lemma runSchedule_app sched1 sched2 b w :
  runSchedule (Some pool) ctx req opts (sched1 ++ sched2) b w =
    match runSchedule (Some pool) ctx req opts sched1 b w with
    | Ok (b', w') => runSchedule (Some pool) ctx req opts sched2 b' w'
    | Panic msg => Panic msg
    end.
Proof.
  revert b w. induction sched1 as [|a sched1 IH]; intros b w; [done|].
  simpl. m_unfold. destruct (step _ _ _ _ a b w) as [[b1 w1]|]; [|done].
  apply IH.
Qed.

Lemma rejectedNonNil_accept ds n :
  rejectedNonNil evalCases ds -> rejectedNonNil evalCases (ds ++ replicate n None).
Proof.
  intros H idx err Hidx Hlt.
  apply lookup_app_Some in Hidx as [Hidx|[_ Hidx]]; [by eapply H|].
  by apply lookup_replicate_1 in Hidx as [? _].
Qed.

(** The workers finish the tasks in flight. *)
Lemma work_all n ds b w :
  Inv ds b w -> length (b_running b) = n ->
  exists b' w',
    runSchedule (Some pool) ctx req opts (replicate n (Work 0)) b w = Ok (b', w') /\
    Inv ds b' w' /\ b_running b' = [].
Proof.
  revert b w. induction n as [|n IH]; intros b w Hinv Hlen.
  - exists b, w. split; [done|]. split; [done|]. by apply nil_length_inv.
  - destruct (workStep_inv ds b w 0 Hinv) as (b1 & w1 & Hstep & Hinv1 & Hlen1).
    rewrite decide_True in Hlen1 by lia.
    destruct (IH b1 w1 Hinv1) as (b' & w' & Hrun & Hinv' & Hdone); [lia|].
    exists b', w'. split; [|done]. simpl. m_unfold. by rewrite Hstep.
Qed.

(** The rest of the loop, each task being run as soon as it is accepted. *)
Lemma submit_all m ds b w :
  Inv ds b w -> rejectedNonNil evalCases ds -> b_running b = [] ->
  m = N - length ds ->
  exists b' w',
    runSchedule (Some pool) ctx req opts
      (concat (replicate m [Submit None; Work 0])) b w = Ok (b', w') /\
    Inv (ds ++ replicate m None) b' w' /\ b_running b' = [].
Proof.
  revert ds b w. induction m as [|m IH]; intros ds b w Hinv Hnonnil Hidle Hm.
  - exists b, w. split; [done|]. simpl. by rewrite app_nil_r.
  - destruct (submitStep_inv ds b w None Hinv) as (b1 & w1 & Hstep1 & Hinv1 & Hlen1).
    { by apply (rejectedNonNil_accept ds 1). }
    rewrite take_ge in Hinv1 by (rewrite length_app; simpl; lia).
    rewrite decide_True, Hidle in Hlen1 by (split; [lia|done]).
    destruct (workStep_inv _ b1 w1 0 Hinv1) as (b2 & w2 & Hstep2 & Hinv2 & Hlen2).
    rewrite decide_True, Hlen1 in Hlen2 by lia.
    destruct (IH (ds ++ [None]) b2 w2 Hinv2) as (b' & w' & Hrun & Hinv' & Hdone).
    { by apply (rejectedNonNil_accept ds 1). }
    { by apply nil_length_inv. }
    { rewrite length_app. simpl. lia. }
    exists b', w'. split; [|split; [|done]].
    + simpl. m_unfold. rewrite Hstep1. simpl. by rewrite Hstep2.
    + by rewrite <- app_assoc in Hinv'.
Qed.

Lemma drain_inv ds b w :
  Inv ds b w -> rejectedNonNil evalCases ds ->
  exists b' w',
    runSchedule (Some pool) ctx req opts (drainSchedule b) b w = Ok (b', w') /\
    Inv (ds ++ replicate (N - length ds) None) b' w' /\
    b_running b' = [] /\ b_rest b' = [].
Proof.
  intros Hinv Hnonnil. unfold drainSchedule. rewrite runSchedule_app.
  destruct (work_all _ ds b w Hinv eq_refl) as (b1 & w1 & Hrun1 & Hinv1 & Hidle).
  rewrite Hrun1.
  assert (length (b_rest b) = N - length ds) as Hrest.
  { destruct Hinv as (_ & _ & _ & _ & -> & _).
    by rewrite length_drop, length_zip_with, length_seq, Nat.min_id. }
  destruct (submit_all _ ds b1 w1 Hinv1 Hnonnil Hidle Hrest)
    as (b' & w' & Hrun & Hinv' & Hdone).
  exists b', w'. split; [done|]. split; [by rewrite <- Hrest|].
  split; [done|].
  destruct Hinv' as (_ & _ & _ & Hle & -> & _).
  destruct Hinv as (_ & _ & _ & Hle' & _).
  apply drop_tasks_all. rewrite length_app, length_replicate. lia.
Qed.

(** The whole batch from a state of the invariant: it completes, every task
    has run, the WaitGroup is back to zero, every slot holds the result of
    its case, and the trace added since [trace0] holds exactly one signal of
    the WaitGroup for every case. *)
Lemma runBatch_inv sched ds b w :
  Inv ds b w ->
  rejectedNonNil evalCases (ds ++ rejections sched) ->
  exists b' w',
    runBatch (Some pool) ctx req opts sched b w = Ok (b', w') /\
    length (b_results b') = N /\
    b_running b' = [] /\ b_rest b' = [] /\ b_wg b' = 0%Z /\
    (forall idx, idx < N ->
      b_results b' !! idx =
        Some (slotOf s ctx req opts now (decisionAt (ds ++ rejections sched) idx)
                (caseAt evalCases idx))) /\
    exists t,
      w_trace w' = trace0 ++ t /\
      forall idx, count (isWgDone idx) t = if decide (idx < N) then 1 else 0.
Proof.
  intros Hinv Hnonnil. unfold runBatch. m_unfold.
  destruct (runSchedule_inv sched ds b w Hinv Hnonnil) as (b1 & w1 & Hrun1 & Hinv1).
  rewrite Hrun1.
  destruct (drain_inv _ b1 w1 Hinv1) as (b' & w' & Hrun & Hinv' & Hidle & Hrest).
  { intros idx err [Hidx _]%lookup_take_Some Hlt. by apply (Hnonnil idx err). }
  exists b', w'. split; [done|].
  destruct Hinv' as (_ & _ & Hlen & Hle & _ & Hwg & run & Hrunning & _ & _ & Hout
                     & t & Htrace & Hsignals).
  rewrite Hidle in Hwg, Hrunning.
  destruct run; [|done].
  rewrite length_app, length_replicate, length_take in Hout, Hsignals.
  split; [done|]. split; [done|]. split; [done|]. split; [done|]. split.
  - intros idx Hidx.
    rewrite Hout by (lia || apply not_elem_of_nil). do 2 f_equal.
    unfold decisionAt.
    destruct (decide (idx < length (ds ++ rejections sched))) as [Hlt|Hge].
    + rewrite lookup_app_l by (rewrite length_take; lia).
      by rewrite lookup_take_lt.
    + rewrite lookup_app_r by (rewrite length_take; lia).
      rewrite lookup_replicate_2 by (rewrite length_take; lia).
      rewrite lookup_ge_None_2 by lia. done.
  - exists t. split; [done|]. intros idx. rewrite Hsignals.
    repeat case_decide; try done; exfalso.
    + match goal with H : ~ _ |- _ => apply H end. lia.
    + match goal with H : ~ _ |- _ => apply H end.
      split; [lia|apply not_elem_of_nil].
Qed.

End Invariant.

(** ** The results of the two executors *)

Lemma ensureEvalCaseInferencePool_world size w :
  exists pool err w',
    ensureEvalCaseInferencePool size w = Ok (pool, err, w') /\
    w_now w' = w_now w /\ w_trace w' = w_trace w /\
    runner (w_svc w') = runner (w_svc w).
Proof.
  unfold ensureEvalCaseInferencePool. eexists _, _, _. split; [reflexivity|].
  split; [done|]. split; [done|]. simpl.
  destruct (evalCaseInferencePoolOnce (w_svc w)); [done|].
  unfold initEvalCaseInferencePool. simpl.
  destruct (evalCaseInferencePool (w_svc w)); [done|].
  destruct (createEvalCaseInferencePool _ _); done.
Qed.

Lemma rejectedNonNil_all evalCases decisions :
  Forall is_Some evalCases -> rejectedNonNil evalCases decisions.
Proof.
  intros Hcases idx err _ Hidx. unfold caseAt.
  destruct (lookup_lt_is_Some_2 evalCases idx Hidx) as [evalCase Hcase].
  rewrite Hcase. simpl. rewrite Forall_forall in Hcases.
  apply Hcases. by eapply list_elem_of_lookup_2.
Qed.

Lemma rejectedNonNil_none evalCases sched :
  (forall idx, rejectionOf sched idx = None) ->
  rejectedNonNil evalCases (rejections sched).
Proof.
  intros Hnone idx err Hidx _. specialize (Hnone idx).
  unfold rejectionOf, decisionAt in Hnone. by rewrite Hidx in Hnone.
Qed.

Lemma inferenceEvalCase_id s ctx req evalCase opts now r t :
  inferenceEvalCase s ctx req (Some evalCase) opts now = Ok (r, t) ->
  res_EvalCaseID r = ec_EvalID evalCase.
Proof.
  intros Hrun.
  destruct (opt_SessionIDSupplier opts) as [supplier|] eqn:Hsup.
  2: { unfold inferenceEvalCase, callSessionIDSupplier in Hrun.
       by rewrite Hsup in Hrun. }
  destruct (cb_RunBeforeInferenceCase (opt_Callbacks opts) ctx
              (beforeCaseArgs req evalCase (supplier ctx))) as [res [e|]] eqn:Hbefore.
  { erewrite inferenceEvalCase_before_error in Hrun by done.
    by injection Hrun as <- _. }
  destruct (inferenceEvalCaseBody_spec s (caseContext ctx res) req evalCase opts
              (supplier ctx) now) as (result & err & t0 & Hbody & Hpost & _).
  erewrite inferenceEvalCase_run in Hrun by done. injection Hrun as <- _.
  assert (res_EvalCaseID result = ec_EvalID evalCase) as Hid.
  { unfold bodyPost in Hpost. destruct err as [e|].
    - by destruct Hpost as [-> _].
    - by destruct Hpost as [inferences ->]. }
  by destruct (cb_RunAfterInferenceCase _ _ _).
Qed.

Lemma inferEvalCasesSerialLoop_spec s ctx req evalCases opts results now supplier :
  opt_SessionIDSupplier opts = Some supplier ->
  exists t,
    inferEvalCasesSerialLoop s ctx req evalCases opts results now =
      Ok (results ++
          map (fun evalCase => value (inferenceEvalCase s ctx req evalCase opts) now)
              evalCases, t).
Proof.
  intros Hsup. revert results.
  induction evalCases as [|evalCase rest IH]; intros results; simpl.
  - exists []. by rewrite app_nil_r.
  - destruct (inferenceEvalCase_value s ctx req evalCase opts now supplier Hsup)
      as (r & t & Hrun & Hvalue).
    destruct (IH (results ++ [Some r])) as (t' & Hloop).
    exists (t ++ t'). rewrite Hvalue.
    erewrite eff_bind_ok; [|exact Hrun|exact Hloop].
    by rewrite <- app_assoc.
Qed.

Lemma inferEvalCasesSerial_spec s ctx req evalCases opts now supplier :
  opt_SessionIDSupplier opts = Some supplier ->
  exists t,
    inferEvalCasesSerial s ctx req evalCases opts now =
      Ok (Some (map (fun evalCase =>
                       value (inferenceEvalCase s ctx req evalCase opts) now)
                    evalCases), None, t).
Proof.
  intros Hsup. unfold inferEvalCasesSerial.
  destruct (inferEvalCasesSerialLoop_spec s ctx req evalCases opts [] now supplier
              Hsup) as (t & Hloop).
  exists (t ++ []). erewrite eff_bind_ok; [|exact Hloop|reflexivity]. done.
Qed.

(** The parallel executor under any schedule, once the pool is there. *)
Lemma inferEvalCasesParallel_spec sched ctx req evalCases opts w pool w1 supplier :
  opt_SessionIDSupplier opts = Some supplier ->
  rejectedNonNil evalCases (rejections sched) ->
  ensureEvalCaseInferencePool (opt_EvalCaseParallelism opts) w
    = Ok (Some pool, None, w1) ->
  exists results w',
    inferEvalCasesParallel sched ctx req evalCases opts w
      = Ok (Some results, None, w') /\
    length results = length evalCases /\
    forall idx, idx < length evalCases ->
      results !! idx =
        Some (slotOf (w_svc w) ctx req opts (w_now w) (rejectionOf sched idx)
                (caseAt evalCases idx)).
Proof.
  intros Hsup Hnonnil Hensure.
  destruct (ensureEvalCaseInferencePool_world (opt_EvalCaseParallelism opts) w)
    as (pool' & err' & w1' & Hensure' & Hnow & _ & Hrunner).
  rewrite Hensure in Hensure'. injection Hensure' as <- <- <-.
  destruct (runBatch_inv pool (w_svc w) ctx req opts (w_now w) evalCases
              (w_trace w1) supplier Hsup sched [] (initBatch evalCases) w1)
    as (b' & w' & Hrun & Hlen & _ & _ & _ & Hslots & _).
  { by apply batchInv_init. }
  { done. }
  exists (b_results b'), w'.
  split; [|done].
  unfold inferEvalCasesParallel. m_unfold. rewrite Hensure. by rewrite Hrun.
Qed.

(** C1: under the parallel strategy, whatever the schedule, the results
    array has one slot per case, and slot [idx] holds the result produced for
    case [idx]: what the pipeline returns for it, or the failure written for
    it when its submission was rejected. *)
Theorem parallel_results_in_input_order
    sched ctx req evalCases opts w pool w1 supplier :
  opt_SessionIDSupplier opts = Some supplier ->
  Forall is_Some evalCases ->
  ensureEvalCaseInferencePool (opt_EvalCaseParallelism opts) w
    = Ok (Some pool, None, w1) ->
  exists results w',
    inferEvalCasesParallel sched ctx req evalCases opts w
      = Ok (Some results, None, w') /\
    length results = length evalCases /\
    forall idx evalCase,
      evalCases !! idx = Some (Some evalCase) ->
      exists r,
        results !! idx = Some (Some r) /\
        res_EvalCaseID r = ec_EvalID evalCase /\
        match rejectionOf sched idx with
        | Some err => r = rejectedResult req (supplier ctx) evalCase err
        | None =>
            value (inferenceEvalCase (w_svc w) ctx req (Some evalCase) opts)
                  (w_now w) = Some r
        end.
Proof.
  intros Hsup Hcases Hensure.
  destruct (inferEvalCasesParallel_spec sched ctx req evalCases opts w pool w1
              supplier Hsup (rejectedNonNil_all _ _ Hcases) Hensure)
    as (results & w' & Hrun & Hlen & Hslots).
  exists results, w'. split; [done|]. split; [done|].
  intros idx evalCase Hcase.
  rewrite Hslots by (by eapply lookup_lt_Some).
  unfold caseAt. rewrite Hcase. simpl.
  destruct (rejectionOf sched idx) as [err|]; simpl.
  - rewrite Hsup. eexists. split; [reflexivity|]. done.
  - destruct (inferenceEvalCase_value (w_svc w) ctx req (Some evalCase) opts
                (w_now w) supplier Hsup) as (r & t & Hpipeline & Hvalue).
    exists r. rewrite Hvalue. split; [done|]. split; [|done].
    by eapply inferenceEvalCase_id.
Qed.

Lemma parallel_results_in_input_order_witness :
  let evalCases :=
    [Some (withCase EvalModeTrace [] testSession [] (makeEvalCase "case-1" "one"));
     Some (makeEvalCase "case-2" "two")] in
  exists results w',
    inferEvalCasesParallel [Submit None; Submit None; Work 1; Work 0] ∅ testRequest
      evalCases (testOptions noCallbacks [])
      (testWorld (testService failingManager noCallbacks true))
      = Ok (Some results, None, w') /\
    length results = 2 /\
    (exists r, results !! 0 = Some (Some r) /\ res_EvalCaseID r = "case-1") /\
    (exists r, results !! 1 = Some (Some r) /\ res_EvalCaseID r = "case-2").
Proof.
  intros evalCases.
  edestruct (parallel_results_in_input_order
               [Submit None; Submit None; Work 1; Work 0] ∅ testRequest evalCases
               (testOptions noCallbacks [])
               (testWorld (testService failingManager noCallbacks true)))
    as (results & w' & Hrun & Hlen & Hslots).
  - reflexivity.
  - repeat constructor; eexists; reflexivity.
  - reflexivity.
  - exists results, w'. split; [exact Hrun|]. split; [exact Hlen|]. split.
    + destruct (Hslots 0 _ eq_refl) as (r & Hr & Hid & _). by exists r.
    + destruct (Hslots 1 _ eq_refl) as (r & Hr & Hid & _). by exists r.
Defined.

(** C2, as the code has it: when the pool accepts every submission, the
    parallel strategy, under any schedule, and the serial strategy return the
    same results at every index. *)
Theorem serial_and_parallel_results_agree
    sched ctx req evalCases opts w pool w1 supplier :
  opt_SessionIDSupplier opts = Some supplier ->
  ensureEvalCaseInferencePool (opt_EvalCaseParallelism opts) w
    = Ok (Some pool, None, w1) ->
  (forall idx, rejectionOf sched idx = None) ->
  exists results w' t,
    inferEvalCasesParallel sched ctx req evalCases opts w
      = Ok (Some results, None, w') /\
    inferEvalCasesSerial (w_svc w) ctx req evalCases opts (w_now w)
      = Ok (Some results, None, t).
Proof.
  intros Hsup Hensure Hnone.
  destruct (inferEvalCasesParallel_spec sched ctx req evalCases opts w pool w1
              supplier Hsup (rejectedNonNil_none _ _ Hnone) Hensure)
    as (results & w' & Hrun & Hlen & Hslots).
  destruct (inferEvalCasesSerial_spec (w_svc w) ctx req evalCases opts (w_now w)
              supplier Hsup) as (t & Hserial).
  exists results, w', t. split; [done|]. rewrite Hserial. do 4 f_equal.
  apply list_eq. intros idx.
  change (map ?f evalCases) with (f <$> evalCases). rewrite list_lookup_fmap.
  destruct (decide (idx < length evalCases)) as [Hlt|Hge].
  - rewrite Hslots, Hnone by done. unfold caseAt.
    by destruct (lookup_lt_is_Some_2 evalCases idx Hlt) as [evalCase ->].
  - rewrite !lookup_ge_None_2 by lia. done.
Qed.

Lemma serial_and_parallel_results_agree_witness :
  let evalCases :=
    [Some (withCase EvalModeTrace [] testSession [] (makeEvalCase "case-1" "one"));
     None; Some (makeEvalCase "case-2" "two")] in
  exists results w' t,
    inferEvalCasesParallel [Submit None; Work 0; Submit None; Submit None; Work 1]
      ∅ testRequest evalCases (testOptions noCallbacks [])
      (testWorld (testService failingManager noCallbacks true))
      = Ok (Some results, None, w') /\
    inferEvalCasesSerial (testService failingManager noCallbacks true) ∅
      testRequest evalCases (testOptions noCallbacks []) 123
      = Ok (Some results, None, t).
Proof.
  intros evalCases.
  eapply (serial_and_parallel_results_agree
            [Submit None; Work 0; Submit None; Submit None; Work 1] ∅ testRequest
            evalCases (testOptions noCallbacks [])
            (testWorld (testService failingManager noCallbacks true))).
  - reflexivity.
  - reflexivity.
  - intros idx. unfold rejectionOf, decisionAt. simpl.
    destruct idx as [|[|[|idx]]]; reflexivity.
Defined.

(** C2, as the claim has it, fails: a submission the pool rejects is failed
    by the parallel strategy, while the serial strategy passes the case. *)
Lemma serial_and_parallel_rejection_counterexample :
  let evalCases :=
    [Some (withCase EvalModeTrace [] testSession [] (makeEvalCase "case-1" "one"))] in
  exists parallel w' serial t,
    inferEvalCasesParallel [Submit (Some "ants: pool closed")] ∅ testRequest
      evalCases (testOptions noCallbacks [])
      (testWorld (testService failingManager noCallbacks true))
      = Ok (Some parallel, None, w') /\
    inferEvalCasesSerial (testService failingManager noCallbacks true) ∅
      testRequest evalCases (testOptions noCallbacks []) 123
      = Ok (Some serial, None, t) /\
    map (option_map res_Status) parallel = [Some EvalStatusFailed] /\
    map (option_map res_Status) serial = [Some EvalStatusPassed].
Proof.
  eexists _, _, _, _. split; [reflexivity|]. split; [reflexivity|]. done.
Qed.

(** ** A rejected submission *)

(** C5: when the pool rejects the submission of a case, in that same step
    the loop writes the failure that wraps the rejection into the slot of the
    case, signals the WaitGroup once for it (the counter is back where it was),
    and puts the task parameter, reset, back into the parameter pool; the loop
    goes on with the next case, and the batch completes: every task has run,
    the WaitGroup is at zero, the slot still holds that failure, and over the
    whole batch the WaitGroup was signalled exactly once for the rejected case,
    as for every other case.  The failure in the slot is spelled out: its
    status is failed, its message is the rejection error behind the text that
    names the submission and the case, its inferences are nil, and it carries
    the identity of the case. *)
Theorem rejected_submission_completes
    pre post err ctx req evalCases opts w b wb pool supplier idx evalCase rest :
  opt_SessionIDSupplier opts = Some supplier ->
  Forall is_Some evalCases ->
  runSchedule (Some pool) ctx req opts pre (initBatch evalCases) w = Ok (b, wb) ->
  b_rest b = (idx, Some evalCase) :: rest ->
  exists b' wb' bf wf,
    submitStep (Some pool) ctx req opts (Some err) b wb = Ok (b', wb') /\
    evalCases !! idx = Some (Some evalCase) /\
    b_results b' =
      <[idx := Some (rejectedResult req (supplier ctx) evalCase err)]> (b_results b) /\
    b_results b' !! idx = Some (Some (rejectedResult req (supplier ctx) evalCase err)) /\
    w_trace wb' = w_trace wb ++ [ObsWgAdd; ObsInvoke idx (Some err); ObsWgDone idx] /\
    b_wg b' = b_wg b /\
    w_paramPool wb' =
      reset (taskParam ctx req opts idx (Some evalCase)) :: tail (w_paramPool wb) /\
    reset (taskParam ctx req opts idx (Some evalCase)) = zeroParam /\
    b_rest b' = rest /\
    b_running b' = b_running b /\
    runBatch (Some pool) ctx req opts post b' wb' = Ok (bf, wf) /\
    length (b_results bf) = length evalCases /\
    b_running bf = [] /\ b_rest bf = [] /\ b_wg bf = 0%Z /\
    b_results bf !! idx = Some (Some (rejectedResult req (supplier ctx) evalCase err)) /\
    (exists t,
       w_trace wf = w_trace w ++ t /\
       count (isWgDone idx) t = 1 /\
       forall idx', idx' < length evalCases -> count (isWgDone idx') t = 1) /\
    exists r,
      b_results b' !! idx = Some (Some r) /\
      b_results bf !! idx = Some (Some r) /\
      res_Status r = EvalStatusFailed /\
      res_ErrorMessage r =
        "submit inference task for eval case " +:+ ec_EvalID evalCase +:+ ": " +:+
        err /\
      res_Inferences r = None /\
      res_EvalCaseID r = ec_EvalID evalCase /\
      res_AppName r = req_AppName req /\
      res_EvalSetID r = req_EvalSetID req /\
      res_SessionID r = supplier ctx.
Proof.
  intros Hsup Hcases Hpre Hrest.
  destruct (runSchedule_inv pool (w_svc w) ctx req opts (w_now w) evalCases
              (w_trace w) supplier Hsup pre [] (initBatch evalCases) w)
    as (b0 & wb0 & Hpre' & Hinv).
  { by apply batchInv_init. }
  { by apply rejectedNonNil_all. }
  rewrite Hpre in Hpre'. injection Hpre' as <- <-.
  set (ds := take (length evalCases) ([] ++ rejections pre)) in Hinv.
  pose proof Hinv as (_ & _ & Hlen & Hle & Hrest' & Hwg & _).
  assert (length ds < length evalCases) as Hlt.
  { destruct (decide (length ds < length evalCases)); [done|].
    rewrite drop_tasks_all in Hrest' by lia. congruence. }
  rewrite drop_tasks in Hrest' by done. rewrite Hrest in Hrest'.
  injection Hrest' as -> Hcase Hrest'.
  assert (evalCases !! length ds = Some (Some evalCase)) as Hlookup.
  { unfold caseAt in Hcase.
    destruct (lookup_lt_is_Some_2 evalCases _ Hlt) as [x Hx].
    rewrite Hx in Hcase |- *. simpl in Hcase. by subst x. }
  destruct (submitStep_reject pool ctx req opts b wb _ _ _ err supplier Hrest)
    as (wb' & Hstep & Htrace & Hparams & _); [lia|done|lia|].
  destruct (submitStep_inv pool (w_svc w) ctx req opts (w_now w) evalCases
              (w_trace w) supplier Hsup ds b wb (Some err) Hinv)
    as (b1 & wb1 & Hstep' & Hinv' & _).
  { by apply rejectedNonNil_all. }
  rewrite Hstep in Hstep'. injection Hstep' as <- <-.
  rewrite take_ge in Hinv' by (rewrite length_app; simpl; lia).
  destruct (runBatch_inv pool (w_svc w) ctx req opts (w_now w) evalCases
              (w_trace w) supplier Hsup post _ _ wb' Hinv')
    as (bf & wf & Hbatch & Hlenf & Hidle & Hdone & Hwgf & Hslots
        & t & Htracef & Hsignals).
  { by apply rejectedNonNil_all. }
  eexists _, wb', bf, wf. split; [exact Hstep|]. simpl.
  split; [done|]. split; [done|].
  split; [by rewrite list_lookup_insert_eq by lia|].
  split; [done|]. split; [lia|]. split; [done|]. split; [done|].
  split; [done|]. split; [done|]. split; [done|]. split; [done|].
  split; [done|]. split; [done|]. split; [done|].
  assert (b_results bf !! length ds =
            Some (Some (rejectedResult req (supplier ctx) evalCase err))) as Hslot.
  { rewrite Hslots by done. unfold decisionAt.
    rewrite lookup_app_l by (rewrite length_app; simpl; lia).
    rewrite list_lookup_middle by done.
    unfold slotOf. by rewrite <- Hcase, Hsup. }
  split; [done|]. split.
  - exists t. split; [done|].
    split; [|intros idx' Hidx']; by rewrite Hsignals, decide_True.
  - exists (rejectedResult req (supplier ctx) evalCase err).
    split; [by rewrite list_lookup_insert_eq by lia|]. split; [done|].
    split; [done|]. split; [|done].
    unfold rejectedResult, newFailedInferenceResult, wrap. simpl.
    by rewrite !append_assoc.
Qed.

Lemma rejected_submission_completes_witness :
  let evalCases :=
    [Some (makeEvalCase "case-1" "one"); Some (makeEvalCase "case-2" "two")] in
  let w := testWorld (testService failingManager noCallbacks true) in
  exists b wb b' wb' bf wf,
    runSchedule (Some {| pool_size := 2 |}) ∅ testRequest
      (testOptions noCallbacks []) [Submit None] (initBatch evalCases) w
      = Ok (b, wb) /\
    submitStep (Some {| pool_size := 2 |}) ∅ testRequest
      (testOptions noCallbacks []) (Some "ants: pool closed") b wb = Ok (b', wb') /\
    runBatch (Some {| pool_size := 2 |}) ∅ testRequest
      (testOptions noCallbacks []) [] b' wb' = Ok (bf, wf) /\
    b_wg bf = 0%Z /\
    option_map (option_map res_Status) (b_results bf !! 1)
      = Some (Some EvalStatusFailed) /\
    exists r,
      b_results bf !! 1 = Some (Some r) /\
      res_Status r = EvalStatusFailed /\
      res_ErrorMessage r =
        "submit inference task for eval case case-2: ants: pool closed" /\
      res_Inferences r = None /\
      res_EvalCaseID r = "case-2".
Proof.
  intros evalCases w.
  edestruct (rejected_submission_completes [Submit None] [] "ants: pool closed" ∅
               testRequest evalCases (testOptions noCallbacks []) w)
    as (b' & wb' & bf & wf & Hstep & _ & _ & _ & _ & _ & _ & _ & _ & _
        & Hbatch & _ & _ & _ & Hwg & Hslot & _ & r & _ & Hr & Hstatus & Hmessage
        & Hinferences & Hid & _).
  - reflexivity.
  - repeat constructor; eexists; reflexivity.
  - reflexivity.
  - reflexivity.
  - eexists _, _, b', wb', bf, wf. split; [reflexivity|].
    split; [exact Hstep|]. split; [exact Hbatch|]. split; [exact Hwg|].
    split; [rewrite Hslot; reflexivity|].
    exists r. split; [exact Hr|]. split; [exact Hstatus|].
    split; [exact Hmessage|]. split; [exact Hinferences|exact Hid].
Defined.

(** ** The cases a request loads *)

Lemma filterEvalCases_nonnil keep evalCases :
  Forall is_Some (filterEvalCases keep evalCases).
Proof.
  induction evalCases as [|[evalCase|] rest IH]; simpl; [constructor| |done].
  destruct (keep evalCase); [|done]. constructor; [by eexists|done].
Qed.

(** ** Inference *)

Lemma setSvc_id w : setSvc (w_svc w) w = w.
Proof. by destruct w. Qed.

Lemma resolveInferenceOptions_total opt w :
  poolMemoConsistent (w_svc w) ->
  exists res w',
    resolveInferenceOptions opt w = Ok (res, w') /\
    w_now w' = w_now w /\ w_trace w' = w_trace w /\
    runner (w_svc w') = runner (w_svc w) /\
    forall callOpts, res = inl callOpts -> resolved callOpts w'.
Proof.
  intros Hmemo. unfold resolveInferenceOptions. m_unfold.
  set (callOpts := applyOptions opt (serviceDefaults (w_svc w))).
  destruct (opt_EvalSetManager callOpts) as [mgr|] eqn:Hmgr;
    [|by eexists _, _].
  destruct (opt_SessionIDSupplier callOpts) as [supplier|] eqn:Hsup;
    [|by eexists _, _].
  destruct (opt_EvalCaseParallelInferenceEnabled callOpts) eqn:Hparallel.
  2: { eexists _, _. split; [reflexivity|]. do 3 (split; [done|]).
       intros ? [= <-]. unfold resolved. rewrite Hmgr, Hsup, Hparallel.
       split; [by eexists|]. split; [by eexists|]. done. }
  destruct (bool_decide _); [by eexists _, _|].
  unfold ensureEvalCaseInferencePool.
  set (s' := if evalCaseInferencePoolOnce (w_svc w) then _ else _).
  assert (runner s' = runner (w_svc w)) as Hrunner.
  { subst s'. destruct (evalCaseInferencePoolOnce (w_svc w)); [done|].
    unfold initEvalCaseInferencePool. simpl.
    destruct (evalCaseInferencePool (w_svc w)); [done|].
    by destruct (createEvalCaseInferencePool _ _). }
  assert (evalCaseInferencePoolOnce s' = true /\
          (evalCaseInferencePoolErr s' = None -> is_Some (evalCaseInferencePool s')))
    as [Honce Hpool].
  { subst s'. destruct (evalCaseInferencePoolOnce (w_svc w)) eqn:Honce.
    - split; [done|]. intros Herr. destruct (Hmemo Honce) as [?|[e He]]; [done|].
      congruence.
    - unfold initEvalCaseInferencePool. simpl.
      destruct (evalCaseInferencePool (w_svc w)) eqn:Hp; simpl.
      + rewrite Hp. split; [done|]. by eexists.
      + destruct (createEvalCaseInferencePool _ _); simpl; [|done].
        split; [done|]. by eexists. }
  destruct (evalCaseInferencePoolErr s') as [err|] eqn:Herr.
  { eexists _, _. split; [reflexivity|]. by do 3 (split; [done|]). }
  eexists _, _. split; [reflexivity|]. do 3 (split; [done|]).
  intros ? [= <-]. unfold resolved. rewrite Hmgr, Hsup.
  split; [by eexists|]. split; [by eexists|]. intros _.
  destruct Hpool as [pool Hpool]; [done|]. exists pool. intros size.
  unfold ensureEvalCaseInferencePool. simpl. rewrite Honce, Hpool, Herr.
  reflexivity.
Qed.

Lemma resolved_addTrace callOpts t w :
  resolved callOpts w -> resolved callOpts (addTrace t w).
Proof.
  intros (Hmgr & Hsup & Hpool). split; [done|]. split; [done|].
  intros Hparallel. destruct (Hpool Hparallel) as [pool Hensure].
  exists pool. intros size. specialize (Hensure size).
  unfold ensureEvalCaseInferencePool in *. simpl.
  injection Hensure as Hp He Hw. rewrite Hp, He. do 2 f_equal.
  apply (f_equal w_svc) in Hw. simpl in Hw.
  unfold setSvc, addTrace. simpl. by rewrite Hw.
Qed.

Lemma lift_ok {A} (m : Eff A) w a t :
  m (w_now w) = Ok (a, t) -> lift m w = Ok (a, addTrace t w).
Proof. intros Hm. unfold lift. by rewrite Hm. Qed.

Lemma loadInferenceEvalCases_spec ctx req mgr now :
  exists res,
    loadInferenceEvalCases ctx req (Some mgr) now
      = Ok (res, [ObsGet ctx (req_AppName req) (req_EvalSetID req)]) /\
    match res with
    | inr err => exists e, err = wrap "get eval set" e
    | inl evalCases => Forall is_Some evalCases
    end.
Proof.
  unfold loadInferenceEvalCases. eff_unfold.
  destruct (mgr_Get mgr ctx _ _) as [evalSet|e].
  - destruct (length (req_EvalCaseIDs req) =? 0)%nat;
      (eexists; split; [reflexivity|]); apply filterEvalCases_nonnil.
  - eexists. split; [reflexivity|]. by eexists.
Qed.

(** C3, as the claim has it, fails: with a valid request, valid options and
    before-set callbacks that return no error, an error of the eval-set
    manager is returned as the error of the batch. *)
Lemma inference_load_error_counterexample :
  let w := testWorld (testService failingManager noCallbacks false) in
  exists callOpts w1 w',
    validateInferenceRequest (Some testRequest) = None /\
    resolveInferenceOptions [] w = Ok (inl callOpts, w1) /\
    (cb_RunBeforeInferenceSet (opt_Callbacks callOpts) ∅
       {| bisa_Request := testRequest |}).1.2 = None /\
    Inference [] ∅ (Some testRequest) [] w
      = Ok (None, Some "load inference eval cases: get eval set: eval set not found",
            w').
Proof.
  intros w. exists (serviceDefaults (w_svc w)), w. eexists.
  split; [reflexivity|]. split; [reflexivity|]. split; [reflexivity|].
  cbv. reflexivity.
Qed.

(** ** The tests of inference_test.go, replayed *)

Example before_case_error_marks_case_failed :
  exists r w',
    Inference [] ∅ (Some testRequest) []
      (testWorld (testService (testManager [Some (traceCase "case-1" "prompt")])
                    failingBeforeCase false))
      = Ok (Some [Some r], None, w') /\
    res_Status r = EvalStatusFailed /\
    containsb "before inference case failed" (res_ErrorMessage r) = true /\
    containsb "run before inference case callbacks" (res_ErrorMessage r) = true.
Proof. eexists _, _. split; [cbv; reflexivity|]. by vm_compute. Qed.

Example after_case_error_marks_case_failed :
  exists r w',
    Inference [] ∅ (Some testRequest) []
      (testWorld (testService (testManager [Some (traceCase "case-1" "prompt")])
                    failingAfterCase false))
      = Ok (Some [Some r], None, w') /\
    res_Status r = EvalStatusFailed /\
    res_Inferences r = None /\
    containsb "after inference case failed" (res_ErrorMessage r) = true /\
    containsb "run after inference case callbacks" (res_ErrorMessage r) = true.
Proof. eexists _, _. split; [cbv; reflexivity|]. by vm_compute. Qed.

Example empty_conversation_marks_case_failed :
  exists r w',
    Inference [] ∅ (Some testRequest) []
      (testWorld
         (testService
            (testManager
               [Some {| ec_EvalID := "case-1"; ec_EvalMode := EvalModeDefault;
                        ec_ContextMessages := []; ec_Conversation := [];
                        ec_ActualConversation := [];
                        ec_SessionInput := testSession |}])
            noCallbacks false))
      = Ok (Some [Some r], None, w') /\
    res_Status r = EvalStatusFailed /\
    res_Inferences r = None /\
    containsb "invocations are empty" (res_ErrorMessage r) = true.
Proof. eexists _, _. split; [cbv; reflexivity|]. by vm_compute. Qed.

Example before_set_can_filter_eval_case_ids :
  exists r w',
    Inference [] ∅ (Some testRequest) []
      (testWorld
         (testService
            (testManager [Some (traceCase "case-1" "prompt-1");
                          Some (traceCase "case-2" "prompt-2")])
            filterToCase2 false))
      = Ok (Some [Some r], None, w') /\
    res_EvalCaseID r = "case-2".
Proof. eexists _, _. split; [vm_compute; reflexivity|]. reflexivity. Qed.

Example call_session_id_supplier_overrides_default :
  exists r w',
    Inference [] ∅ (Some testRequest)
      [WithSessionIDSupplier (fun _ => "default-session");
       WithSessionIDSupplier (fun _ => "call-session")]
      (testWorld (testService (testManager [Some (traceCase "case-1" "prompt")])
                    noCallbacks false))
      = Ok (Some [Some r], None, w') /\
    res_SessionID r = "call-session".
Proof. eexists _, _. split; [cbv; reflexivity|]. reflexivity. Qed.

Example before_set_error_returns_error :
  exists err w',
    Inference [] ∅ (Some testRequest) []
      (testWorld
         (testService (testManager [])
            {| cb_RunBeforeInferenceSet :=
                 fun _ args => (None, Some "before inference set failed",
                                bisa_Request args);
               cb_RunAfterInferenceSet := fun _ _ => None;
               cb_RunBeforeInferenceCase := fun _ _ => (None, None);
               cb_RunAfterInferenceCase := fun _ _ => None |} false))
      = Ok (None, Some err, w') /\
    containsb "run before inference set callbacks" err = true /\
    containsb "before inference set failed" err = true.
Proof. eexists _, _. split; [cbv; reflexivity|]. by vm_compute. Qed.

Example parallel_inference_through_the_pool :
  exists r1 r2 w',
    Inference [Submit None; Submit None; Work 1; Work 0] ∅ (Some testRequest) []
      (testWorld
         (testService
            (testManager [Some (traceCase "case-1" "prompt-1");
                          Some (makeEvalCase "case-2" "prompt-2")])
            noCallbacks true))
      = Ok (Some [Some r1; Some r2], None, w') /\
    res_EvalCaseID r1 = "case-1" /\ res_Status r1 = EvalStatusPassed /\
    res_EvalCaseID r2 = "case-2" /\ res_Status r2 = EvalStatusPassed.
Proof. eexists _, _, _. split; [cbv; reflexivity|]. done. Qed.

(** * Further properties of the code *)

(** ** Loading the cases of a request *)

Lemma filterEvalCases_sublist keep evalCases :
  filterEvalCases keep evalCases `sublist_of` evalCases.
Proof.
  induction evalCases as [|[evalCase|] rest IH]; simpl.
  - constructor.
  - destruct (keep evalCase); by constructor.
  - by constructor.
Qed.

Lemma filterEvalCases_elem keep evalCases c :
  c ∈ filterEvalCases keep evalCases <->
  exists evalCase, c = Some evalCase /\ c ∈ evalCases /\ keep evalCase = true.
Proof.
  induction evalCases as [|[evalCase|] rest IH]; simpl.
  - split; [by intros ?%elem_of_nil|by intros (? & _ & ?%elem_of_nil & _)].
  - destruct (keep evalCase) eqn:Hkeep.
    + rewrite elem_of_cons, IH. split.
      * intros [->|(e & -> & Hin & Hk)].
        -- exists evalCase. split; [done|]. split; [left|done].
        -- exists e. split; [done|]. split; [by right|done].
      * intros (e & -> & [Heq|Hin]%elem_of_cons & Hk).
        -- by left.
        -- right. by exists e.
    + rewrite IH. split.
      * intros (e & -> & Hin & Hk). exists e. split; [done|]. split; [by right|done].
      * intros (e & -> & [Heq|Hin]%elem_of_cons & Hk).
        -- injection Heq as ->. congruence.
        -- by exists e.
  - rewrite IH. split.
    + intros (e & -> & Hin & Hk). exists e. split; [done|]. split; [by right|done].
    + intros (e & -> & [Heq|Hin]%elem_of_cons & Hk); [done|]. by exists e.
Qed.

(** X1: when the manager returns the eval set, [loadInferenceEvalCases] calls it
    once and returns the non-nil cases of the set, in the order of the set:
    all of them when the request lists no case ID, those whose ID the request
    lists otherwise.  An ID that names no case of the set is not an error. *)
Theorem loadInferenceEvalCases_selects ctx req mgr evalSet now :
  mgr_Get mgr ctx (req_AppName req) (req_EvalSetID req) = inl evalSet ->
  exists evalCases,
    loadInferenceEvalCases ctx req (Some mgr) now
      = Ok (inl evalCases, [ObsGet ctx (req_AppName req) (req_EvalSetID req)]) /\
    evalCases `sublist_of` es_EvalCases evalSet /\
    forall c, c ∈ evalCases <->
      exists evalCase,
        c = Some evalCase /\ c ∈ es_EvalCases evalSet /\
        (req_EvalCaseIDs req = [] \/ ec_EvalID evalCase ∈ req_EvalCaseIDs req).
Proof.
  intros Hget. unfold loadInferenceEvalCases. eff_unfold. rewrite Hget.
  destruct (req_EvalCaseIDs req) as [|id ids] eqn:Hids; cbn [length Nat.eqb].
  - eexists. split; [reflexivity|]. split; [apply filterEvalCases_sublist|].
    intros c. rewrite filterEvalCases_elem. split.
    + intros (e & -> & Hin & _). exists e. auto.
    + intros (e & -> & Hin & _). by exists e.
  - eexists. split; [reflexivity|]. split; [apply filterEvalCases_sublist|].
    intros c. rewrite filterEvalCases_elem. split.
    + intros (e & -> & Hin & Hk). exists e. split; [done|]. split; [done|].
      right. apply bool_decide_eq_true_1 in Hk. by apply elem_of_list_to_set in Hk.
    + intros (e & -> & Hin & [?|Hk]); [done|]. exists e. split; [done|].
      split; [done|]. apply bool_decide_eq_true_2. by apply elem_of_list_to_set.
Qed.

Lemma loadInferenceEvalCases_selects_witness :
  exists evalCases,
    loadInferenceEvalCases ∅
      {| req_AppName := "app"; req_EvalSetID := "set";
         req_EvalCaseIDs := ["case-2"; "case-9"] |}
      (Some (testManager [Some (makeEvalCase "case-1" "one"); None;
                          Some (makeEvalCase "case-2" "two")])) 123
      = Ok (inl evalCases, [ObsGet ∅ "app" "set"]) /\
    (Some (makeEvalCase "case-2" "two") ∈ evalCases) /\
    ~ (Some (makeEvalCase "case-1" "one") ∈ evalCases).
Proof.
  destruct (loadInferenceEvalCases_selects ∅
              {| req_AppName := "app"; req_EvalSetID := "set";
                 req_EvalCaseIDs := ["case-2"; "case-9"] |}
              (testManager [Some (makeEvalCase "case-1" "one"); None;
                            Some (makeEvalCase "case-2" "two")])
              {| es_EvalCases := [Some (makeEvalCase "case-1" "one"); None;
                                  Some (makeEvalCase "case-2" "two")] |} 123 eq_refl)
    as (evalCases & Hload & _ & Hin).
  exists evalCases. split; [exact Hload|]. split.
  - apply Hin. eexists. split; [reflexivity|]. split.
    + do 2 right. left.
    + right. left.
  - intros (e & [= <-] & _ & [Hnil|Hid])%Hin; [done|].
    apply elem_of_cons in Hid as [?|Hid]; [done|].
    apply elem_of_cons in Hid as [?|Hid]; [done|]. by apply elem_of_nil in Hid.
Defined.

(** ** Seed messages *)

Lemma seedLoop_map idx seed acc :
  seedLoop idx (map Some seed) acc = inl (acc ++ seed).
Proof.
  revert idx acc. induction seed as [|m seed IH]; intros idx acc; simpl.
  - by rewrite app_nil_r.
  - rewrite IH. by rewrite <- app_assoc.
Qed.

Lemma seedLoop_nil idx seed rest acc :
  seedLoop idx (map Some seed ++ None :: rest) acc =
    inr ("context message is nil at index " +:+ pretty (idx + length seed)).
Proof.
  revert idx acc. induction seed as [|m seed IH]; intros idx acc; simpl.
  - by rewrite Nat.add_0_r.
  - rewrite IH. by rewrite Nat.add_succ_r.
Qed.

Lemma seedLoop_inr idx messages acc e :
  seedLoop idx messages acc = inr e ->
  exists seed rest,
    messages = map Some seed ++ None :: rest /\
    e = "context message is nil at index " +:+ pretty (idx + length seed).
Proof.
  revert idx acc. induction messages as [|[m|] messages IH]; intros idx acc; simpl.
  - done.
  - intros (seed & rest & -> & ->)%IH. exists (m :: seed), rest.
    split; [done|]. simpl. by rewrite Nat.add_succ_r.
  - intros [= <-]. exists [], messages. split; [done|]. simpl.
    by rewrite Nat.add_0_r.
Qed.

(** X2: [seedMessagesFromPointers] succeeds exactly on lists without a nil
    message, and then returns the messages pointed to, in order. *)
Theorem seedMessagesFromPointers_dereferences messages seed :
  seedMessagesFromPointers messages = inl seed <-> messages = map Some seed.
Proof.
  split; [apply seedMessagesFromPointers_inl|].
  intros ->. destruct seed as [|m seed]; [done|].
  unfold seedMessagesFromPointers.
  change (map Some (m :: seed)) with (Some m :: map Some seed).
  cbv iota. change (Some m :: map Some seed) with (map Some (m :: seed)).
  by rewrite seedLoop_map.
Qed.

Lemma seedMessagesFromPointers_nil seed rest :
  seedMessagesFromPointers (map Some seed ++ None :: rest) =
    inr ("context message is nil at index " +:+ pretty (length seed)).
Proof.
  unfold seedMessagesFromPointers. destruct seed as [|m seed]; [done|].
  change (map Some (m :: seed) ++ None :: rest)
    with (Some m :: (map Some seed ++ None :: rest)).
  cbv iota.
  change (Some m :: (map Some seed ++ None :: rest))
    with (map Some (m :: seed) ++ None :: rest).
  by rewrite seedLoop_nil.
Qed.

(** X3: [seedMessagesFromPointers] fails exactly on lists with a nil message, and
    the error names the index of the first one. *)
Theorem seedMessagesFromPointers_first_nil messages e :
  seedMessagesFromPointers messages = inr e <->
  exists seed rest,
    messages = map Some seed ++ None :: rest /\
    e = "context message is nil at index " +:+ pretty (length seed).
Proof.
  split.
  - unfold seedMessagesFromPointers. destruct messages as [|m messages]; [done|].
    intros (seed & rest & Heq & ->)%seedLoop_inr. by exists seed, rest.
  - intros (seed & rest & -> & ->). apply seedMessagesFromPointers_nil.
Qed.

(** ** The per-case pipeline: where a result comes from *)

Lemma bodyPost_identifies req sessionID evalCase result err :
  bodyPost req sessionID evalCase result err ->
  identifies req sessionID (ec_EvalID evalCase) result.
Proof.
  unfold bodyPost. destruct err as [e|].
  - by intros [-> _].
  - by intros [inferences ->].
Qed.

Lemma inferenceEvalCase_identifies s ctx req evalCase opts now supplier :
  opt_SessionIDSupplier opts = Some supplier ->
  exists r t,
    inferenceEvalCase s ctx req evalCase opts now = Ok (r, t) /\
    identifies req (supplier ctx) (from_option ec_EvalID "" evalCase) r.
Proof.
  intros Hsup. destruct evalCase as [evalCase|].
  2: { eexists _, _. split; [by apply inferenceEvalCase_nil|]. done. }
  destruct (cb_RunBeforeInferenceCase (opt_Callbacks opts) ctx
              (beforeCaseArgs req evalCase (supplier ctx))) as [res [e|]] eqn:Hbefore.
  { eexists _, _. split; [by eapply inferenceEvalCase_before_error|]. done. }
  destruct (inferenceEvalCaseBody_spec s (caseContext ctx res) req evalCase opts
              (supplier ctx) now) as (result & err & t0 & Hbody & Hpost & _).
  apply bodyPost_identifies in Hpost.
  eexists _, _. split; [by eapply inferenceEvalCase_run|].
  by destruct (cb_RunAfterInferenceCase _ _ _).
Qed.

(** X4: whatever happens to a case, its result carries the app name and the
    eval-set ID of the request, the session ID the supplier gives for the
    context of the call, and the ID of the case (the empty ID for a nil
    case). *)
Theorem case_result_identifies_its_case s ctx req evalCase opts now supplier :
  opt_SessionIDSupplier opts = Some supplier ->
  exists r t,
    inferenceEvalCase s ctx req evalCase opts now = Ok (r, t) /\
    identifies req (supplier ctx) (from_option ec_EvalID "" evalCase) r.
Proof.
  intros Hsup.
  destruct (inferenceEvalCase_total s ctx req evalCase opts now supplier Hsup)
    as (r & t & Hrun).
  exists r, t. split; [done|].
  destruct evalCase as [evalCase|].
  2: { rewrite (inferenceEvalCase_nil _ _ _ _ _ _ Hsup) in Hrun.
       by injection Hrun as <- _. }
  destruct (cb_RunBeforeInferenceCase (opt_Callbacks opts) ctx
              (beforeCaseArgs req evalCase (supplier ctx))) as [res [e|]] eqn:Hbefore.
  { rewrite (inferenceEvalCase_before_error _ _ _ _ _ _ _ _ _ Hsup Hbefore) in Hrun.
    by injection Hrun as <- _. }
  destruct (inferenceEvalCaseBody_spec s (caseContext ctx res) req evalCase opts
              (supplier ctx) now) as (result & err & t0 & Hbody & Hpost & _).
  apply bodyPost_identifies in Hpost.
  rewrite (inferenceEvalCase_run _ _ _ _ _ _ _ _ _ _ _ Hsup Hbefore Hbody) in Hrun.
  injection Hrun as <- _. by destruct (cb_RunAfterInferenceCase _ _ _).
Qed.

Lemma case_result_identifies_its_case_witness :
  exists r t,
    inferenceEvalCase (testService failingManager failingBeforeCase false) ∅
      testRequest (Some (makeEvalCase "case-1" "prompt"))
      (testOptions failingBeforeCase []) 123 = Ok (r, t) /\
    identifies testRequest "session" "case-1" r.
Proof.
  apply (case_result_identifies_its_case
           (testService failingManager failingBeforeCase false) ∅ testRequest
           (Some (makeEvalCase "case-1" "prompt"))
           (testOptions failingBeforeCase []) 123 (fun _ => "session")).
  reflexivity.
Defined.

(** ** The per-case pipeline: cases that never reach the runner *)

Lemma body_session_nil s ctx req evalCase opts sessionID now :
  ec_SessionInput evalCase = None ->
  inferenceEvalCaseBody s ctx req evalCase opts sessionID now =
    Ok (failedBody req sessionID evalCase "session input is nil", []).
Proof. intros Hsession. unfold inferenceEvalCaseBody. by rewrite Hsession. Qed.

Lemma body_trace_expected s ctx req evalCase opts sessionID now session :
  ec_SessionInput evalCase = Some session ->
  ec_EvalMode evalCase = EvalModeTrace ->
  ec_ActualConversation evalCase = [] ->
  inferenceEvalCaseBody s ctx req evalCase opts sessionID now =
    Ok (match ec_Conversation evalCase with
        | [] => failedBody req sessionID evalCase "invocations are empty"
        | _ =>
            (passedWith
               (newInferenceResult (req_AppName req) (req_EvalSetID req)
                  sessionID evalCase)
               (ec_Conversation evalCase), None)
        end, []).
Proof.
  intros Hsession Hmode Hactual. unfold inferenceEvalCaseBody.
  rewrite Hsession, Hmode, Hactual. simpl.
  by destruct (ec_Conversation evalCase).
Qed.

Lemma body_empty_conversation s ctx req evalCase opts sessionID now session :
  ec_SessionInput evalCase = Some session ->
  ec_ActualConversation evalCase = [] ->
  ec_Conversation evalCase = [] ->
  inferenceEvalCaseBody s ctx req evalCase opts sessionID now =
    Ok (failedBody req sessionID evalCase "invocations are empty", []).
Proof.
  intros Hsession Hactual Hconv. unfold inferenceEvalCaseBody.
  rewrite Hsession, Hactual, Hconv. simpl.
  by destruct (ec_EvalMode evalCase).
Qed.

Lemma body_nil_context_message s ctx req evalCase opts sessionID now session e :
  ec_SessionInput evalCase = Some session ->
  ec_EvalMode evalCase = EvalModeDefault ->
  ec_ActualConversation evalCase = [] ->
  ec_Conversation evalCase <> [] ->
  seedMessagesFromPointers (ec_ContextMessages evalCase) = inr e ->
  inferenceEvalCaseBody s ctx req evalCase opts sessionID now =
    Ok (failedBody req sessionID evalCase e, []).
Proof.
  intros Hsession Hmode Hactual Hconv Hseed. unfold inferenceEvalCaseBody.
  rewrite Hsession, Hmode, Hactual, Hseed. simpl.
  by destruct (ec_Conversation evalCase).
Qed.

(** A failed body with message [rest] leaves a failed case whose message
    holds [rest], whatever the after-case callbacks return. *)
Lemma failedBody_result s ctx req evalCase opts now supplier res rest :
  opt_SessionIDSupplier opts = Some supplier ->
  cb_RunBeforeInferenceCase (opt_Callbacks opts) ctx
    (beforeCaseArgs req evalCase (supplier ctx)) = (res, None) ->
  inferenceEvalCaseBody s (caseContext ctx res) req evalCase opts (supplier ctx) now
    = Ok (failedBody req (supplier ctx) evalCase rest, []) ->
  exists r t,
    inferenceEvalCase s ctx req (Some evalCase) opts now = Ok (r, t) /\
    res_Status r = EvalStatusFailed /\
    res_Inferences r = None /\
    contains rest (res_ErrorMessage r) /\
    count isRunnerRun t = 0.
Proof.
  intros Hsup Hbefore Hbody. unfold failedBody in Hbody.
  eexists _, _. split; [by eapply inferenceEvalCase_run|].
  destruct (cb_RunAfterInferenceCase _ _ _) as [afterErr|];
    (split; [reflexivity|]); (split; [reflexivity|]);
    (split; [|apply count_runner_around]); simpl.
  - apply contains_append_l, caseError_contains.
  - apply caseError_contains.
Qed.

(** X5: a case without session input is failed for it before its mode, its
    conversations or its context messages are looked at, and the runner is
    not called. *)
Theorem missing_session_input_fails s ctx req evalCase opts now supplier :
  opt_SessionIDSupplier opts = Some supplier ->
  ec_SessionInput evalCase = None ->
  (cb_RunBeforeInferenceCase (opt_Callbacks opts) ctx
     (beforeCaseArgs req evalCase (supplier ctx))).2 = None ->
  exists r t,
    inferenceEvalCase s ctx req (Some evalCase) opts now = Ok (r, t) /\
    res_Status r = EvalStatusFailed /\
    res_Inferences r = None /\
    contains "session input is nil" (res_ErrorMessage r) /\
    count isRunnerRun t = 0.
Proof.
  intros Hsup Hsession Hbefore.
  destruct (cb_RunBeforeInferenceCase _ _ _) as [res err] eqn:Hcb.
  simpl in Hbefore. subst err.
  eapply failedBody_result; [done..|]. by apply body_session_nil.
Qed.

Lemma missing_session_input_fails_witness :
  exists r t,
    inferenceEvalCase (testService failingManager noCallbacks false) ∅ testRequest
      (Some (withCase EvalModeTrace [] None [] (makeEvalCase "case-1" "prompt")))
      (testOptions noCallbacks []) 123 = Ok (r, t) /\
    res_Status r = EvalStatusFailed /\
    res_Inferences r = None /\
    contains "session input is nil" (res_ErrorMessage r) /\
    count isRunnerRun t = 0.
Proof.
  apply (missing_session_input_fails
           (testService failingManager noCallbacks false) ∅ testRequest
           (withCase EvalModeTrace [] None [] (makeEvalCase "case-1" "prompt"))
           (testOptions noCallbacks []) 123 (fun _ => "session"));
    reflexivity.
Defined.

(** X6: a case with an empty conversation and no recorded actual conversation
    is failed, with nil inferences, in either mode, and the runner is not
    called for it; when the case has a session input and its before-case
    callbacks return no error, the message says that the invocations are
    empty. *)
Theorem empty_conversation_fails s ctx req evalCase opts now supplier :
  opt_SessionIDSupplier opts = Some supplier ->
  ec_ActualConversation evalCase = [] ->
  ec_Conversation evalCase = [] ->
  exists r t,
    inferenceEvalCase s ctx req (Some evalCase) opts now = Ok (r, t) /\
    res_Status r = EvalStatusFailed /\
    res_Inferences r = None /\
    count isRunnerRun t = 0 /\
    (ec_SessionInput evalCase <> None ->
     (cb_RunBeforeInferenceCase (opt_Callbacks opts) ctx
        (beforeCaseArgs req evalCase (supplier ctx))).2 = None ->
     contains "invocations are empty" (res_ErrorMessage r)).
Proof.
  intros Hsup Hactual Hconv.
  destruct (cb_RunBeforeInferenceCase (opt_Callbacks opts) ctx
              (beforeCaseArgs req evalCase (supplier ctx))) as [res [e|]] eqn:Hbefore.
  { eexists _, _. split; [by eapply inferenceEvalCase_before_error|].
    repeat split; done. }
  destruct (ec_SessionInput evalCase) as [session|] eqn:Hsession.
  - destruct (failedBody_result s ctx req evalCase opts now supplier res
                "invocations are empty" Hsup Hbefore)
      as (r & t & Hrun & Hstatus & Hinferences & Hmessage & Hcount).
    { by eapply body_empty_conversation. }
    exists r, t. by repeat split.
  - destruct (failedBody_result s ctx req evalCase opts now supplier res
                "session input is nil" Hsup Hbefore)
      as (r & t & Hrun & Hstatus & Hinferences & _ & Hcount).
    { by apply body_session_nil. }
    exists r, t. by repeat split.
Qed.

Lemma empty_conversation_fails_witness :
  let evalCase :=
    {| ec_EvalID := "case-1"; ec_EvalMode := EvalModeDefault;
       ec_ContextMessages := []; ec_Conversation := [];
       ec_ActualConversation := []; ec_SessionInput := testSession |} in
  exists r t,
    inferenceEvalCase (testService failingManager noCallbacks false) ∅ testRequest
      (Some evalCase) (testOptions noCallbacks []) 123 = Ok (r, t) /\
    res_Status r = EvalStatusFailed /\
    res_Inferences r = None /\
    count isRunnerRun t = 0 /\
    contains "invocations are empty" (res_ErrorMessage r).
Proof.
  intros evalCase.
  destruct (empty_conversation_fails
              (testService failingManager noCallbacks false) ∅ testRequest evalCase
              (testOptions noCallbacks []) 123 (fun _ => "session")
              eq_refl eq_refl eq_refl)
    as (r & t & Hrun & Hstatus & Hinferences & Hcount & Hmessage).
  exists r, t. split; [exact Hrun|]. split; [exact Hstatus|].
  split; [exact Hinferences|]. split; [exact Hcount|].
  apply Hmessage; [discriminate|reflexivity].
Defined.

(** X7: a default-mode case one of whose context messages is nil is failed,
    with nil inferences, and the runner is not called for it; when the case
    has a session input, no recorded actual conversation and a conversation
    that is not empty, and its before-case callbacks return no error, the
    message names the index of the first nil context message. *)
Theorem nil_context_message_fails
    s ctx req evalCase opts now supplier seed rest :
  opt_SessionIDSupplier opts = Some supplier ->
  ec_EvalMode evalCase = EvalModeDefault ->
  ec_ContextMessages evalCase = map Some seed ++ None :: rest ->
  exists r t,
    inferenceEvalCase s ctx req (Some evalCase) opts now = Ok (r, t) /\
    res_Status r = EvalStatusFailed /\
    res_Inferences r = None /\
    count isRunnerRun t = 0 /\
    (ec_SessionInput evalCase <> None ->
     ec_ActualConversation evalCase = [] ->
     ec_Conversation evalCase <> [] ->
     (cb_RunBeforeInferenceCase (opt_Callbacks opts) ctx
        (beforeCaseArgs req evalCase (supplier ctx))).2 = None ->
     contains ("context message is nil at index " +:+ pretty (length seed))
              (res_ErrorMessage r)).
Proof.
  intros Hsup Hmode Hmessages.
  destruct (cb_RunBeforeInferenceCase (opt_Callbacks opts) ctx
              (beforeCaseArgs req evalCase (supplier ctx))) as [res [e|]] eqn:Hbefore.
  { eexists _, _. split; [by eapply inferenceEvalCase_before_error|].
    repeat split; done. }
  assert (forall rest',
            (ec_SessionInput evalCase <> None ->
             ec_ActualConversation evalCase = [] ->
             ec_Conversation evalCase <> [] ->
             rest' = "context message is nil at index " +:+ pretty (length seed)) ->
            inferenceEvalCaseBody s (caseContext ctx res) req evalCase opts
              (supplier ctx) now
              = Ok (failedBody req (supplier ctx) evalCase rest', []) ->
            exists r t,
              inferenceEvalCase s ctx req (Some evalCase) opts now = Ok (r, t) /\
              res_Status r = EvalStatusFailed /\
              res_Inferences r = None /\
              count isRunnerRun t = 0 /\
              (ec_SessionInput evalCase <> None ->
               ec_ActualConversation evalCase = [] ->
               ec_Conversation evalCase <> [] ->
               (res, @None error).2 = None ->
               contains ("context message is nil at index " +:+
                         pretty (length seed)) (res_ErrorMessage r))) as Hfailed.
  { intros rest' Hrest Hbody.
    destruct (failedBody_result s ctx req evalCase opts now supplier res rest'
                Hsup Hbefore Hbody)
      as (r & t & Hrun & Hstatus & Hinferences & Hmessage & Hcount).
    exists r, t. split; [done|]. split; [done|]. split; [done|]. split; [done|].
    intros Hs Ha Hc _. by rewrite <- (Hrest Hs Ha Hc). }
  destruct (ec_SessionInput evalCase) as [session|] eqn:Hsession.
  2: { apply (Hfailed "session input is nil"); [done|].
       by apply body_session_nil. }
  destruct (ec_ActualConversation evalCase) as [|turn actual] eqn:Hactual.
  2: { apply (Hfailed "actualConversation is only supported in trace mode");
         [done|].
       rewrite body_actual_outside_trace by (by rewrite ?Hmode, ?Hactual).
       by rewrite Hsession. }
  destruct (ec_Conversation evalCase) as [|turn conv] eqn:Hconv.
  { apply (Hfailed "invocations are empty"); [done|].
    by eapply body_empty_conversation. }
  apply (Hfailed ("context message is nil at index " +:+ pretty (length seed)));
    [done|].
  eapply body_nil_context_message; [done..|by rewrite Hconv|].
  rewrite Hmessages. apply seedMessagesFromPointers_nil.
Qed.

Lemma nil_context_message_fails_witness :
  let evalCase :=
    withCase EvalModeDefault [] testSession
      [Some (userMessage "context"); None] (makeEvalCase "case-1" "prompt") in
  exists r t,
    inferenceEvalCase (testService failingManager noCallbacks false) ∅ testRequest
      (Some evalCase) (testOptions noCallbacks []) 123 = Ok (r, t) /\
    res_Status r = EvalStatusFailed /\
    res_Inferences r = None /\
    count isRunnerRun t = 0 /\
    contains "context message is nil at index 1" (res_ErrorMessage r).
Proof.
  intros evalCase.
  destruct (nil_context_message_fails
              (testService failingManager noCallbacks false) ∅ testRequest evalCase
              (testOptions noCallbacks []) 123 (fun _ => "session")
              [userMessage "context"] [] eq_refl eq_refl eq_refl)
    as (r & t & Hrun & Hstatus & Hinferences & Hcount & Hmessage).
  exists r, t. split; [exact Hrun|]. split; [exact Hstatus|].
  split; [exact Hinferences|]. split; [exact Hcount|].
  apply Hmessage; [discriminate|reflexivity|discriminate|reflexivity].
Defined.

(** X8: in trace mode, and for any case with a recorded actual conversation, the
    runner is never called. *)
Theorem recorded_cases_never_call_the_runner
    s ctx req evalCase opts now supplier :
  opt_SessionIDSupplier opts = Some supplier ->
  ec_EvalMode evalCase = EvalModeTrace \/ ec_ActualConversation evalCase <> [] ->
  exists r t,
    inferenceEvalCase s ctx req (Some evalCase) opts now = Ok (r, t) /\
    count isRunnerRun t = 0.
Proof.
  intros Hsup Hrecorded.
  destruct (cb_RunBeforeInferenceCase (opt_Callbacks opts) ctx
              (beforeCaseArgs req evalCase (supplier ctx))) as [res [e|]] eqn:Hbefore.
  { eexists _, _. split; [by eapply inferenceEvalCase_before_error|]. done. }
  destruct (inferenceEvalCaseBody_spec s (caseContext ctx res) req evalCase opts
              (supplier ctx) now) as (result & err & t0 & Hbody & _ & _ & Ht0).
  rewrite (Ht0 Hrecorded) in Hbody.
  eexists _, _. split; [by eapply inferenceEvalCase_run|].
  apply count_runner_around.
Qed.

Lemma recorded_cases_never_call_the_runner_witness :
  exists r t,
    inferenceEvalCase (testService failingManager noCallbacks false) ∅ testRequest
      (Some (traceCase "case-1" "prompt")) (testOptions noCallbacks []) 123
      = Ok (r, t) /\
    count isRunnerRun t = 0.
Proof.
  apply (recorded_cases_never_call_the_runner
           (testService failingManager noCallbacks false) ∅ testRequest
           (traceCase "case-1" "prompt") (testOptions noCallbacks []) 123
           (fun _ => "session")); [reflexivity|by left].
Defined.

(** X9: a trace-mode case without a recorded actual conversation passes with its
    expected conversation as inferences, unchanged and unvalidated: neither
    the turns, nor the context messages, nor the run options are looked at. *)
Theorem trace_mode_passes_expected_conversation
    s ctx req evalCase opts now supplier :
  opt_SessionIDSupplier opts = Some supplier ->
  ec_EvalMode evalCase = EvalModeTrace ->
  ec_ActualConversation evalCase = [] ->
  ec_Conversation evalCase <> [] ->
  ec_SessionInput evalCase <> None ->
  (cb_RunBeforeInferenceCase (opt_Callbacks opts) ctx
     (beforeCaseArgs req evalCase (supplier ctx))).2 = None ->
  (forall c a, cb_RunAfterInferenceCase (opt_Callbacks opts) c a = None) ->
  exists r t,
    inferenceEvalCase s ctx req (Some evalCase) opts now = Ok (r, t) /\
    res_Status r = EvalStatusPassed /\
    res_Inferences r = Some (ec_Conversation evalCase) /\
    res_ErrorMessage r = "" /\
    count isRunnerRun t = 0.
Proof.
  intros Hsup Hmode Hactual Hconv Hsession Hbefore Hafter.
  destruct (cb_RunBeforeInferenceCase _ _ _) as [res err] eqn:Hcb.
  simpl in Hbefore. subst err.
  destruct (ec_SessionInput evalCase) as [session|] eqn:Hs; [|done].
  pose proof (body_trace_expected s (caseContext ctx res) req evalCase opts
                (supplier ctx) now session Hs Hmode Hactual) as Hbody.
  destruct (ec_Conversation evalCase) as [|turn conv] eqn:Hc; [done|].
  eexists _, _. split; [by eapply inferenceEvalCase_run|].
  rewrite Hafter. repeat split.
Qed.

Lemma trace_mode_passes_expected_conversation_witness :
  let evalCase :=
    {| ec_EvalID := "case-1"; ec_EvalMode := EvalModeTrace;
       ec_ContextMessages := [None]; ec_Conversation := [None];
       ec_ActualConversation := []; ec_SessionInput := testSession |} in
  exists r t,
    inferenceEvalCase (testService failingManager noCallbacks false) ∅ testRequest
      (Some evalCase) (testOptions noCallbacks []) 123 = Ok (r, t) /\
    res_Status r = EvalStatusPassed /\
    res_Inferences r = Some [None] /\
    res_ErrorMessage r = "" /\
    count isRunnerRun t = 0.
Proof.
  intros evalCase.
  apply (trace_mode_passes_expected_conversation
           (testService failingManager noCallbacks false) ∅ testRequest evalCase
           (testOptions noCallbacks []) 123 (fun _ => "session"));
    done.
Defined.

(** ** The serial executor *)

Lemma inferEvalCasesSerialLoop_trace s ctx req evalCases opts results now supplier :
  opt_SessionIDSupplier opts = Some supplier ->
  traceOf (inferEvalCasesSerialLoop s ctx req evalCases opts results) now =
    concat (map (fun evalCase =>
                   traceOf (inferenceEvalCase s ctx req evalCase opts) now)
                evalCases).
Proof.
  intros Hsup. revert results.
  induction evalCases as [|evalCase rest IH]; intros results; [done|].
  destruct (inferenceEvalCase_total s ctx req evalCase opts now supplier Hsup)
    as (r & t & Hrun).
  destruct (inferEvalCasesSerialLoop_spec s ctx req rest opts (results ++ [Some r])
              now supplier Hsup) as (t' & Hloop).
  specialize (IH (results ++ [Some r])).
  simpl. unfold traceOf in *. rewrite Hrun. rewrite Hloop in IH.
  erewrite eff_bind_ok; [|exact Hrun|exact Hloop]. by rewrite IH.
Qed.

(** X10: the serial executor never fails.  It returns one result per case, slot
    [i] holding what the pipeline returns for case [i], and it runs the cases
    one after the other in the order of the input: what it calls is what the
    pipeline calls for the first case, then for the second, and so on. *)
Theorem serial_runs_cases_in_input_order s ctx req evalCases opts now supplier :
  opt_SessionIDSupplier opts = Some supplier ->
  exists results t,
    inferEvalCasesSerial s ctx req evalCases opts now = Ok (Some results, None, t) /\
    results =
      map (fun evalCase => value (inferenceEvalCase s ctx req evalCase opts) now)
          evalCases /\
    t = concat (map (fun evalCase =>
                       traceOf (inferenceEvalCase s ctx req evalCase opts) now)
                    evalCases).
Proof.
  intros Hsup.
  destruct (inferEvalCasesSerialLoop_spec s ctx req evalCases opts [] now supplier
              Hsup) as (t & Hloop).
  pose proof (inferEvalCasesSerialLoop_trace s ctx req evalCases opts [] now
                supplier Hsup) as Htrace.
  unfold traceOf in Htrace at 1. rewrite Hloop in Htrace.
  eexists _, _. split.
  { unfold inferEvalCasesSerial. erewrite eff_bind_ok; [|exact Hloop|reflexivity].
    reflexivity. }
  split; [done|]. by rewrite app_nil_r.
Qed.

Lemma serial_runs_cases_in_input_order_witness :
  exists results t,
    inferEvalCasesSerial (testService failingManager noCallbacks false) ∅
      testRequest
      [Some (makeEvalCase "case-1" "one"); Some (makeEvalCase "case-2" "two")]
      (testOptions noCallbacks []) 123 = Ok (Some results, None, t) /\
    option_map res_EvalCaseID <$> results = [Some "case-1"; Some "case-2"] /\
    omap (fun o => match o with
                   | ObsBeforeInferenceCase _ a => Some (bica_EvalCaseID a)
                   | _ => None
                   end) t = ["case-1"; "case-2"].
Proof.
  destruct (serial_runs_cases_in_input_order
              (testService failingManager noCallbacks false) ∅ testRequest
              [Some (makeEvalCase "case-1" "one"); Some (makeEvalCase "case-2" "two")]
              (testOptions noCallbacks []) 123 (fun _ => "session") eq_refl)
    as (results & t & Hrun & -> & ->).
  eexists _, _. split; [exact Hrun|]. split; reflexivity.
Defined.

(** ** What the parallel executor leaves in the trace *)

Lemma inferenceEvalCase_pipeline_trace s ctx req evalCase opts now r t :
  inferenceEvalCase s ctx req evalCase opts now = Ok (r, t) ->
  Forall (fun o => isPipelineObs o = true) t.
Proof.
  intros Hrun.
  destruct (opt_SessionIDSupplier opts) as [supplier|] eqn:Hsup.
  2: { unfold inferenceEvalCase, callSessionIDSupplier in Hrun.
       by rewrite Hsup in Hrun. }
  destruct evalCase as [evalCase|].
  2: { erewrite inferenceEvalCase_nil in Hrun by done. by injection Hrun as _ <-. }
  destruct (cb_RunBeforeInferenceCase (opt_Callbacks opts) ctx
              (beforeCaseArgs req evalCase (supplier ctx))) as [res [e|]] eqn:Hbefore.
  { erewrite inferenceEvalCase_before_error in Hrun by done.
    injection Hrun as _ <-. by repeat constructor. }
  destruct (inferenceEvalCaseBody_spec s (caseContext ctx res) req evalCase opts
              (supplier ctx) now) as (result & err & t0 & Hbody & _ & Ht0 & _).
  erewrite inferenceEvalCase_run in Hrun by done. injection Hrun as _ <-.
  constructor; [done|]. apply Forall_app. split; [|by repeat constructor].
  eapply Forall_impl; [exact Ht0|].
  by intros o (? & ? & ? & ? & ? & ? & -> & _).
Qed.

Lemma submissions_app t1 t2 :
  submissions (t1 ++ t2) = submissions t1 ++ submissions t2.
Proof. apply omap_app. Qed.

Lemma pipeline_no_submission t :
  Forall (fun o => isPipelineObs o = true) t -> submissions t = [].
Proof.
  induction 1 as [|o t Ho _ IH]; [done|].
  by destruct o.
Qed.

Lemma pipeline_no_add t :
  Forall (fun o => isPipelineObs o = true) t -> count isWgAdd t = 0.
Proof.
  induction 1 as [|o t Ho _ IH]; [done|].
  by destruct o.
Qed.

Lemma pipeline_no_set_obs t :
  Forall (fun o => isPipelineObs o = true) t ->
  Forall (fun o => isSetObs o = false) t.
Proof. intros H. eapply Forall_impl; [exact H|]. by intros []. Qed.

Lemma zip_seq_snoc {A} (l : list A) (x : A) :
  zip (seq 0 (length (l ++ [x]))) (l ++ [x]) =
    zip (seq 0 (length l)) l ++ [(length l, x)].
Proof.
  rewrite length_app. simpl. rewrite seq_app. simpl.
  rewrite zip_with_app by (by rewrite length_seq). done.
Qed.

Lemma executorLog_nil : executorLog [] [].
Proof. by repeat split. Qed.

Section ExecutorLog.
Variables (pool : PoolWithFunc) (s : local) (ctx : Context)
  (req : InferenceRequest) (opts : Options) (now : Time)
  (evalCases : list (option EvalCase)) (trace0 : list Obs)
  (supplier : Context -> string).
Hypothesis Hsup : opt_SessionIDSupplier opts = Some supplier.

Local Abbreviation Inv := (batchInv s ctx req opts now evalCases trace0).
Local Abbreviation Log := (logInv trace0).
Local Abbreviation N := (length evalCases).

Lemma submitStep_log ds b w rejection :
  Inv ds b w -> Log ds w ->
  rejectedNonNil evalCases (ds ++ [rejection]) ->
  exists b' w',
    submitStep (Some pool) ctx req opts rejection b w = Ok (b', w') /\
    Inv (take N (ds ++ [rejection])) b' w' /\
    Log (take N (ds ++ [rejection])) w'.
Proof.
  intros Hinv (t & Htrace & Hsub & Hadd & Hset) Hnonnil.
  destruct (submitStep_inv pool s ctx req opts now evalCases trace0 supplier Hsup
              ds b w rejection Hinv Hnonnil) as (b' & w' & Hstep & Hinv' & _).
  exists b', w'. split; [done|]. split; [done|].
  destruct Hinv as (Hnow & Hrunner & Hlen & Hds & Hrest & Hwg & _).
  destruct (decide (length ds < N)) as [Hlt|Hge].
  2: { assert (length ds = N) as Heq by lia.
       rewrite drop_tasks_all in Hrest by lia.
       rewrite (submitStep_done _ _ _ _ _ _ _ Hrest) in Hstep.
       injection Hstep as <- <-.
       rewrite <- Heq, take_app_length. by exists t. }
  rewrite take_ge by (rewrite length_app; simpl; lia).
  rewrite drop_tasks in Hrest by done.
  destruct rejection as [err|].
  - destruct (Hnonnil (length ds) err) as [evalCase Hcase];
      [by rewrite list_lookup_middle|done|].
    rewrite Hcase in Hrest.
    destruct (submitStep_reject pool ctx req opts b w _ _ _ err supplier Hrest)
      as (w'' & Hstep' & Htrace' & _); [lia|done|lia|].
    rewrite Hstep in Hstep'. injection Hstep' as _ <-.
    exists (t ++ [ObsWgAdd; ObsInvoke (length ds) (Some err); ObsWgDone (length ds)]).
    split; [by rewrite Htrace', Htrace, <- app_assoc|]. split; [|split].
    + by rewrite submissions_app, Hsub, zip_seq_snoc.
    + rewrite count_app, Hadd, length_app. done.
    + apply Forall_app. split; [done|]. by repeat constructor.
  - destruct (submitStep_accept pool ctx req opts b w _ _ _ Hrest)
      as (w'' & Hstep' & Htrace' & _).
    rewrite Hstep in Hstep'. injection Hstep' as _ <-.
    exists (t ++ [ObsWgAdd; ObsInvoke (length ds) None]).
    split; [by rewrite Htrace', Htrace, <- app_assoc|]. split; [|split].
    + by rewrite submissions_app, Hsub, zip_seq_snoc.
    + rewrite count_app, Hadd, length_app. done.
    + apply Forall_app. split; [done|]. by repeat constructor.
Qed.

Lemma workStep_log ds b w k :
  Inv ds b w -> Log ds w ->
  exists b' w',
    workStep k b w = Ok (b', w') /\ Inv ds b' w' /\ Log ds w'.
Proof.
  intros Hinv (t & Htrace & Hsub & Hadd & Hset).
  destruct (workStep_inv s ctx req opts now evalCases trace0 supplier Hsup
              ds b w k Hinv) as (b' & w' & Hstep & Hinv' & _).
  exists b', w'. split; [done|]. split; [done|].
  destruct Hinv as (Hnow & Hrunner & Hlen & Hds & Hrest & Hwg & run & Hrun & _
                    & Hin & _).
  destruct (b_running b !! k) as [param|] eqn:Hk.
  2: { rewrite (workStep_idle _ _ _ Hk) in Hstep. injection Hstep as <- <-.
       by exists t. }
  apply lookup_lt_Some in Hk as Hklt.
  rewrite Hrun, list_lookup_fmap in Hk.
  destruct (run !! k) as [idx|] eqn:Hidx; [|done].
  injection Hk as <-.
  assert (idx ∈ run) as Hidxin by (by eapply list_elem_of_lookup_2).
  destruct (Hin idx Hidxin) as [Hidxlt _].
  destruct (inferenceEvalCase_total (w_svc w) ctx req (caseAt evalCases idx) opts
              (w_now w) supplier Hsup) as (r & tp & Hpipeline).
  destruct (workStep_run ctx req opts k b w idx (caseAt evalCases idx) r tp)
    as (w'' & Hstep' & Htrace' & _); [|lia|lia|done|].
  { by rewrite Hrun, list_lookup_fmap, Hidx. }
  rewrite Hstep in Hstep'. injection Hstep' as _ <-.
  apply inferenceEvalCase_pipeline_trace in Hpipeline.
  exists (t ++ tp ++ [ObsWgDone idx]).
  split; [by rewrite Htrace', Htrace, <- app_assoc|]. split; [|split].
  - rewrite !submissions_app, Hsub, (pipeline_no_submission tp) by done.
    simpl. by rewrite app_nil_r.
  - rewrite !count_app, Hadd, (pipeline_no_add tp) by done.
    unfold count at 1. simpl. lia.
  - apply Forall_app. split; [done|]. apply Forall_app.
    split; [by apply pipeline_no_set_obs|by repeat constructor].
Qed.

Lemma runSchedule_log sched ds b w :
  Inv ds b w -> Log ds w ->
  rejectedNonNil evalCases (ds ++ rejections sched) ->
  exists b' w',
    runSchedule (Some pool) ctx req opts sched b w = Ok (b', w') /\
    Inv (take N (ds ++ rejections sched)) b' w' /\
    Log (take N (ds ++ rejections sched)) w'.
Proof.
  revert ds b w.
  induction sched as [|[rejection|k] sched IH]; intros ds b w Hinv Hlog Hnonnil.
  - exists b, w. split; [done|]. simpl. rewrite app_nil_r.
    rewrite take_ge; [done|]. by destruct Hinv as (_ & _ & _ & ? & _).
  - simpl in *.
    destruct (submitStep_log ds b w rejection Hinv Hlog)
      as (b1 & w1 & Hstep & Hinv1 & Hlog1).
    { eapply rejectedNonNil_prefix. rewrite <- app_assoc. exact Hnonnil. }
    destruct (decide (length ds < N)) as [Hlt|Hge].
    + rewrite take_ge in Hinv1, Hlog1 by (rewrite length_app; simpl; lia).
      destruct (IH _ b1 w1 Hinv1 Hlog1) as (b' & w' & Hrun & Hinv' & Hlog').
      { by rewrite <- app_assoc. }
      exists b', w'. rewrite <- app_assoc in Hinv', Hlog'. split; [|done].
      unfold step. m_unfold. by rewrite Hstep.
    + assert (length ds = N) as Heq
        by (destruct Hinv as (_ & _ & _ & ? & _); lia).
      rewrite <- Heq, take_app_length in Hinv1, Hlog1.
      destruct (IH _ b1 w1 Hinv1 Hlog1) as (b' & w' & Hrun & Hinv' & Hlog').
      { intros idx err Hidx Hlt. apply (Hnonnil idx err); [|done].
        apply lookup_app_Some in Hidx as [Hidx|[Hge' _]]; [|lia].
        by apply lookup_app_l_Some. }
      exists b', w'. split; [unfold step; m_unfold; by rewrite Hstep|].
      rewrite <- Heq in *. by rewrite take_app_length in *.
  - simpl in *.
    destruct (workStep_log ds b w k Hinv Hlog) as (b1 & w1 & Hstep & Hinv1 & Hlog1).
    destruct (IH _ b1 w1 Hinv1 Hlog1 Hnonnil) as (b' & w' & Hrun & Hinv' & Hlog').
    exists b', w'. split; [|done]. unfold step. m_unfold. by rewrite Hstep.
Qed.

End ExecutorLog.

(** The parameter pool: whatever a step puts back has been reset. *)
Lemma paramPoolClean_tail w w' :
  w_paramPool w' = tail (w_paramPool w) -> paramPoolClean w -> paramPoolClean w'.
Proof.
  unfold paramPoolClean. intros ->. destruct (w_paramPool w); [done|].
  by inversion 1.
Qed.

Lemma step_clean pool ctx req opts a b w b' w' :
  step pool ctx req opts a b w = Ok (b', w') ->
  paramPoolClean w -> paramPoolClean w'.
Proof.
  unfold step, paramPoolClean. destruct a as [rejection|k]; step_unfold.
  - destruct (b_rest b) as [|[idx evalCase] rest]; [by intros [= <- <-]|].
    destruct pool; simpl; [|by destruct (w_paramPool w)].
    intros Hstep Hclean.
    assert (Forall (fun p => p = zeroParam) (tail (w_paramPool w))) as Htail.
    { destruct (w_paramPool w); [done|]. by inversion Hclean. }
    simpl in Hstep.
    destruct (w_paramPool w) as [|param0 params] eqn:Hpool; simpl in *;
      destruct rejection as [err|]; simpl in *;
      try (destruct (bool_decide _); [done|]; simpl in *;
           destruct (opt_SessionIDSupplier opts); [|done]; simpl in *;
           destruct evalCase; [|done];
           destruct (idx <? _)%nat; [|done]; simpl in * );
      injection Hstep as _ <-; simpl; rewrite ?Hpool; repeat constructor; done.
  - destruct (b_running b !! k) as [param|]; [|by intros [= <- <-]].
    intros Hstep Hclean. simpl in *.
    destruct (p_svc param); [|done].
    destruct (p_ctx param); [|done].
    destruct (p_req param); [|done].
    destruct (p_opts param); [|done].
    destruct (p_results param); [|done].
    destruct (p_wg param); [|done]. simpl in *.
    destruct (inferenceEvalCase _ _ _ _ _ _) as [[res0 tp]|]; [|done]. simpl in *.
    destruct (p_idx param <? _)%nat; [|done]. simpl in *.
    destruct (bool_decide _); [done|]. simpl in *.
    injection Hstep as _ <-. simpl. repeat constructor; done.
Qed.

Lemma runSchedule_clean pool ctx req opts sched b w b' w' :
  runSchedule pool ctx req opts sched b w = Ok (b', w') ->
  paramPoolClean w -> paramPoolClean w'.
Proof.
  revert b w. induction sched as [|a sched IH]; intros b w; simpl.
  - by intros [= <- <-].
  - m_unfold. destruct (step pool ctx req opts a b w) as [[b1 w1]|] eqn:Hstep;
      [|done].
    intros Hrun Hclean. eapply IH; [exact Hrun|]. by eapply step_clean.
Qed.

Lemma rejections_app sched1 sched2 :
  rejections (sched1 ++ sched2) = rejections sched1 ++ rejections sched2.
Proof.
  induction sched1 as [|[rejection|k] sched1 IH]; simpl; [done| |done].
  by rewrite IH.
Qed.

Lemma rejections_drain b :
  rejections (drainSchedule b) = replicate (length (b_rest b)) None.
Proof.
  unfold drainSchedule. rewrite rejections_app.
  assert (rejections (replicate (length (b_running b)) (Work 0)) = []) as ->.
  { induction (length (b_running b)); [done|]. simpl. done. }
  simpl. induction (length (b_rest b)) as [|n IH]; [done|].
  simpl. by rewrite IH.
Qed.

Lemma ensureEvalCaseInferencePool_frame size w r w' :
  ensureEvalCaseInferencePool size w = Ok (r, w') ->
  w_now w' = w_now w /\ w_trace w' = w_trace w /\
  w_paramPool w' = w_paramPool w /\ w_ants w' = w_ants w /\
  sameConfiguration (w_svc w) (w_svc w').
Proof.
  unfold ensureEvalCaseInferencePool. intros [= _ <-]. simpl.
  split; [done|]. split; [done|]. split; [done|]. split; [done|].
  destruct (evalCaseInferencePoolOnce (w_svc w)); [by repeat split|].
  unfold initEvalCaseInferencePool. simpl.
  destruct (evalCaseInferencePool (w_svc w)); [by repeat split|].
  destruct (createEvalCaseInferencePool _ _); by repeat split.
Qed.

(** The parallel executor under any schedule, once the pool is there: what
    it leaves in the trace and in the parameter pool. *)
Lemma inferEvalCasesParallel_log sched ctx req evalCases opts w pool w1 supplier :
  opt_SessionIDSupplier opts = Some supplier ->
  rejectedNonNil evalCases (rejections sched) ->
  ensureEvalCaseInferencePool (opt_EvalCaseParallelism opts) w
    = Ok (Some pool, None, w1) ->
  exists results w' t ds,
    inferEvalCasesParallel sched ctx req evalCases opts w
      = Ok (Some results, None, w') /\
    w_trace w' = w_trace w ++ t /\
    length ds = length evalCases /\
    (forall idx, idx < length evalCases ->
       decisionAt ds idx = rejectionOf sched idx) /\
    executorLog ds t /\
    (forall idx,
       count (isWgDone idx) t = if decide (idx < length evalCases) then 1 else 0) /\
    (paramPoolClean w -> paramPoolClean w').
Proof.
  intros Hsup Hnonnil Hensure.
  destruct (ensureEvalCaseInferencePool_frame _ _ _ _ Hensure)
    as (Hnow & Htrace1 & Hpool1 & _ & Hrunner & _).
  assert (batchInv (w_svc w) ctx req opts (w_now w) evalCases (w_trace w1) []
            (initBatch evalCases) w1) as Hinv0 by (by apply batchInv_init).
  assert (logInv (w_trace w1) [] w1) as Hlog0.
  { exists []. rewrite app_nil_r. split; [done|apply executorLog_nil]. }
  destruct (runSchedule_log pool (w_svc w) ctx req opts (w_now w) evalCases
              (w_trace w1) supplier Hsup sched [] _ w1 Hinv0 Hlog0 Hnonnil)
    as (b1 & wb1 & Hrun1 & Hinv1 & Hlog1).
  simpl in Hinv1, Hlog1.
  set (ds1 := take (length evalCases) (rejections sched)) in *.
  assert (rejectedNonNil evalCases ds1) as Hnonnil1.
  { intros idx err [Hidx _]%lookup_take_Some Hlt. by apply (Hnonnil idx err). }
  destruct (drain_inv pool (w_svc w) ctx req opts (w_now w) evalCases
              (w_trace w1) supplier Hsup ds1 b1 wb1 Hinv1 Hnonnil1)
    as (bf & wf & Hrunf & Hinvf & Hidle & Hrest).
  assert (length (b_rest b1) = length evalCases - length ds1) as Hrest1.
  { destruct Hinv1 as (_ & _ & _ & _ & -> & _).
    by rewrite length_drop, length_zip_with, length_seq, Nat.min_id. }
  assert (length ds1 <= length evalCases) as Hle1
    by (by destruct Hinv1 as (_ & _ & _ & ? & _)).
  destruct (runSchedule_log pool (w_svc w) ctx req opts (w_now w) evalCases
              (w_trace w1) supplier Hsup (drainSchedule b1) ds1 b1 wb1 Hinv1 Hlog1)
    as (bf' & wf' & Hrunf' & _ & Hlogf).
  { rewrite rejections_drain. by apply rejectedNonNil_accept. }
  rewrite Hrunf in Hrunf'. injection Hrunf' as <- <-.
  rewrite rejections_drain, Hrest1 in Hlogf.
  rewrite take_ge in Hlogf by (rewrite length_app, length_replicate; lia).
  set (dsf := ds1 ++ replicate (length evalCases - length ds1) None) in *.
  assert (length dsf = length evalCases) as Hlenf.
  { unfold dsf. rewrite length_app, length_replicate. lia. }
  destruct Hlogf as (t & Htracef & Hlog).
  destruct Hinvf as (_ & _ & _ & _ & _ & _ & run & Hrunning & _ & _ & _
                     & t' & Htracef' & Hsignals).
  rewrite Htracef in Htracef'. apply app_inv_head in Htracef' as <-.
  rewrite Hidle in Hrunning. destruct run; [|done].
  exists (b_results bf), wf, t, dsf. split.
  { unfold inferEvalCasesParallel, runBatch. m_unfold.
    rewrite Hensure. simpl. m_unfold. rewrite Hrun1. by rewrite Hrunf. }
  split; [by rewrite Htracef, Htrace1|]. split; [done|]. split.
  { intros idx Hidx. unfold rejectionOf, decisionAt, dsf, ds1.
    destruct (decide (idx < length (rejections sched))) as [Hlt|Hge].
    - rewrite lookup_app_l by (rewrite length_take; lia).
      by rewrite lookup_take_lt.
    - rewrite lookup_app_r by (rewrite length_take; lia).
      rewrite lookup_replicate_2 by (rewrite length_take; lia).
      by rewrite lookup_ge_None_2 by lia. }
  split; [done|]. split.
  { intros idx. rewrite Hsignals, Hlenf.
    repeat case_decide; try done; exfalso.
    - match goal with H : ~ _ |- _ => apply H end. lia.
    - match goal with H : ~ _ |- _ => apply H end.
      split; [lia|apply not_elem_of_nil]. }
  intros Hclean.
  eapply runSchedule_clean; [exact Hrunf|].
  eapply runSchedule_clean; [exact Hrun1|].
  unfold paramPoolClean. by rewrite Hpool1.
Qed.

(** X11: under the parallel strategy, whatever the schedule, the loop submits
    every case to the pool exactly once, in the order of the input, and the
    answers of the pool are those the schedule lists (a submission the
    schedule does not list is accepted). *)
Theorem parallel_submits_cases_in_input_order
    sched ctx req evalCases opts w pool w1 supplier :
  opt_SessionIDSupplier opts = Some supplier ->
  Forall is_Some evalCases ->
  ensureEvalCaseInferencePool (opt_EvalCaseParallelism opts) w
    = Ok (Some pool, None, w1) ->
  exists results w' t,
    inferEvalCasesParallel sched ctx req evalCases opts w
      = Ok (Some results, None, w') /\
    w_trace w' = w_trace w ++ t /\
    (submissions t).*1 = seq 0 (length evalCases) /\
    forall idx, idx < length evalCases ->
      snd <$> submissions t !! idx = Some (rejectionOf sched idx).
Proof.
  intros Hsup Hcases Hensure.
  destruct (inferEvalCasesParallel_log sched ctx req evalCases opts w pool w1
              supplier Hsup (rejectedNonNil_all _ _ Hcases) Hensure)
    as (results & w' & t & ds & Hrun & Htrace & Hlen & Hds & (Hsub & _) & _).
  exists results, w', t. split; [done|]. split; [done|].
  rewrite Hsub, Hlen. split.
  - apply fst_zip. rewrite length_seq. lia.
  - intros idx Hidx. rewrite <- (Hds idx Hidx). unfold decisionAt.
    rewrite lookup_zip_with, lookup_seq_lt by done. simpl.
    destruct (lookup_lt_is_Some_2 ds idx) as [d Hd]; [lia|].
    rewrite Hd. simpl. by destruct d.
Qed.

Lemma parallel_submits_cases_in_input_order_witness :
  let evalCases :=
    [Some (makeEvalCase "case-1" "one"); Some (makeEvalCase "case-2" "two");
     Some (makeEvalCase "case-3" "three")] in
  exists results w' t,
    inferEvalCasesParallel [Submit None; Submit (Some "ants: pool closed"); Work 0]
      ∅ testRequest evalCases (testOptions noCallbacks [])
      (testWorld (testService failingManager noCallbacks true))
      = Ok (Some results, None, w') /\
    w_trace w' = [] ++ t /\
    (submissions t).*1 = [0; 1; 2].
Proof.
  intros evalCases.
  edestruct (parallel_submits_cases_in_input_order
               [Submit None; Submit (Some "ants: pool closed"); Work 0] ∅
               testRequest evalCases (testOptions noCallbacks [])
               (testWorld (testService failingManager noCallbacks true)))
    as (results & w' & t & Hrun & Htrace & Hsub & _).
  - reflexivity.
  - repeat constructor; eexists; reflexivity.
  - reflexivity.
  - exists results, w', t. split; [exact Hrun|]. split; [exact Htrace|].
    exact Hsub.
Defined.

(** X12: under the parallel strategy, whatever the schedule, the WaitGroup is
    incremented once per case and signalled exactly once for every case,
    whether the case ran on a worker or its submission was rejected: when
    [wg.Wait()] returns, the increments and the signals balance. *)
Theorem parallel_waitgroup_balances
    sched ctx req evalCases opts w pool w1 supplier :
  opt_SessionIDSupplier opts = Some supplier ->
  Forall is_Some evalCases ->
  ensureEvalCaseInferencePool (opt_EvalCaseParallelism opts) w
    = Ok (Some pool, None, w1) ->
  exists results w' t,
    inferEvalCasesParallel sched ctx req evalCases opts w
      = Ok (Some results, None, w') /\
    w_trace w' = w_trace w ++ t /\
    count isWgAdd t = length evalCases /\
    forall idx,
      count (isWgDone idx) t = if decide (idx < length evalCases) then 1 else 0.
Proof.
  intros Hsup Hcases Hensure.
  destruct (inferEvalCasesParallel_log sched ctx req evalCases opts w pool w1
              supplier Hsup (rejectedNonNil_all _ _ Hcases) Hensure)
    as (results & w' & t & ds & Hrun & Htrace & Hlen & _ & (_ & Hadd & _)
        & Hdone & _).
  exists results, w', t. split; [done|]. split; [done|].
  split; [by rewrite Hadd|done].
Qed.

Lemma parallel_waitgroup_balances_witness :
  let evalCases :=
    [Some (makeEvalCase "case-1" "one"); Some (makeEvalCase "case-2" "two")] in
  exists results w' t,
    inferEvalCasesParallel [Submit (Some "ants: pool closed")] ∅ testRequest
      evalCases (testOptions noCallbacks [])
      (testWorld (testService failingManager noCallbacks true))
      = Ok (Some results, None, w') /\
    w_trace w' = [] ++ t /\
    count isWgAdd t = 2 /\
    count (isWgDone 0) t = 1 /\ count (isWgDone 1) t = 1 /\
    count (isWgDone 2) t = 0.
Proof.
  intros evalCases.
  edestruct (parallel_waitgroup_balances [Submit (Some "ants: pool closed")] ∅
               testRequest evalCases (testOptions noCallbacks [])
               (testWorld (testService failingManager noCallbacks true)))
    as (results & w' & t & Hrun & Htrace & Hadd & Hdone).
  - reflexivity.
  - repeat constructor; eexists; reflexivity.
  - reflexivity.
  - exists results, w', t. split; [exact Hrun|]. split; [exact Htrace|].
    split; [exact Hadd|].
    split; [exact (Hdone 0)|]. split; [exact (Hdone 1)|exact (Hdone 2)].
Defined.

(** X13: under the parallel strategy, whatever the schedule, every task parameter
    is reset before it goes back to the package-level parameter pool: if the
    pool held only zero parameters before the batch, it holds only zero
    parameters after it, so that no parameter keeps the context, the request,
    the case, the options or the results of a batch alive. *)
Theorem parallel_resets_task_parameters
    sched ctx req evalCases opts w pool w1 supplier :
  opt_SessionIDSupplier opts = Some supplier ->
  Forall is_Some evalCases ->
  ensureEvalCaseInferencePool (opt_EvalCaseParallelism opts) w
    = Ok (Some pool, None, w1) ->
  paramPoolClean w ->
  exists results w',
    inferEvalCasesParallel sched ctx req evalCases opts w
      = Ok (Some results, None, w') /\
    paramPoolClean w'.
Proof.
  intros Hsup Hcases Hensure Hclean.
  destruct (inferEvalCasesParallel_log sched ctx req evalCases opts w pool w1
              supplier Hsup (rejectedNonNil_all _ _ Hcases) Hensure)
    as (results & w' & t & ds & Hrun & _ & _ & _ & _ & _ & Hclean').
  exists results, w'. split; [done|]. by apply Hclean'.
Qed.

Lemma parallel_resets_task_parameters_witness :
  let evalCases :=
    [Some (makeEvalCase "case-1" "one"); Some (makeEvalCase "case-2" "two")] in
  exists results w',
    inferEvalCasesParallel [Submit None; Submit (Some "ants: pool closed")] ∅
      testRequest evalCases (testOptions noCallbacks [])
      (testWorld (testService failingManager noCallbacks true))
      = Ok (Some results, None, w') /\
    paramPoolClean w'.
Proof.
  intros evalCases.
  edestruct (parallel_resets_task_parameters
               [Submit None; Submit (Some "ants: pool closed")] ∅
               testRequest evalCases (testOptions noCallbacks [])
               (testWorld (testService failingManager noCallbacks true)))
    as (results & w' & Hrun & Hclean).
  - reflexivity.
  - repeat constructor; eexists; reflexivity.
  - reflexivity.
  - constructor.
  - exists results, w'. split; [exact Hrun|exact Hclean].
Defined.

(** ** The memoized worker pool *)

(** X14: [ensureEvalCaseInferencePool] always returns, and what its first call
    returns is what every later call returns, without any further change:
    neither another size nor another answer of package ants is looked at, so
    that a pool, once created, is kept, and an error of its creation stays. *)
Theorem ensureEvalCaseInferencePool_memoizes size w :
  exists r w1,
    ensureEvalCaseInferencePool size w = Ok (r, w1) /\
    forall size' ants,
      ensureEvalCaseInferencePool size' (setAnts ants w1) = Ok (r, setAnts ants w1).
Proof.
  unfold ensureEvalCaseInferencePool. eexists _, _. split; [reflexivity|].
  intros size' ants. simpl.
  destruct (evalCaseInferencePoolOnce (w_svc w)) eqn:Honce.
  - by rewrite Honce.
  - unfold initEvalCaseInferencePool. simpl.
    destruct (evalCaseInferencePool (w_svc w)); [done|].
    by destruct (createEvalCaseInferencePool _ _).
Qed.

(** X15: the first call of [ensureEvalCaseInferencePool], made with the
    parallelism of the service (the size the declaration in the sources
    builds the pool from, so that the declaration and its callers agree).
    A pool the service already holds is kept and returned; otherwise a
    parallelism that is not positive is refused before package ants is
    asked, an error of package ants is returned behind its prefix, and a pool
    package ants creates is returned.  What is returned is what the service
    now stores, the [sync.Once] has fired, and nothing else has changed:
    neither the configuration of the service nor the rest of the state. *)
Theorem ensureEvalCaseInferencePool_first_call w :
  evalCaseInferencePoolOnce (w_svc w) = false ->
  exists pool err w1,
    ensureEvalCaseInferencePool (evalCaseParallelism (w_svc w)) w
      = Ok (pool, err, w1) /\
    evalCaseInferencePool (w_svc w1) = pool /\
    evalCaseInferencePoolErr (w_svc w1) = err /\
    evalCaseInferencePoolOnce (w_svc w1) = true /\
    sameConfiguration (w_svc w) (w_svc w1) /\
    w_now w1 = w_now w /\ w_trace w1 = w_trace w /\
    w_paramPool w1 = w_paramPool w /\ w_ants w1 = w_ants w /\
    match evalCaseInferencePool (w_svc w) with
    | Some held =>
        pool = Some held /\ err = evalCaseInferencePoolErr (w_svc w)
    | None =>
        if decide (evalCaseParallelism (w_svc w) <= 0)%Z
        then pool = None /\ err = Some "pool size must be greater than 0"
        else
          match ants_NewPoolWithFunc (w_ants w) (evalCaseParallelism (w_svc w)) with
          | inl created =>
              pool = Some created /\ err = evalCaseInferencePoolErr (w_svc w)
          | inr e =>
              pool = None /\
              err = Some ("create eval case inference pool: " +:+ e)
          end
    end.
Proof.
  intros Honce. unfold ensureEvalCaseInferencePool. rewrite Honce.
  eexists _, _, _. split; [reflexivity|]. simpl.
  split; [done|]. split; [done|].
  unfold initEvalCaseInferencePool, createEvalCaseInferencePool. simpl.
  destruct (evalCaseInferencePool (w_svc w)) as [held|] eqn:Hpool; simpl.
  { rewrite ?Hpool. by repeat split. }
  case_decide.
  { rewrite bool_decide_eq_true_2 by done. simpl. rewrite ?Hpool.
    by repeat split. }
  rewrite bool_decide_eq_false_2 by done.
  destruct (ants_NewPoolWithFunc _ _) as [created|e]; simpl; rewrite ?Hpool;
    by repeat split.
Qed.

Lemma ensureEvalCaseInferencePool_first_call_witness :
  let w := setAnts failingAnts
             (testWorld (testService failingManager noCallbacks true)) in
  exists w1,
    ensureEvalCaseInferencePool 2 w
      = Ok (None, Some "create eval case inference pool: ants: invalid size", w1) /\
    evalCaseInferencePool (w_svc w1) = None /\
    evalCaseInferencePoolErr (w_svc w1)
      = Some "create eval case inference pool: ants: invalid size" /\
    evalCaseInferencePoolOnce (w_svc w1) = true.
Proof.
  intros w.
  destruct (ensureEvalCaseInferencePool_first_call w eq_refl)
    as (pool & err & w1 & Hensure & Hpool & Herr & Honce & _ & _ & _ & _ & _
        & Hcreated).
  simpl in Hcreated. destruct Hcreated as [-> ->].
  exists w1. split; [exact Hensure|]. split; [exact Hpool|].
  split; [exact Herr|exact Honce].
Defined.

(** ** Option resolution leaves the service as it is *)

Lemma sameConfiguration_refl s : sameConfiguration s s.
Proof. by repeat split. Qed.

Lemma resolveInferenceOptions_frame opt w :
  exists res w',
    resolveInferenceOptions opt w = Ok (res, w') /\
    sameConfiguration (w_svc w) (w_svc w') /\
    w_now w' = w_now w /\
    w_trace w' = w_trace w /\
    w_paramPool w' = w_paramPool w /\
    (forall callOpts, res = inl callOpts ->
       callOpts = applyOptions opt (serviceDefaults (w_svc w))) /\
    (opt_EvalCaseParallelInferenceEnabled
       (applyOptions opt (serviceDefaults (w_svc w))) = false -> w' = w).
Proof.
  unfold resolveInferenceOptions. m_unfold.
  set (callOpts := applyOptions opt (serviceDefaults (w_svc w))).
  assert (forall res : Options + error,
            (forall o, res = inl o -> o = callOpts) ->
            exists res' w',
              Ok (res, w) = Ok (res', w') /\
              sameConfiguration (w_svc w) (w_svc w') /\
              w_now w' = w_now w /\
              w_trace w' = w_trace w /\ w_paramPool w' = w_paramPool w /\
              (forall o, res' = inl o -> o = callOpts) /\
              (opt_EvalCaseParallelInferenceEnabled callOpts = false -> w' = w))
    as Hsame.
  { intros res Hres. exists res, w. split; [done|].
    split; [apply sameConfiguration_refl|]. by repeat split. }
  destruct (opt_EvalSetManager callOpts) as [mgr|]; [|by apply Hsame].
  destruct (opt_SessionIDSupplier callOpts) as [supplier|]; [|by apply Hsame].
  destruct (opt_EvalCaseParallelInferenceEnabled callOpts) eqn:Hparallel.
  2: { apply Hsame. by intros o [= <-]. }
  destruct (bool_decide _); [by apply Hsame|].
  destruct (ensureEvalCaseInferencePool (opt_EvalCaseParallelism callOpts) w)
    as [[[pool err] w1]|] eqn:Hensure; [|done].
  destruct (ensureEvalCaseInferencePool_frame _ _ _ _ Hensure)
    as (Hnow & Htrace & Hpool & _ & Hconf).
  destruct err as [err|]; eexists _, _; (split; [reflexivity|]);
    (split; [done|]); (split; [done|]); (split; [done|]); (split; [done|]);
    split; try done.
  by intros o [= <-].
Qed.

(** X16: resolving the options of a call always returns, and it never changes the
    configuration of the service, whatever the options of the call set: the
    effective options are a copy of the defaults with the options of the call
    applied in order.  Nothing is called, and unless the effective options
    enable parallel inference nothing at all changes; with parallel inference
    only the memoized pool of the service may be set. *)
Theorem resolveInferenceOptions_keeps_configuration opt w :
  exists res w',
    resolveInferenceOptions opt w = Ok (res, w') /\
    sameConfiguration (w_svc w) (w_svc w') /\
    w_trace w' = w_trace w /\
    w_paramPool w' = w_paramPool w /\
    (forall callOpts, res = inl callOpts ->
       callOpts = applyOptions opt (serviceDefaults (w_svc w))) /\
    (opt_EvalCaseParallelInferenceEnabled
       (applyOptions opt (serviceDefaults (w_svc w))) = false -> w' = w).
Proof.
  destruct (resolveInferenceOptions_frame opt w)
    as (res & w' & Hresolve & Hconf & _ & Htrace & Hpool & Hopts & Hserial).
  by exists res, w'.
Qed.

(** ** The results and the trace of a batch *)

Lemma slotOf_identifies s ctx req opts now rejection evalCase supplier :
  opt_SessionIDSupplier opts = Some supplier ->
  exists r,
    slotOf s ctx req opts now rejection (Some evalCase) = Some r /\
    identifies req (supplier ctx) (ec_EvalID evalCase) r.
Proof.
  intros Hsup. unfold slotOf. destruct rejection as [err|].
  - rewrite Hsup. eexists. split; [reflexivity|]. done.
  - destruct (inferenceEvalCase_identifies s ctx req (Some evalCase) opts now
                supplier Hsup) as (r & t & Hrun & Hid).
    exists r. unfold value. by rewrite Hrun.
Qed.

Lemma inferenceEvalCase_traceOf s ctx req evalCase opts now :
  Forall (fun o => isPipelineObs o = true)
         (traceOf (inferenceEvalCase s ctx req evalCase opts) now).
Proof.
  unfold traceOf.
  destruct (inferenceEvalCase s ctx req evalCase opts now) as [[r t]|] eqn:Hrun;
    [|constructor].
  by eapply inferenceEvalCase_pipeline_trace.
Qed.

(** Either executor, on non-nil cases: one result per case, each carrying the
    identity of its case, and nothing called on behalf of the set. *)
Lemma inferEvalCases_log sched ctx req evalCases opts w supplier :
  opt_SessionIDSupplier opts = Some supplier ->
  Forall is_Some evalCases ->
  (opt_EvalCaseParallelInferenceEnabled opts = true ->
   exists pool w1,
     ensureEvalCaseInferencePool (opt_EvalCaseParallelism opts) w
       = Ok (Some pool, None, w1)) ->
  exists results w' t,
    inferEvalCases sched ctx req evalCases opts w = Ok (Some results, None, w') /\
    w_trace w' = w_trace w ++ t /\
    Forall (fun o => isSetObs o = false) t /\
    Forall2 (fun evalCase slot =>
               exists c r, evalCase = Some c /\ slot = Some r /\
                           identifies req (supplier ctx) (ec_EvalID c) r)
            evalCases results.
Proof.
  intros Hsup Hcases Hpool. unfold inferEvalCases.
  destruct (opt_EvalCaseParallelInferenceEnabled opts).
  - destruct (Hpool eq_refl) as (pool & w1 & Hensure).
    destruct (inferEvalCasesParallel_log sched ctx req evalCases opts w pool w1
                supplier Hsup (rejectedNonNil_all _ _ Hcases) Hensure)
      as (results & w' & t & ds & Hrun & Htrace & _ & _ & (_ & _ & Hset) & _).
    destruct (inferEvalCasesParallel_spec sched ctx req evalCases opts w pool w1
                supplier Hsup (rejectedNonNil_all _ _ Hcases) Hensure)
      as (results' & w'' & Hrun' & Hlen & Hslots).
    rewrite Hrun in Hrun'. injection Hrun' as <- <-.
    exists results, w', t. split; [done|]. split; [done|]. split; [done|].
    apply Forall2_same_length_lookup. split; [done|].
    intros idx evalCase slot Hcase Hslot.
    apply lookup_lt_Some in Hcase as Hlt.
    rewrite Hslots in Hslot by done. injection Hslot as <-.
    unfold caseAt. rewrite Hcase. simpl.
    rewrite Forall_forall in Hcases.
    destruct (Hcases evalCase) as [c ->]; [by eapply list_elem_of_lookup_2|].
    destruct (slotOf_identifies (w_svc w) ctx req opts (w_now w)
                (rejectionOf sched idx) c supplier Hsup) as (r & Hr & Hid).
    by exists c, r.
  - m_unfold.
    destruct (inferEvalCasesSerialLoop_spec (w_svc w) ctx req evalCases opts []
                (w_now w) supplier Hsup) as (t & Hloop).
    pose proof (inferEvalCasesSerialLoop_trace (w_svc w) ctx req evalCases opts []
                  (w_now w) supplier Hsup) as Htrace.
    unfold traceOf in Htrace at 1. rewrite Hloop in Htrace.
    eexists _, _, (t ++ []). split.
    { apply lift_ok. unfold inferEvalCasesSerial.
      erewrite eff_bind_ok; [|exact Hloop|reflexivity]. reflexivity. }
    split; [done|]. split.
    { rewrite app_nil_r, Htrace. apply Forall_concat, Forall_forall.
      intros tc (evalCase & -> & _)%list_elem_of_fmap.
      apply pipeline_no_set_obs, inferenceEvalCase_traceOf. }
    simpl. apply Forall2_fmap_r, Forall_Forall2_diag.
    eapply Forall_impl; [exact Hcases|]. intros evalCase [c ->].
    destruct (inferenceEvalCase_identifies (w_svc w) ctx req (Some c) opts
                (w_now w) supplier Hsup) as (r & tc & Hrun & Hid).
    exists c, r. split; [done|]. split; [|done]. unfold value. by rewrite Hrun.
Qed.

Lemma Forall2_right {A B} (P : A -> B -> Prop) (Q : B -> Prop) l k :
  Forall2 P l k -> (forall x y, P x y -> Q y) -> Forall Q k.
Proof. induction 1; constructor; eauto. Qed.

Lemma addTrace_nil w : addTrace [] w = w.
Proof. destruct w. unfold addTrace. simpl. by rewrite app_nil_r. Qed.

(** What [Inference] does between the registration of the deferred after-set
    call and its run. *)
Lemma InferenceBody_log sched ctx req callOpts w supplier :
  resolved callOpts w ->
  opt_SessionIDSupplier callOpts = Some supplier ->
  exists results err w' t,
    InferenceBody sched ctx req callOpts w = Ok (results, err, w') /\
    w_trace w' =
      w_trace w ++ ObsGet ctx (req_AppName req) (req_EvalSetID req) :: t /\
    Forall (fun o => isSetObs o = false) t /\
    match err with
    | Some e =>
        results = None /\
        exists e', e = wrap "load inference eval cases" (wrap "get eval set" e')
    | None =>
        exists rs,
          results = Some rs /\
          Forall (fun slot =>
                    exists r, slot = Some r /\
                              identifies req (supplier ctx) (res_EvalCaseID r) r)
                 rs
    end.
Proof.
  intros Hresolved Hsup. pose proof Hresolved as ([mgr Hmgr] & _ & Hpool).
  unfold InferenceBody. m_unfold. rewrite Hmgr.
  destruct (loadInferenceEvalCases_spec ctx req mgr (w_now w)) as (res & Hload & Hres).
  rewrite (lift_ok _ _ _ _ Hload).
  destruct res as [evalCases|err].
  2: { destruct Hres as [e ->]. eexists _, _, _, []. split; [reflexivity|].
       split; [done|]. split; [constructor|]. split; [done|]. by eexists. }
  destruct (length evalCases =? 0)%nat.
  { eexists _, _, _, []. split; [reflexivity|]. split; [done|].
    split; [constructor|]. eexists. split; [done|]. constructor. }
  destruct (inferEvalCases_log sched ctx req evalCases callOpts
              (addTrace [ObsGet ctx (req_AppName req) (req_EvalSetID req)] w)
              supplier Hsup Hres)
    as (results & w' & t & Hrun & Htrace & Hset & Hids).
  { intros Hparallel.
    destruct (resolved_addTrace callOpts
                [ObsGet ctx (req_AppName req) (req_EvalSetID req)] w Hresolved)
      as (_ & _ & Hpool').
    destruct (Hpool' Hparallel) as [pool Hensure]. by eexists _, _. }
  rewrite Hrun. eexists _, _, _, t. split; [reflexivity|].
  split; [by rewrite Htrace; simpl; rewrite <- app_assoc|]. split; [done|].
  eexists. split; [done|].
  eapply Forall2_right; [exact Hids|].
  intros evalCase slot (c & r & _ & -> & Hid). exists r. split; [done|].
  destruct Hid as (? & ? & ? & Hcase). by repeat split.
Qed.

(** ** Inference, from the set callbacks' point of view *)

Lemma runBeforeInferenceSetCallbacks_run ctx cbs req now res err req' :
  cb_RunBeforeInferenceSet cbs ctx {| bisa_Request := req |} = (res, err, req') ->
  runBeforeInferenceSetCallbacks ctx cbs req now =
    Ok (setCallbackContext ctx res,
        option_map (wrap ("run before inference set callbacks " +:+ setContext req'))
                   err,
        req', [ObsBeforeInferenceSet ctx {| bisa_Request := req |}]).
Proof.
  intros Hbefore. unfold runBeforeInferenceSetCallbacks. eff_unfold.
  rewrite Hbefore. by destruct err.
Qed.

Lemma runAfterInferenceSetCallbacks_run ctx cbs req results err startTime now :
  runAfterInferenceSetCallbacks ctx cbs req results err startTime now =
    Ok (option_map (wrap ("run after inference set callbacks " +:+ setContext req))
                   (cb_RunAfterInferenceSet cbs ctx
                      (afterSetArgs req results err startTime)),
        [ObsAfterInferenceSet ctx (afterSetArgs req results err startTime)]).
Proof.
  unfold runAfterInferenceSetCallbacks, afterSetArgs. eff_unfold.
  by destruct (cb_RunAfterInferenceSet _ _ _).
Qed.

(** A call of [Inference] whose request is valid, whose options resolve and
    whose before-set callbacks return no error. *)
Lemma Inference_log sched ctx req opt w callOpts w1 res req' :
  poolMemoConsistent (w_svc w) ->
  validateInferenceRequest (Some req) = None ->
  resolveInferenceOptions opt w = Ok (inl callOpts, w1) ->
  cb_RunBeforeInferenceSet (opt_Callbacks callOpts) ctx {| bisa_Request := req |}
    = (res, None, req') ->
  let ctx' := setCallbackContext ctx res in
  exists supplier bodyResults bodyErr w' t,
    opt_SessionIDSupplier callOpts = Some supplier /\
    let args := afterSetArgs req' bodyResults bodyErr (w_now w) in
    Inference sched ctx (Some req) opt w =
      Ok (match cb_RunAfterInferenceSet (opt_Callbacks callOpts) ctx' args with
          | Some e =>
              (None, Some (wrap ("run after inference set callbacks " +:+
                                 setContext req') e))
          | None => (bodyResults, bodyErr)
          end, w') /\
    w_trace w' =
      w_trace w ++
      ObsBeforeInferenceSet ctx {| bisa_Request := req |}
      :: ObsGet ctx' (req_AppName req') (req_EvalSetID req')
      :: t ++ [ObsAfterInferenceSet ctx' args] /\
    Forall (fun o => isSetObs o = false) t /\
    match bodyErr with
    | Some e =>
        bodyResults = None /\
        exists e', e = wrap "load inference eval cases" (wrap "get eval set" e')
    | None =>
        exists rs,
          bodyResults = Some rs /\
          Forall (fun slot =>
                    exists r, slot = Some r /\
                              identifies req' (supplier ctx') (res_EvalCaseID r) r)
                 rs
    end.
Proof.
  intros Hmemo Hvalid Hresolve Hbefore ctx'.
  destruct (resolveInferenceOptions_total opt w Hmemo)
    as (res0 & w0 & Hresolve' & Hnow & Htrace & _ & Hresolved).
  rewrite Hresolve in Hresolve'. injection Hresolve' as <- <-.
  specialize (Hresolved callOpts eq_refl).
  pose proof Hresolved as (_ & [supplier Hsup] & _).
  destruct (InferenceBody_log sched ctx' req' callOpts
              (addTrace [] (addTrace
                 [ObsBeforeInferenceSet ctx {| bisa_Request := req |}] w1))
              supplier) as (results & err & w2 & t & Hbody & Htrace2 & Hset & Hpost);
    [by do 2 apply resolved_addTrace|done|].
  exists supplier, results, err,
    (addTrace [ObsAfterInferenceSet ctx'
                 (afterSetArgs req' results err (w_now w))] w2), t.
  split; [done|]. intros args. split; [|split; [|split; [done|done]]].
  - unfold Inference. rewrite Hvalid. m_unfold. rewrite Hresolve.
    rewrite (lift_ok _ _ _ _
               (runBeforeInferenceSetCallbacks_run ctx _ req (w_now w1) _ _ _
                  Hbefore)).
    simpl. unfold lift at 1. simpl. fold ctx'. rewrite Hbody.
    rewrite runAfterInferenceSetCallbacks_run, Hnow. fold args.
    by destruct (cb_RunAfterInferenceSet _ _ _).
  - simpl. rewrite Htrace2. simpl. rewrite Htrace.
    rewrite app_nil_r, <- !app_assoc. done.
Qed.

(** X17: a request that is nil or lacks the app name or the eval-set ID is
    refused before anything else happens: [Inference] returns the validation
    error, wrapped, and no results; no option is resolved, no pool is
    created and nothing is called. *)
Theorem invalid_request_is_refused_first sched ctx req opt w :
  (forall r, req = Some r -> req_AppName r = "" \/ req_EvalSetID r = "") ->
  Inference sched ctx req opt w =
    Ok (None,
        Some (wrap "validate inference request"
                (match req with
                 | None => "inference request is nil"
                 | Some r =>
                     if decide (req_AppName r = "") then "app name is empty"
                     else "eval set id is empty"
                 end)), w).
Proof.
  intros Hinvalid. unfold Inference, validateInferenceRequest.
  destruct req as [r|]; [|done].
  destruct (Hinvalid r eq_refl) as [Happ|Hset].
  - rewrite bool_decide_eq_true_2 by done. by rewrite decide_True.
  - destruct (decide (req_AppName r = "")) as [Happ|Happ].
    + by rewrite bool_decide_eq_true_2.
    + rewrite bool_decide_eq_false_2 by done.
      by rewrite bool_decide_eq_true_2.
Qed.

Lemma invalid_request_is_refused_first_witness :
  let w := testWorld (testService failingManager failingBeforeSet true) in
  Inference [] ∅
    (Some {| req_AppName := "app"; req_EvalSetID := ""; req_EvalCaseIDs := [] |})
    [] w
  = Ok (None, Some "validate inference request: eval set id is empty", w).
Proof.
  intros w.
  apply (invalid_request_is_refused_first [] ∅
           (Some {| req_AppName := "app"; req_EvalSetID := "";
                    req_EvalCaseIDs := [] |}) [] w).
  intros r [= <-]. right. reflexivity.
Defined.

(** X18: when the before-set callbacks return an error, [Inference] returns it
    with the context of the request prefixed twice, once by
    [runBeforeInferenceSetCallbacks] and once by [Inference] itself, and no
    results; the manager is not asked for the eval set and the after-set
    callbacks do not run: the before-set call is the only one made. *)
Theorem before_set_error_stops_the_call
    sched ctx req opt w callOpts w1 res e req' :
  validateInferenceRequest (Some req) = None ->
  resolveInferenceOptions opt w = Ok (inl callOpts, w1) ->
  cb_RunBeforeInferenceSet (opt_Callbacks callOpts) ctx {| bisa_Request := req |}
    = (res, Some e, req') ->
  Inference sched ctx (Some req) opt w =
    Ok (None,
        Some (wrap ("run before inference set callbacks " +:+ setContext req')
                (wrap ("run before inference set callbacks " +:+ setContext req')
                   e)),
        addTrace [ObsBeforeInferenceSet ctx {| bisa_Request := req |}] w1).
Proof.
  intros Hvalid Hresolve Hbefore.
  unfold Inference. rewrite Hvalid. m_unfold. rewrite Hresolve.
  by rewrite (lift_ok _ _ _ _
                (runBeforeInferenceSetCallbacks_run ctx _ req (w_now w1) _ _ _
                   Hbefore)).
Qed.

Lemma before_set_error_stops_the_call_witness :
  let w := testWorld (testService failingManager failingBeforeSet false) in
  Inference [] ∅ (Some testRequest) [] w =
    Ok (None,
        Some ("run before inference set callbacks (app=app, evalSetID=set): " +:+
              "run before inference set callbacks (app=app, evalSetID=set): " +:+
              "before inference set failed"),
        addTrace [ObsBeforeInferenceSet ∅ {| bisa_Request := testRequest |}] w).
Proof.
  intros w.
  apply (before_set_error_stops_the_call [] ∅ testRequest [] w
           (serviceDefaults (w_svc w)) w None "before inference set failed"
           testRequest); reflexivity.
Defined.

Lemma filter_set_obs (p : Obs -> bool) t :
  (forall o, p o = true -> isSetObs o = true) ->
  Forall (fun o => isSetObs o = false) t -> List.filter p t = [].
Proof.
  intros Hp Ht. eapply filter_none; [exact Ht|].
  intros o Ho. destruct (p o) eqn:Hpo; [|done].
  apply Hp in Hpo. congruence.
Qed.

(** X19: once the request is valid, the options resolve and the before-set
    callbacks return no error, the after-set callbacks run exactly once, as
    the last thing [Inference] does, also when the eval set could not be
    loaded.  They receive the request as the before-set callbacks left it,
    the start time, and the results and the error [Inference] was about to
    return; if they return no error that outcome is returned, and if they
    return an error it replaces the outcome: the results are dropped and the
    error returned is theirs alone, not joined with an earlier one. *)
Theorem after_set_callbacks_run_once sched ctx req opt w callOpts w1 res req' :
  poolMemoConsistent (w_svc w) ->
  validateInferenceRequest (Some req) = None ->
  resolveInferenceOptions opt w = Ok (inl callOpts, w1) ->
  cb_RunBeforeInferenceSet (opt_Callbacks callOpts) ctx {| bisa_Request := req |}
    = (res, None, req') ->
  exists results err w' t args,
    Inference sched ctx (Some req) opt w = Ok (results, err, w') /\
    w_trace w' = w_trace w ++ t /\
    List.filter isAfterInferenceSet t =
      [ObsAfterInferenceSet (setCallbackContext ctx res) args] /\
    last t = Some (ObsAfterInferenceSet (setCallbackContext ctx res) args) /\
    aisa_Request args = req' /\
    aisa_StartTime args = w_now w /\
    match cb_RunAfterInferenceSet (opt_Callbacks callOpts)
            (setCallbackContext ctx res) args with
    | None => results = aisa_Results args /\ err = aisa_Error args
    | Some e =>
        results = None /\
        err = Some (wrap ("run after inference set callbacks " +:+
                          setContext req') e)
    end.
Proof.
  intros Hmemo Hvalid Hresolve Hbefore.
  destruct (Inference_log sched ctx req opt w callOpts w1 res req' Hmemo Hvalid
              Hresolve Hbefore)
    as (supplier & results & err & w' & t & _ & Hrun & Htrace & Hset & _).
  simpl in Hrun, Htrace.
  set (args := afterSetArgs req' results err (w_now w)) in *.
  set (after := cb_RunAfterInferenceSet (opt_Callbacks callOpts)
                  (setCallbackContext ctx res) args) in *.
  exists (match after with Some _ => None | None => results end),
    (match after with
     | Some e => Some (wrap ("run after inference set callbacks " +:+
                             setContext req') e)
     | None => err
     end), w'.
  eexists _, args.
  split; [|split; [exact Htrace|]].
  { rewrite Hrun. by destruct after. }
  split; [|split; [|split; [done|split; [done|]]]].
  - simpl. rewrite List.filter_app. simpl.
    by rewrite (filter_set_obs isAfterInferenceSet t) by (done || by intros []).
  - by rewrite !app_comm_cons, last_snoc.
  - subst after. by destruct (cb_RunAfterInferenceSet _ _ _).
Qed.

Lemma after_set_callbacks_run_once_witness :
  let evalCases := [Some (traceCase "case-1" "one")] in
  let w := testWorld (testService (testManager evalCases) failingAfterSet false) in
  exists w' t args,
    Inference [] ∅ (Some testRequest) [] w =
      Ok (None,
          Some ("run after inference set callbacks (app=app, evalSetID=set): " +:+
                "after inference set failed"), w') /\
    w_trace w' = [] ++ t /\
    List.filter isAfterInferenceSet t = [ObsAfterInferenceSet ∅ args].
Proof.
  intros evalCases w.
  destruct (after_set_callbacks_run_once [] ∅ testRequest [] w
              (serviceDefaults (w_svc w)) w None testRequest)
    as (results & err & w' & t & args & Hrun & Htrace & Hafter & _ & _ & _ & Hout).
  - intros Honce. discriminate Honce.
  - reflexivity.
  - reflexivity.
  - reflexivity.
  - simpl in Hout. destruct Hout as [-> ->].
    exists w', t, args. split; [exact Hrun|]. split; [exact Htrace|exact Hafter].
Defined.

(** X20: the context the before-set callbacks return replaces the context of the
    call for the rest of [Inference]: the manager is asked once, with that
    context and with the app name and the eval-set ID of the request as the
    callbacks left it, and every result that is returned carries that app
    name and eval-set ID and the session ID the supplier gives for that
    context. *)
Theorem before_set_context_reaches_the_batch
    sched ctx req opt w callOpts w1 res req' :
  poolMemoConsistent (w_svc w) ->
  validateInferenceRequest (Some req) = None ->
  resolveInferenceOptions opt w = Ok (inl callOpts, w1) ->
  cb_RunBeforeInferenceSet (opt_Callbacks callOpts) ctx {| bisa_Request := req |}
    = (res, None, req') ->
  let ctx' := setCallbackContext ctx res in
  exists supplier results err w' t,
    opt_SessionIDSupplier callOpts = Some supplier /\
    Inference sched ctx (Some req) opt w = Ok (results, err, w') /\
    w_trace w' = w_trace w ++ t /\
    List.filter isGet t = [ObsGet ctx' (req_AppName req') (req_EvalSetID req')] /\
    forall rs, results = Some rs ->
      Forall (fun slot =>
                exists r, slot = Some r /\
                          identifies req' (supplier ctx') (res_EvalCaseID r) r) rs.
Proof.
  intros Hmemo Hvalid Hresolve Hbefore ctx'.
  destruct (Inference_log sched ctx req opt w callOpts w1 res req' Hmemo Hvalid
              Hresolve Hbefore)
    as (supplier & results & err & w' & t & Hsup & Hrun & Htrace & Hset & Hpost).
  simpl in Hrun, Htrace. fold ctx' in Hrun, Htrace, Hpost.
  set (after := cb_RunAfterInferenceSet (opt_Callbacks callOpts) ctx'
                  (afterSetArgs req' results err (w_now w))) in *.
  exists supplier,
    (match after with Some _ => None | None => results end),
    (match after with
     | Some e => Some (wrap ("run after inference set callbacks " +:+
                             setContext req') e)
     | None => err
     end), w'.
  eexists. split; [done|]. split; [rewrite Hrun; by destruct after|].
  split; [exact Htrace|]. split.
  - simpl. rewrite List.filter_app. simpl.
    by rewrite (filter_set_obs isGet t) by (done || by intros []).
  - intros rs Hrs. destruct after; [done|]. subst results.
    destruct err as [e|]; [by destruct Hpost|].
    destruct Hpost as (rs' & [= <-] & Hids). exact Hids.
Qed.

Lemma before_set_context_reaches_the_batch_witness :
  let evalCases := [Some (traceCase "case-1" "one")] in
  let s :=
    {| runner := fakeRunner;
       evalSetManager := Some (testManager evalCases);
       sessionIDSupplier := Some contextSessionID;
       callbacks := contextSettingBeforeSet;
       runOptions := [];
       evalCaseParallelism := 2;
       evalCaseParallelInferenceEnabled := false;
       evalCaseParallelEvaluationEnabled := false;
       evalCaseInferencePoolOnce := false;
       evalCaseInferencePool := None;
       evalCaseInferencePoolErr := None |} in
  exists results err w',
    Inference [] ∅ (Some testRequest) [] (testWorld s) = Ok (results, err, w') /\
    forall rs, results = Some rs ->
      Forall (fun slot => exists r, slot = Some r /\
                                    res_SessionID r = "from-context") rs.
Proof.
  intros evalCases s.
  destruct (before_set_context_reaches_the_batch [] ∅ testRequest []
              (testWorld s) (serviceDefaults s) (testWorld s)
              (Some {| bisr_Context := Some (<["session" := "from-context"]> ∅) |})
              testRequest)
    as (supplier & results & err & w' & t & Hsup & Hrun & _ & _ & Hids).
  - intros Honce. discriminate Honce.
  - reflexivity.
  - reflexivity.
  - reflexivity.
  - exists results, err, w'. split; [exact Hrun|].
    intros rs Hrs. eapply Forall_impl; [exact (Hids rs Hrs)|].
    intros slot (r & -> & _ & _ & Hsession & _). exists r. split; [done|].
    rewrite Hsession. injection Hsup as <-. reflexivity.
Defined.

(** X21: whatever the strategy and, under the parallel one, whatever the
    schedule, the executor returns one result per case, and the result at
    the index of a case carries the ID of that case, the app name and the
    eval-set ID of the request and the session ID of the call. *)
Theorem batch_results_identify_their_cases
    sched ctx req evalCases opts w supplier :
  opt_SessionIDSupplier opts = Some supplier ->
  Forall is_Some evalCases ->
  (opt_EvalCaseParallelInferenceEnabled opts = true ->
   exists pool w1,
     ensureEvalCaseInferencePool (opt_EvalCaseParallelism opts) w
       = Ok (Some pool, None, w1)) ->
  exists results w',
    inferEvalCases sched ctx req evalCases opts w = Ok (Some results, None, w') /\
    Forall2 (fun evalCase slot =>
               exists c r, evalCase = Some c /\ slot = Some r /\
                           identifies req (supplier ctx) (ec_EvalID c) r)
            evalCases results.
Proof.
  intros Hsup Hcases Hpool.
  destruct (inferEvalCases_log sched ctx req evalCases opts w supplier Hsup Hcases
              Hpool) as (results & w' & t & Hrun & _ & _ & Hids).
  by exists results, w'.
Qed.

Lemma batch_results_identify_their_cases_witness :
  let evalCases :=
    [Some (makeEvalCase "case-1" "one"); Some (makeEvalCase "case-2" "two")] in
  let s := testService failingManager failingBeforeCase true in
  exists results w',
    inferEvalCases [Submit (Some "ants: pool closed")] ∅ testRequest evalCases
      (serviceDefaults s) (testWorld s) = Ok (Some results, None, w') /\
    option_map res_EvalCaseID <$> results = [Some "case-1"; Some "case-2"].
Proof.
  intros evalCases s.
  destruct (batch_results_identify_their_cases
              [Submit (Some "ants: pool closed")] ∅ testRequest evalCases
              (serviceDefaults s) (testWorld s) (fun _ => "session"))
    as (results & w' & Hrun & Hids).
  - reflexivity.
  - repeat constructor; eexists; reflexivity.
  - intros _. eexists _, _. reflexivity.
  - exists results, w'. split; [exact Hrun|].
    apply Forall2_cons_inv_l in Hids
      as (slot1 & rest1 & (c1 & r1 & [= <-] & -> & _ & _ & _ & Hid1) & Hids & ->).
    apply Forall2_cons_inv_l in Hids
      as (slot2 & rest2 & (c2 & r2 & [= <-] & -> & _ & _ & _ & Hid2) & Hids & ->).
    apply Forall2_nil_inv_l in Hids as ->.
    simpl. by rewrite Hid1, Hid2.
Defined.

(** ** A request that selects no case *)

Lemma filterEvalCases_nil keep evalCases :
  (forall evalCase, Some evalCase ∈ evalCases -> keep evalCase = false) ->
  filterEvalCases keep evalCases = [].
Proof.
  induction evalCases as [|[evalCase|] rest IH]; intros Hkeep; simpl; [done| |].
  - rewrite (Hkeep evalCase) by left. apply IH.
    intros c Hc. apply Hkeep. by right.
  - apply IH. intros c Hc. apply Hkeep. by right.
Qed.

Lemma loadInferenceEvalCases_empty ctx req mgr evalSet now :
  mgr_Get mgr ctx (req_AppName req) (req_EvalSetID req) = inl evalSet ->
  (forall evalCase, Some evalCase ∈ es_EvalCases evalSet ->
     req_EvalCaseIDs req <> [] /\ ec_EvalID evalCase ∉ req_EvalCaseIDs req) ->
  loadInferenceEvalCases ctx req (Some mgr) now
    = Ok (inl [], [ObsGet ctx (req_AppName req) (req_EvalSetID req)]).
Proof.
  intros Hget Hnone. unfold loadInferenceEvalCases. eff_unfold. rewrite Hget.
  destruct (req_EvalCaseIDs req) as [|id ids] eqn:Hids; cbn [length Nat.eqb].
  - rewrite filterEvalCases_nil; [done|].
    intros evalCase Hin. by destruct (Hnone evalCase Hin).
  - rewrite filterEvalCases_nil; [done|].
    intros evalCase Hin. destruct (Hnone evalCase Hin) as [_ Hid].
    apply bool_decide_eq_false_2. by rewrite elem_of_list_to_set.
Qed.

(** X22: a request none of whose case IDs names a case of the eval set, or an
    eval set without cases, is not an error: no case is processed, neither
    executor is entered, and [Inference] hands the after-set callbacks, and
    then returns, an empty list of results, which is not nil. *)
Theorem empty_selection_gives_empty_results
    sched ctx req opt w callOpts w1 res req' mgr evalSet :
  validateInferenceRequest (Some req) = None ->
  resolveInferenceOptions opt w = Ok (inl callOpts, w1) ->
  cb_RunBeforeInferenceSet (opt_Callbacks callOpts) ctx {| bisa_Request := req |}
    = (res, None, req') ->
  let ctx' := setCallbackContext ctx res in
  opt_EvalSetManager callOpts = Some mgr ->
  mgr_Get mgr ctx' (req_AppName req') (req_EvalSetID req') = inl evalSet ->
  (forall evalCase, Some evalCase ∈ es_EvalCases evalSet ->
     req_EvalCaseIDs req' <> [] /\ ec_EvalID evalCase ∉ req_EvalCaseIDs req') ->
  let args := afterSetArgs req' (Some []) None (w_now w) in
  exists w',
    Inference sched ctx (Some req) opt w =
      Ok (match cb_RunAfterInferenceSet (opt_Callbacks callOpts) ctx' args with
          | Some e =>
              (None, Some (wrap ("run after inference set callbacks " +:+
                                 setContext req') e))
          | None => (Some [], None)
          end, w') /\
    w_trace w' =
      w_trace w ++
      [ObsBeforeInferenceSet ctx {| bisa_Request := req |};
       ObsGet ctx' (req_AppName req') (req_EvalSetID req');
       ObsAfterInferenceSet ctx' args].
Proof.
  intros Hvalid Hresolve Hbefore ctx' Hmgr Hget Hnone args.
  destruct (resolveInferenceOptions_frame opt w)
    as (res0 & w0 & Hresolve' & _ & Hnow & Htrace & _).
  rewrite Hresolve in Hresolve'. injection Hresolve' as <- <-.
  eexists. split.
  - unfold Inference. rewrite Hvalid. m_unfold. rewrite Hresolve.
    rewrite (lift_ok _ _ _ _
               (runBeforeInferenceSetCallbacks_run ctx _ req (w_now w1) _ _ _
                  Hbefore)).
    simpl. unfold lift at 1. simpl. fold ctx'.
    unfold InferenceBody. m_unfold. rewrite Hmgr.
    rewrite (lift_ok _ _ _ _
               (loadInferenceEvalCases_empty ctx' req' mgr evalSet _ Hget Hnone)).
    simpl. unfold lift. simpl.
    rewrite runAfterInferenceSetCallbacks_run, Hnow. fold args.
    destruct (cb_RunAfterInferenceSet _ _ _); reflexivity.
  - simpl. rewrite Htrace, app_nil_r, <- !app_assoc. done.
Qed.

Lemma empty_selection_gives_empty_results_witness :
  let evalCases := [Some (makeEvalCase "case-1" "one"); None] in
  let w := testWorld (testService (testManager evalCases) noCallbacks false) in
  let req := {| req_AppName := "app"; req_EvalSetID := "set";
                req_EvalCaseIDs := ["case-7"] |} in
  exists w', Inference [] ∅ (Some req) [] w = Ok (Some [], None, w').
Proof.
  intros evalCases w req.
  destruct (empty_selection_gives_empty_results [] ∅ req [] w
              (serviceDefaults (w_svc w)) w None req (testManager evalCases)
              {| es_EvalCases := evalCases |}) as (w' & Hrun & _).
  - reflexivity.
  - reflexivity.
  - reflexivity.
  - reflexivity.
  - reflexivity.
  - intros evalCase Hin. split; [done|].
    apply elem_of_cons in Hin as [[= ->]|Hin].
    + by intros [?|?%elem_of_nil]%elem_of_cons.
    + apply elem_of_cons in Hin as [?|?%elem_of_nil]; done.
  - exists w'. exact Hrun.
Defined.

(** ** One result per selected case *)

Lemma filterEvalCases_filter keep (P : EvalCase -> Prop) `{!forall c, Decision (P c)}
    evalCases :
  (forall c, keep c = true <-> P c) ->
  filterEvalCases keep evalCases = Some <$> filter P (omap id evalCases).
Proof.
  intros Hkeep. induction evalCases as [|[evalCase|] rest IH]; simpl; [done| |done].
  rewrite filter_cons. destruct (keep evalCase) eqn:Hk.
  - rewrite decide_True by (by apply Hkeep). simpl. by rewrite IH.
  - rewrite decide_False; [done|]. rewrite <- Hkeep. congruence.
Qed.

Lemma loadInferenceEvalCases_selected ctx req mgr evalSet now :
  mgr_Get mgr ctx (req_AppName req) (req_EvalSetID req) = inl evalSet ->
  loadInferenceEvalCases ctx req (Some mgr) now
    = Ok (inl (Some <$> selectedCases req evalSet),
          [ObsGet ctx (req_AppName req) (req_EvalSetID req)]).
Proof.
  intros Hget. unfold loadInferenceEvalCases, selectedCases. eff_unfold.
  rewrite Hget.
  destruct (req_EvalCaseIDs req) as [|id ids] eqn:Hids; cbn [length Nat.eqb].
  - erewrite filterEvalCases_filter; [done|]. intros c. split; auto.
  - erewrite filterEvalCases_filter; [done|]. intros c.
    rewrite bool_decide_eq_true, elem_of_list_to_set. split; [auto|].
    by intros [?|?].
Qed.

(** X23: [Inference] returns exactly one result per case the request selects, in
    the order of the eval set, whatever the strategy and the schedule: the
    result at an index carries the ID of the selected case at that index.
    (The after-set callbacks are taken not to fail: their error would replace
    the results.) *)
Theorem inference_returns_one_result_per_selected_case
    sched ctx req opt w callOpts w1 res req' mgr evalSet :
  poolMemoConsistent (w_svc w) ->
  validateInferenceRequest (Some req) = None ->
  resolveInferenceOptions opt w = Ok (inl callOpts, w1) ->
  cb_RunBeforeInferenceSet (opt_Callbacks callOpts) ctx {| bisa_Request := req |}
    = (res, None, req') ->
  opt_EvalSetManager callOpts = Some mgr ->
  mgr_Get mgr (setCallbackContext ctx res) (req_AppName req') (req_EvalSetID req')
    = inl evalSet ->
  (forall c a, cb_RunAfterInferenceSet (opt_Callbacks callOpts) c a = None) ->
  exists rs w',
    Inference sched ctx (Some req) opt w = Ok (Some rs, None, w') /\
    Forall2 (fun evalCase slot =>
               exists r, slot = Some r /\ res_EvalCaseID r = ec_EvalID evalCase)
            (selectedCases req' evalSet) rs.
Proof.
  intros Hmemo Hvalid Hresolve Hbefore Hmgr Hget Hafter.
  set (ctx' := setCallbackContext ctx res) in *.
  destruct (resolveInferenceOptions_total opt w Hmemo)
    as (res0 & w0 & Hresolve' & Hnow & Htrace & _ & Hresolved).
  rewrite Hresolve in Hresolve'. injection Hresolve' as <- <-.
  specialize (Hresolved callOpts eq_refl).
  pose proof Hresolved as (_ & [supplier Hsup] & _).
  set (w2 := addTrace [ObsGet ctx' (req_AppName req') (req_EvalSetID req')]
               (addTrace [] (addTrace
                  [ObsBeforeInferenceSet ctx {| bisa_Request := req |}] w1))).
  assert (exists rs w',
            InferenceBody sched ctx' req' callOpts
              (addTrace [] (addTrace
                 [ObsBeforeInferenceSet ctx {| bisa_Request := req |}] w1))
              = Ok (Some rs, None, w') /\
            Forall2 (fun evalCase slot =>
                       exists r, slot = Some r /\
                                 res_EvalCaseID r = ec_EvalID evalCase)
                    (selectedCases req' evalSet) rs) as (rs & w' & Hbody & Hids).
  { unfold InferenceBody. m_unfold. rewrite Hmgr.
    rewrite (lift_ok _ _ _ _
               (loadInferenceEvalCases_selected ctx' req' mgr evalSet _ Hget)).
    fold w2.
    destruct (decide (selectedCases req' evalSet = [])) as [Hselected|Hselected].
    { rewrite Hselected. eexists _, _. split; [reflexivity|]. constructor. }
    assert ((length (Some <$> selectedCases req' evalSet) =? 0)%nat = false) as ->.
    { by destruct (selectedCases req' evalSet). }
    destruct (inferEvalCases_log sched ctx' req'
                (Some <$> selectedCases req' evalSet) callOpts w2 supplier Hsup)
      as (rs & w' & t & Hrun & _ & _ & Hids).
    { apply Forall_fmap, Forall_true. intros evalCase. by eexists. }
    { intros Hparallel.
      assert (resolved callOpts w2) as (_ & _ & Hpool)
        by (by do 3 apply resolved_addTrace).
      destruct (Hpool Hparallel) as [pool Hensure]. by eexists _, _. }
    rewrite Hrun. eexists _, _. split; [reflexivity|].
    apply Forall2_fmap_l in Hids. eapply Forall2_impl; [exact Hids|].
    intros evalCase slot (c' & r & [= <-] & -> & _ & _ & _ & Hid).
    by exists r. }
  exists rs. eexists. split; [|done].
  unfold Inference. rewrite Hvalid. m_unfold. rewrite Hresolve.
  rewrite (lift_ok _ _ _ _
             (runBeforeInferenceSetCallbacks_run ctx _ req (w_now w1) _ _ _
                Hbefore)).
  simpl. unfold lift at 1. simpl. fold ctx'. rewrite Hbody.
  unfold lift. rewrite runAfterInferenceSetCallbacks_run, Hafter. reflexivity.
Qed.

Lemma inference_returns_one_result_per_selected_case_witness :
  let evalCases :=
    [Some (makeEvalCase "case-1" "one"); None; Some (makeEvalCase "case-2" "two");
     Some (makeEvalCase "case-3" "three")] in
  let w := testWorld (testService (testManager evalCases) noCallbacks false) in
  let req := {| req_AppName := "app"; req_EvalSetID := "set";
                req_EvalCaseIDs := ["case-3"; "case-1"] |} in
  exists rs w',
    Inference [] ∅ (Some req) [] w = Ok (Some rs, None, w') /\
    option_map res_EvalCaseID <$> rs = [Some "case-1"; Some "case-3"].
Proof.
  intros evalCases w req.
  destruct (inference_returns_one_result_per_selected_case [] ∅ req [] w
              (serviceDefaults (w_svc w)) w None req (testManager evalCases)
              {| es_EvalCases := evalCases |}) as (rs & w' & Hrun & Hids).
  - intros Honce. discriminate Honce.
  - reflexivity.
  - reflexivity.
  - reflexivity.
  - reflexivity.
  - reflexivity.
  - reflexivity.
  - exists rs, w'. split; [exact Hrun|].
    change (selectedCases req {| es_EvalCases := evalCases |})
      with [makeEvalCase "case-1" "one"; makeEvalCase "case-3" "three"] in Hids.
    apply Forall2_cons_inv_l in Hids as (slot1 & rest1 & (r1 & -> & Hid1) & Hids & ->).
    apply Forall2_cons_inv_l in Hids as (slot2 & rest2 & (r2 & -> & Hid2) & Hids & ->).
    apply Forall2_nil_inv_l in Hids as ->.
    simpl. by rewrite Hid1, Hid2.
Defined.

(** ** Status and payload of a case result *)

Lemma bodyPost_consistent req sessionID evalCase result err :
  bodyPost req sessionID evalCase result err ->
  consistentResult result /\ (err = None <-> res_Status result = EvalStatusPassed).
Proof.
  unfold bodyPost, consistentResult. destruct err as [e|].
  - intros [-> [rest ->]]. split; [|done]. right. by repeat split.
  - intros [inferences ->]. split; [|done]. left. split; [done|].
    split; [by eexists|done].
Qed.

(** X24: the result of a case is never left half-filled: either it is passed,
    holds inferences and has no error message, or it is failed, holds no
    inferences and has an error message.  No other status is produced. *)
Theorem case_result_is_consistent s ctx req evalCase opts now supplier :
  opt_SessionIDSupplier opts = Some supplier ->
  exists r t,
    inferenceEvalCase s ctx req evalCase opts now = Ok (r, t) /\
    consistentResult r.
Proof.
  intros Hsup. destruct evalCase as [evalCase|].
  2: { eexists _, _. split; [by apply inferenceEvalCase_nil|].
       right. by repeat split. }
  destruct (cb_RunBeforeInferenceCase (opt_Callbacks opts) ctx
              (beforeCaseArgs req evalCase (supplier ctx))) as [res [e|]] eqn:Hbefore.
  { eexists _, _. split; [by eapply inferenceEvalCase_before_error|].
    right. by repeat split. }
  destruct (inferenceEvalCaseBody_spec s (caseContext ctx res) req evalCase opts
              (supplier ctx) now) as (result & err & t0 & Hbody & Hpost & _).
  apply bodyPost_consistent in Hpost as [Hpost _].
  eexists _, _. split; [by eapply inferenceEvalCase_run|].
  destruct (cb_RunAfterInferenceCase _ _ _) as [afterErr|]; [|done].
  right. split; [done|]. split; [done|]. simpl.
  destruct err as [e|]; simpl; [|done].
  unfold errors_Join. destruct e; done.
Qed.

Lemma case_result_is_consistent_witness :
  exists r t,
    inferenceEvalCase (testService failingManager failingAfterCase false) ∅
      testRequest (Some (traceCase "case-1" "prompt"))
      (testOptions failingAfterCase []) 123 = Ok (r, t) /\
    consistentResult r.
Proof.
  apply (case_result_is_consistent
           (testService failingManager failingAfterCase false) ∅ testRequest
           (Some (traceCase "case-1" "prompt")) (testOptions failingAfterCase [])
           123 (fun _ => "session")).
  reflexivity.
Defined.


(** ** The case callbacks around the pipeline *)

Lemma injectsInOrder_not_before opts evalCase o :
  injectsInOrder opts evalCase o -> isBeforeInferenceCase o = false.
Proof. by intros (? & ? & ? & ? & ? & ? & -> & _). Qed.

(** X25: for a case that is not nil the before-case callbacks run exactly
    once and before anything else is called for the case; they receive the
    request, the ID of the case and the session ID the supplier gives for
    the context of the call. *)
Theorem before_case_callbacks_run_first s ctx req evalCase opts now supplier :
  opt_SessionIDSupplier opts = Some supplier ->
  exists r t t',
    inferenceEvalCase s ctx req (Some evalCase) opts now = Ok (r, t) /\
    t = ObsBeforeInferenceCase ctx
          {| bica_Request := req; bica_EvalCaseID := ec_EvalID evalCase;
             bica_SessionID := supplier ctx |} :: t' /\
    count isBeforeInferenceCase t' = 0.
Proof.
  intros Hsup.
  destruct (cb_RunBeforeInferenceCase (opt_Callbacks opts) ctx
              (beforeCaseArgs req evalCase (supplier ctx))) as [res [e|]] eqn:Hbefore.
  { eexists _, _, _. split; [by eapply inferenceEvalCase_before_error|]. done. }
  destruct (inferenceEvalCaseBody_spec s (caseContext ctx res) req evalCase opts
              (supplier ctx) now) as (result & err & t0 & Hbody & _ & Ht0 & _).
  eexists _, _, _. split; [by eapply inferenceEvalCase_run|]. split; [done|].
  unfold count. rewrite List.filter_app.
  by rewrite (filter_none _ _ _ Ht0 (injectsInOrder_not_before opts evalCase)).
Qed.

Lemma before_case_callbacks_run_first_witness :
  exists r t t',
    inferenceEvalCase (testService failingManager noCallbacks false) ∅ testRequest
      (Some (makeEvalCase "case-1" "prompt")) (testOptions noCallbacks []) 123
      = Ok (r, t) /\
    t = ObsBeforeInferenceCase ∅
          {| bica_Request := testRequest; bica_EvalCaseID := "case-1";
             bica_SessionID := "session" |} :: t' /\
    count isBeforeInferenceCase t' = 0.
Proof.
  apply (before_case_callbacks_run_first
           (testService failingManager noCallbacks false) ∅ testRequest
           (makeEvalCase "case-1" "prompt") (testOptions noCallbacks []) 123
           (fun _ => "session")).
  reflexivity.
Defined.

(** X26: what the after-case callbacks receive is the outcome of the case as
    it stands when they run: the request, the start time, the result of the
    case, and an error exactly when that result is failed, the error being
    the one whose message the result records. *)
Theorem after_case_callbacks_see_the_outcome
    s ctx req evalCase opts now supplier :
  opt_SessionIDSupplier opts = Some supplier ->
  exists r t,
    inferenceEvalCase s ctx req (Some evalCase) opts now = Ok (r, t) /\
    forall c a, ObsAfterInferenceCase c a ∈ t ->
      aica_Request a = req /\
      aica_StartTime a = now /\
      identifies req (supplier ctx) (ec_EvalID evalCase) (aica_Result a) /\
      match aica_Error a with
      | None => res_Status (aica_Result a) = EvalStatusPassed
      | Some e =>
          res_Status (aica_Result a) = EvalStatusFailed /\
          res_ErrorMessage (aica_Result a) = e
      end.
Proof.
  intros Hsup.
  destruct (cb_RunBeforeInferenceCase (opt_Callbacks opts) ctx
              (beforeCaseArgs req evalCase (supplier ctx))) as [res [e|]] eqn:Hbefore.
  { eexists _, _. split; [by eapply inferenceEvalCase_before_error|].
    intros c a [[=]|[]%elem_of_nil]%elem_of_cons. }
  destruct (inferenceEvalCaseBody_spec s (caseContext ctx res) req evalCase opts
              (supplier ctx) now) as (result & err & t0 & Hbody & Hpost & Ht0 & _).
  eexists _, _. split; [by eapply inferenceEvalCase_run|].
  intros c a [[=]|Hin]%elem_of_cons.
  apply elem_of_app in Hin as [Hin|Hin].
  { rewrite Forall_forall in Ht0. apply Ht0 in Hin.
    by destruct Hin as (? & ? & ? & ? & ? & ? & [=] & _). }
  apply list_elem_of_singleton in Hin. injection Hin as -> ->.
  split; [done|]. split; [done|].
  split; [by eapply bodyPost_identifies|]. simpl.
  unfold bodyPost in Hpost. destruct err as [e|].
  - by destruct Hpost as [-> _].
  - by destruct Hpost as [inferences ->].
Qed.

Lemma after_case_callbacks_see_the_outcome_witness :
  let evalCase := withCase EvalModeTrace [] None [] (makeEvalCase "case-1" "p") in
  exists r t,
    inferenceEvalCase (testService failingManager noCallbacks false) ∅ testRequest
      (Some evalCase) (testOptions noCallbacks []) 123 = Ok (r, t) /\
    forall c a, ObsAfterInferenceCase c a ∈ t ->
      aica_StartTime a = 123 /\
      res_EvalCaseID (aica_Result a) = "case-1".
Proof.
  intros evalCase.
  destruct (after_case_callbacks_see_the_outcome
              (testService failingManager noCallbacks false) ∅ testRequest
              evalCase (testOptions noCallbacks []) 123 (fun _ => "session")
              eq_refl) as (r & t & Hrun & Hafter).
  exists r, t. split; [exact Hrun|].
  intros c a Hin. destruct (Hafter c a Hin) as (_ & Hstart & (_ & _ & _ & Hid) & _).
  split; [exact Hstart|exact Hid].
Defined.

(** ** The schedule does not show in the results *)

(** X27: under the parallel strategy the results do not depend on when the
    workers run the tasks: two schedules under which the pool answers the
    submissions alike give the same results array. *)
Theorem parallel_results_do_not_depend_on_the_schedule
    sched sched' ctx req evalCases opts w pool w1 supplier :
  opt_SessionIDSupplier opts = Some supplier ->
  Forall is_Some evalCases ->
  ensureEvalCaseInferencePool (opt_EvalCaseParallelism opts) w
    = Ok (Some pool, None, w1) ->
  (forall idx, idx < length evalCases ->
     rejectionOf sched idx = rejectionOf sched' idx) ->
  exists results w' w'',
    inferEvalCasesParallel sched ctx req evalCases opts w
      = Ok (Some results, None, w') /\
    inferEvalCasesParallel sched' ctx req evalCases opts w
      = Ok (Some results, None, w'').
Proof.
  intros Hsup Hcases Hensure Hsame.
  destruct (inferEvalCasesParallel_spec sched ctx req evalCases opts w pool w1
              supplier Hsup (rejectedNonNil_all _ _ Hcases) Hensure)
    as (results & w' & Hrun & Hlen & Hslots).
  destruct (inferEvalCasesParallel_spec sched' ctx req evalCases opts w pool w1
              supplier Hsup (rejectedNonNil_all _ _ Hcases) Hensure)
    as (results' & w'' & Hrun' & Hlen' & Hslots').
  assert (results' = results) as ->.
  { apply list_eq. intros idx.
    destruct (decide (idx < length evalCases)) as [Hlt|Hge].
    - by rewrite Hslots, Hslots', Hsame.
    - by rewrite !lookup_ge_None_2 by lia. }
  by exists results, w', w''.
Qed.

Lemma parallel_results_do_not_depend_on_the_schedule_witness :
  let evalCases :=
    [Some (makeEvalCase "case-1" "one"); Some (makeEvalCase "case-2" "two")] in
  let w := testWorld (testService failingManager noCallbacks true) in
  exists results w' w'',
    inferEvalCasesParallel [Submit None; Submit None; Work 1; Work 0] ∅
      testRequest evalCases (testOptions noCallbacks []) w
      = Ok (Some results, None, w') /\
    inferEvalCasesParallel [Submit None; Work 0] ∅ testRequest evalCases
      (testOptions noCallbacks []) w = Ok (Some results, None, w'').
Proof.
  intros evalCases w.
  edestruct (parallel_results_do_not_depend_on_the_schedule
               [Submit None; Submit None; Work 1; Work 0] [Submit None; Work 0] ∅
               testRequest evalCases (testOptions noCallbacks []) w)
    as (results & w' & w'' & Hrun & Hrun').
  - reflexivity.
  - repeat constructor; eexists; reflexivity.
  - reflexivity.
  - intros [|[|idx]] Hidx; reflexivity.
  - exists results, w', w''. split; [exact Hrun|exact Hrun'].
Defined.

(** * Where a failure of [Inference] ends up *)

(** ** Messages *)

Lemma contains_wrap_r (sub prefix e : string) :
  contains sub e -> contains sub (wrap prefix e).
Proof. intros H. unfold wrap. by do 2 apply contains_append_r. Qed.

Lemma contains_wrap_l (sub prefix e : string) :
  contains sub prefix -> contains sub (wrap prefix e).
Proof. intros H. unfold wrap. by apply contains_append_l. Qed.

Lemma contains_join_r (sub : string) err afterErr :
  contains sub afterErr -> contains sub (errors_Join err afterErr).
Proof.
  intros H. destruct err as [e|]; simpl; [|done].
  by do 2 apply contains_append_r.
Qed.

Lemma contains_join_l (sub e afterErr : string) :
  contains sub e -> contains sub (errors_Join (Some e) afterErr).
Proof. intros H. simpl. by apply contains_append_l. Qed.

Lemma contains_caseError (sub evalCaseID sessionID rest : string) :
  contains sub rest -> contains sub (caseError evalCaseID sessionID rest).
Proof. intros H. unfold caseError. by repeat apply contains_append_r. Qed.

Lemma contains_literal_prefix (sub post : string) : contains sub (sub +:+ post).
Proof. by exists "", post. Qed.

(** ** The faults of a case *)

Lemma checkActualConversation_bad i actual :
  existsb badTurn actual = true ->
  exists msg,
    checkActualConversation i actual = Some msg /\ contains "is nil at index" msg.
Proof.
  revert i. induction actual as [|[invocation|] rest IH]; intros i; simpl; [done| |].
  - destruct (inv_UserContent invocation).
    + intros H. by apply IH.
    + intros _. eexists. split; [reflexivity|].
      exists "actual invocation user content ", (" " +:+ pretty i). reflexivity.
  - intros _. eexists. split; [reflexivity|].
    exists "actual invocation ", (" " +:+ pretty i). reflexivity.
Qed.

Lemma checkActualConversation_good i actual :
  existsb badTurn actual = false -> checkActualConversation i actual = None.
Proof.
  revert i. induction actual as [|[invocation|] rest IH]; intros i; simpl;
    [done| |done].
  destruct (inv_UserContent invocation); [|done]. apply IH.
Qed.

Lemma nil_message_split messages :
  existsb isNilMessage messages = true ->
  exists seed rest, messages = map Some seed ++ None :: rest.
Proof.
  induction messages as [|[message|] messages IH]; simpl; [done| |].
  - intros H. destruct (IH H) as (seed & rest & ->).
    by exists (message :: seed), rest.
  - intros _. by exists [], messages.
Qed.

Lemma seedMessagesFromPointers_map seed :
  seedMessagesFromPointers (map Some seed) = inl seed.
Proof.
  destruct seed as [|message seed]; [done|].
  unfold seedMessagesFromPointers. change (map Some (message :: seed))
    with (Some message :: map Some seed).
  cbv beta iota. apply (seedLoop_map 0 (message :: seed) []).
Qed.

(** A case with a fault: the body fails with a message that names it, and
    nothing is called. *)
Lemma body_fault s ctx req evalCase opts sessionID now f :
  caseFault evalCase = Some f ->
  exists rest,
    inferenceEvalCaseBody s ctx req evalCase opts sessionID now
      = Ok (failedBody req sessionID evalCase rest, []) /\
    contains (faultText f) rest.
Proof.
  unfold caseFault. intros Hfault.
  destruct (ec_SessionInput evalCase) as [session|] eqn:Hsession.
  2: { injection Hfault as <-. eexists. split; [by apply body_session_nil|].
       apply contains_refl. }
  destruct (ec_ActualConversation evalCase) as [|turn actual] eqn:Hactual.
  - destruct (ec_Conversation evalCase) as [|c conversation] eqn:Hconv.
    { injection Hfault as <-. eexists.
      split; [by eapply body_empty_conversation|]. apply contains_refl. }
    destruct (ec_EvalMode evalCase) eqn:Hmode; [|done].
    destruct (existsb isNilMessage (ec_ContextMessages evalCase)) eqn:Hnil; [|done].
    injection Hfault as <-.
    destruct (nil_message_split _ Hnil) as (seed & rest & Hmessages).
    eexists. split.
    + eapply body_nil_context_message; [done|done|done|by rewrite Hconv|].
      rewrite Hmessages. apply seedMessagesFromPointers_nil.
    + exists "", (" " +:+ pretty (length seed)). reflexivity.
  - unfold inferenceEvalCaseBody, failedBody. rewrite Hsession, Hactual.
    destruct (ec_EvalMode evalCase) eqn:Hmode.
    { injection Hfault as <-. eexists. split; [reflexivity|]. apply contains_refl. }
    cbn [length Nat.eqb negb andb EvalMode_eqb].
    destruct (ec_Conversation evalCase) as [|c conversation] eqn:Hconv.
    + cbn [length Nat.eqb negb andb].
      destruct (existsb badTurn (turn :: actual)) eqn:Hbad; [|done].
      injection Hfault as <-.
      destruct (checkActualConversation_bad 0 _ Hbad) as (msg & -> & Hmsg).
      by exists msg.
    + destruct (decide (length (turn :: actual) = length (c :: conversation)))
        as [Hlen|Hlen].
      * apply Nat.eqb_eq in Hlen as Heqb. cbn [length] in Heqb.
        cbn [length Nat.eqb negb andb]. simpl in Heqb. rewrite Heqb. simpl.
        destruct (existsb badTurn (turn :: actual)) eqn:Hbad; [|done].
        injection Hfault as <-.
        destruct (checkActualConversation_bad 0 _ Hbad) as (msg & Hcheck & Hmsg).
        simpl in Hcheck. rewrite Hcheck. by exists msg.
      * injection Hfault as <-.
        apply Nat.eqb_neq in Hlen as Heqb. simpl in Heqb.
        cbn [length Nat.eqb negb andb]. rewrite Heqb. simpl.
        eexists. split; [reflexivity|].
        apply (contains_append_r _ "actual conversation length "),
          (contains_append_r _ (pretty (length (turn :: actual)))).
        exists " ", (" " +:+ pretty (length (c :: conversation))). reflexivity.
Qed.

(** A default-mode case without fault whose runtime fails: the body fails
    with the error of the runtime. *)
Lemma body_runtime_error s ctx req evalCase opts sessionID now seed e t :
  caseFault evalCase = None ->
  ec_EvalMode evalCase = EvalModeDefault ->
  ec_ContextMessages evalCase = map Some seed ->
  inference_Inference ctx (runner s) (ec_Conversation evalCase)
    (ec_SessionInput evalCase) sessionID
    (opt_RunOptions opts ++
     match seed with [] => [] | _ :: _ => [WithInjectedContextMessages seed] end)
    now = Ok (inr e, t) ->
  exists t',
    inferenceEvalCaseBody s ctx req evalCase opts sessionID now
      = Ok (failedBody req sessionID evalCase e, t').
Proof.
  unfold caseFault. intros Hfault Hmode Hmessages Hrun.
  unfold inferenceEvalCaseBody, failedBody.
  destruct (ec_SessionInput evalCase) as [session|] eqn:Hsession; [|done].
  rewrite Hmode in *.
  destruct (ec_ActualConversation evalCase) as [|turn actual] eqn:Hactual; [|done].
  destruct (ec_Conversation evalCase) as [|c conversation] eqn:Hconv; [done|].
  rewrite Hmessages, seedMessagesFromPointers_map.
  cbn [length Nat.eqb negb andb EvalMode_eqb].
  assert ((if (0 <? length seed)%nat
           then [WithInjectedContextMessages seed] else [])
          = match seed with [] => [] | _ :: _ => [WithInjectedContextMessages seed] end)
    as -> by (by destruct seed).
  eff_unfold. rewrite Hrun. by eexists.
Qed.

(** ** The outcome of a case *)

Lemma newFailedInferenceResult_failedWith msg result e :
  contains msg e -> failedWith msg (newFailedInferenceResult result e).
Proof. intros H. by repeat split. Qed.

Lemma inferenceEvalCase_outcome s ctx req evalCase opts now supplier :
  opt_SessionIDSupplier opts = Some supplier ->
  exists r t,
    inferenceEvalCase s ctx req (Some evalCase) opts now = Ok (r, t) /\
    caseOutcome (runner s) ctx req opts (supplier ctx) now None evalCase r.
Proof.
  intros Hsup. unfold caseOutcome.
  change {| bica_Request := req; bica_EvalCaseID := ec_EvalID evalCase;
            bica_SessionID := supplier ctx |}
    with (beforeCaseArgs req evalCase (supplier ctx)).
  destruct (cb_RunBeforeInferenceCase (opt_Callbacks opts) ctx
              (beforeCaseArgs req evalCase (supplier ctx))) as [res [e|]] eqn:Hbefore;
    cbn [fst snd].
  { eexists _, _. split; [by eapply inferenceEvalCase_before_error|].
    split; [done|]. split; [right; by repeat split|].
    split; apply newFailedInferenceResult_failedWith.
    - apply contains_wrap_l. exists "". eexists. reflexivity.
    - apply contains_wrap_r, contains_refl. }
  destruct (inferenceEvalCaseBody_spec s (caseContext ctx res) req evalCase opts
              (supplier ctx) now) as (result & err & t0 & Hbody & Hpost & _).
  pose proof (bodyPost_consistent _ _ _ _ _ Hpost) as [Hconsistent Hiff].
  eexists _, _. split; [by eapply inferenceEvalCase_run|].
  set (after := cb_RunAfterInferenceCase (opt_Callbacks opts) (caseContext ctx res)
                  (afterCaseArgs req result err now)).
  assert (forall msg e,
            err = Some e -> contains msg e ->
            failedWith msg
              match after with
              | Some afterErr =>
                  newFailedInferenceResult result
                    (errors_Join err (afterCaseError req evalCase afterErr))
              | None => result
              end) as Hfailed.
  { intros msg e -> Hmsg. destruct Hpost as [-> _].
    destruct after; apply newFailedInferenceResult_failedWith;
      [by apply contains_join_l|done]. }
  split.
  { assert (res_EvalCaseID result = ec_EvalID evalCase) as Hid.
    { unfold bodyPost in Hpost. destruct err as [e|].
      - by destruct Hpost as [-> _].
      - by destruct Hpost as [inferences ->]. }
    by destruct after. }
  split.
  { destruct after as [afterErr|]; [|done].
    right. split; [done|]. split; [done|]. simpl.
    destruct err as [e|]; simpl; [|done].
    unfold bodyPost in Hpost. destruct Hpost as [_ [rest ->]]. done. }
  split.
  { intros f Hf.
    destruct (body_fault s (caseContext ctx res) req evalCase opts (supplier ctx)
                now f Hf) as (rest & Hbody' & Hrest).
    rewrite Hbody in Hbody'. unfold failedBody in Hbody'.
    injection Hbody' as _ Herr _.
    eapply Hfailed; [exact Herr|]. by apply contains_caseError. }
  split.
  { intros seed e t Hnone Hmode Hmessages Hrun.
    destruct (body_runtime_error s (caseContext ctx res) req evalCase opts
                (supplier ctx) now seed e t Hnone Hmode Hmessages Hrun)
      as (t' & Hbody').
    rewrite Hbody in Hbody'. unfold failedBody in Hbody'.
    injection Hbody' as _ Herr _.
    eapply Hfailed; [exact Herr|]. apply caseError_contains. }
  exists (afterCaseArgs req result err now).
  split; [done|]. split; [done|]. split; [done|]. split; [done|].
  cbn [aica_Result]. fold after. destruct after as [afterErr|]; [|done].
  split; apply newFailedInferenceResult_failedWith; apply contains_join_r.
  - apply contains_wrap_l. exists "". eexists. reflexivity.
  - apply contains_wrap_r, contains_refl.
Qed.

Lemma slotOf_outcome s ctx req opts now rejection evalCase supplier :
  opt_SessionIDSupplier opts = Some supplier ->
  exists r,
    slotOf s ctx req opts now rejection (Some evalCase) = Some r /\
    caseOutcome (runner s) ctx req opts (supplier ctx) now rejection evalCase r.
Proof.
  intros Hsup. unfold slotOf. destruct rejection as [err|].
  - rewrite Hsup. eexists. split; [reflexivity|].
    split; [done|]. split; [right; by repeat split|].
    split; [done|]. split; [done|].
    unfold rejectedResult, wrap. simpl. by rewrite append_assoc.
  - destruct (inferenceEvalCase_outcome s ctx req evalCase opts now supplier Hsup)
      as (r & t & Hrun & Houtcome).
    exists r. unfold value. by rewrite Hrun.
Qed.

(** Either executor, on the cases a request selects. *)
Lemma inferEvalCases_outcome sched ctx req cases opts w supplier :
  opt_SessionIDSupplier opts = Some supplier ->
  (opt_EvalCaseParallelInferenceEnabled opts = true ->
   exists pool w1,
     ensureEvalCaseInferencePool (opt_EvalCaseParallelism opts) w
       = Ok (Some pool, None, w1)) ->
  exists results w',
    inferEvalCases sched ctx req (Some <$> cases) opts w = Ok (Some results, None, w') /\
    length results = length cases /\
    forall idx evalCase,
      cases !! idx = Some evalCase ->
      exists r,
        results !! idx = Some (Some r) /\
        caseOutcome (runner (w_svc w)) ctx req opts (supplier ctx) (w_now w)
          (if opt_EvalCaseParallelInferenceEnabled opts
           then rejectionOf sched idx else None)
          evalCase r.
Proof.
  intros Hsup Hpool. unfold inferEvalCases.
  assert (Forall is_Some (Some <$> cases)) as Hcases.
  { apply Forall_fmap, Forall_true. intros evalCase. by eexists. }
  destruct (opt_EvalCaseParallelInferenceEnabled opts).
  - destruct (Hpool eq_refl) as (pool & w1 & Hensure).
    destruct (inferEvalCasesParallel_spec sched ctx req (Some <$> cases) opts w pool
                w1 supplier Hsup (rejectedNonNil_all _ _ Hcases) Hensure)
      as (results & w' & Hrun & Hlen & Hslots).
    rewrite length_fmap in Hlen, Hslots.
    exists results, w'. split; [done|]. split; [done|].
    intros idx evalCase Hcase. apply lookup_lt_Some in Hcase as Hlt.
    rewrite (Hslots idx Hlt). unfold caseAt.
    rewrite list_lookup_fmap, Hcase. simpl.
    destruct (slotOf_outcome (w_svc w) ctx req opts (w_now w)
                (rejectionOf sched idx) evalCase supplier Hsup) as (r & -> & Houtcome).
    by exists r.
  - m_unfold.
    destruct (inferEvalCasesSerial_spec (w_svc w) ctx req (Some <$> cases) opts
                (w_now w) supplier Hsup) as (t & Hserial).
    eexists _, _. split; [by apply lift_ok|].
    split; [by rewrite length_map, length_fmap|].
    intros idx evalCase Hcase.
    destruct (inferenceEvalCase_outcome (w_svc w) ctx req evalCase opts (w_now w)
                supplier Hsup) as (r & tc & Hrun & Houtcome).
    exists r. split; [|done].
    change (map ?f ?l) with (f <$> l).
    rewrite !list_lookup_fmap, Hcase. simpl. unfold value. by rewrite Hrun.
Qed.

Lemma loadInferenceEvalCases_error ctx req mgr e now :
  mgr_Get mgr ctx (req_AppName req) (req_EvalSetID req) = inr e ->
  loadInferenceEvalCases ctx req (Some mgr) now
    = Ok (inr (wrap "get eval set" e),
          [ObsGet ctx (req_AppName req) (req_EvalSetID req)]).
Proof.
  intros Hget. unfold loadInferenceEvalCases. eff_unfold. by rewrite Hget.
Qed.

(** ** The outcome of a batch *)

Lemma InferenceBody_outcome sched ctx req callOpts w :
  resolved callOpts w ->
  exists results err w',
    InferenceBody sched ctx req callOpts w = Ok (results, err, w') /\
    batchOutcome (runner (w_svc w)) (w_now w) sched ctx req callOpts results err.
Proof.
  intros Hresolved. pose proof Hresolved as ([mgr Hmgr] & [supplier Hsup] & Hpool).
  unfold InferenceBody, batchOutcome. m_unfold. rewrite Hmgr, Hsup.
  destruct (mgr_Get mgr ctx (req_AppName req) (req_EvalSetID req))
    as [evalSet|e] eqn:Hget.
  2: { rewrite (lift_ok _ _ _ _ (loadInferenceEvalCases_error ctx req mgr e _ Hget)).
       by eexists _, _, _. }
  rewrite (lift_ok _ _ _ _ (loadInferenceEvalCases_selected ctx req mgr evalSet _ Hget)).
  destruct (decide (selectedCases req evalSet = [])) as [Hselected|Hselected].
  { rewrite Hselected. eexists _, _, _. split; [reflexivity|]. split; [done|].
    exists []. split; [done|]. split; [done|]. by intros idx evalCase. }
  assert ((length (Some <$> selectedCases req evalSet) =? 0)%nat = false) as ->.
  { by destruct (selectedCases req evalSet). }
  set (w2 := addTrace [ObsGet ctx (req_AppName req) (req_EvalSetID req)] w).
  destruct (inferEvalCases_outcome sched ctx req (selectedCases req evalSet) callOpts
              w2 supplier Hsup) as (rs & w' & Hrun & Hlen & Hslots).
  { intros Hparallel.
    assert (resolved callOpts w2) as (_ & _ & Hpool') by (by apply resolved_addTrace).
    destruct (Hpool' Hparallel) as [pool Hensure]. by eexists _, _. }
  rewrite Hrun. eexists _, _, _. split; [reflexivity|]. split; [done|].
  by exists rs.
Qed.

(** C3, as the code has it: [Inference] always returns, it never panics, and
    what it returns is settled origin by origin.  The error of the batch is
    the error of the validation of the request, of the resolution of the
    options, of the before-set callbacks, of the eval-set manager that loads
    the eval set, or of the after-set callbacks, each exactly when that step
    fails and none of the earlier ones did, and then there are no results.
    Every other failure stays on the result of its case: there is one result
    per selected case, in order, and the result of a case is failed, with nil
    inferences and a message that holds the error, when the submission of the
    case was rejected, when its before-case callbacks failed, when the case
    has a fault (no session input, a recorded conversation outside trace
    mode or of the wrong length or with a nil turn, no conversation, a nil
    context message), when the runtime failed, or when its after-case
    callbacks failed. *)
Theorem inference_batch_errors sched ctx req opt w :
  poolMemoConsistent (w_svc w) ->
  exists results err w',
    Inference sched ctx req opt w = Ok (results, err, w') /\
    inferenceOutcome sched ctx req opt w results err.
Proof.
  intros Hmemo. unfold Inference, inferenceOutcome.
  destruct req as [req|]; [|by eexists _, _, _].
  unfold validateInferenceRequest.
  destruct (decide (req_AppName req = "")) as [Happ|Happ].
  { rewrite (bool_decide_eq_true_2 _ Happ). by eexists _, _, _. }
  rewrite (bool_decide_eq_false_2 _ Happ).
  destruct (decide (req_EvalSetID req = "")) as [Hset|Hset].
  { rewrite (bool_decide_eq_true_2 _ Hset). by eexists _, _, _. }
  rewrite (bool_decide_eq_false_2 _ Hset).
  destruct (resolveInferenceOptions_total opt w Hmemo)
    as (res & w1 & Hresolve & Hnow & _ & Hrunner & Hresolved).
  m_unfold. rewrite Hresolve.
  destruct res as [callOpts|e]; [|by eexists _, _, _].
  specialize (Hresolved callOpts eq_refl).
  destruct (cb_RunBeforeInferenceSet (opt_Callbacks callOpts) ctx
              {| bisa_Request := req |}) as [[res [e|]] req'] eqn:Hbefore;
    rewrite (lift_ok _ _ _ _
               (runBeforeInferenceSetCallbacks_run ctx _ req (w_now w1) _ _ _
                  Hbefore)); simpl.
  { eexists _, _, _. split; [reflexivity|]. split; [done|].
    f_equal. unfold wrap, setContext. simpl. by rewrite !append_assoc. }
  unfold lift at 1. simpl.
  destruct (InferenceBody_outcome sched (setCallbackContext ctx res) req' callOpts
              (addTrace [] (addTrace
                 [ObsBeforeInferenceSet ctx {| bisa_Request := req |}] w1)))
    as (results & err & w2 & Hbody & Houtcome).
  { by do 2 apply resolved_addTrace. }
  simpl in Houtcome. rewrite Hnow, Hrunner in Houtcome.
  rewrite Hbody. unfold lift. rewrite runAfterInferenceSetCallbacks_run, Hnow.
  destruct (cb_RunAfterInferenceSet (opt_Callbacks callOpts)
              (setCallbackContext ctx res)
              (afterSetArgs req' results err (w_now w))) as [e|] eqn:Hafter;
    simpl; eexists _, _, _; (split; [reflexivity|]); exists results, err;
    (split; [done|]); rewrite Hafter; [|done].
  split; [done|]. f_equal. unfold wrap, setContext. simpl.
  by rewrite !append_assoc.
Qed.

Lemma inference_batch_errors_witness :
  let evalCases :=
    [Some (traceCase "case-1" "one");
     Some (withCase EvalModeDefault [] None [] (makeEvalCase "case-2" "two"))] in
  let w := testWorld (testService (testManager evalCases) noCallbacks false) in
  exists r1 r2 w',
    Inference [] ∅ (Some testRequest) [] w = Ok (Some [Some r1; Some r2], None, w') /\
    res_EvalCaseID r2 = "case-2" /\
    res_Status r2 = EvalStatusFailed /\
    res_Inferences r2 = None /\
    contains "session input is nil" (res_ErrorMessage r2).
Proof.
  intros evalCases w.
  destruct (inference_batch_errors [] ∅ (Some testRequest) [] w)
    as (results & err & w' & Hrun & Houtcome).
  { intros Honce. discriminate Honce. }
  unfold inferenceOutcome in Houtcome.
  destruct (decide (req_AppName testRequest = "")) as [H|_]; [discriminate H|].
  destruct (decide (req_EvalSetID testRequest = "")) as [H|_]; [discriminate H|].
  change (resolveInferenceOptions [] w)
    with (Ok (inl (B := error) (serviceDefaults (w_svc w)), w)) in Houtcome.
  cbn in Houtcome.
  destruct Houtcome as (batchResults & batchErr & Hbatch & -> & ->).
  unfold batchOutcome in Hbatch. cbn in Hbatch.
  change (selectedCases testRequest {| es_EvalCases := evalCases |})
    with [traceCase "case-1" "one";
          withCase EvalModeDefault [] None [] (makeEvalCase "case-2" "two")]
    in Hbatch.
  destruct Hbatch as (-> & rs & -> & Hlen & Hslots).
  destruct (Hslots 0 _ eq_refl) as (r1 & Hr1 & _).
  destruct (Hslots 1 _ eq_refl) as (r2 & Hr2 & Hid & _ & Hfaults & _).
  destruct (Hfaults MissingSessionInput eq_refl) as (Hstatus & Hinferences & Hmessage).
  destruct rs as [|slot1 [|slot2 [|slot3 rs]]]; try discriminate Hlen.
  injection Hr1 as ->. injection Hr2 as ->.
  exists r1, r2, w'. split; [exact Hrun|]. split; [exact Hid|].
  split; [exact Hstatus|]. split; [exact Hinferences|exact Hmessage].
Defined.
